(** * Sliding-sync live core: range windows and the event dispatcher

    A shallow embedding of

    - [synclive/range.go]: [SliceRanges] with [Valid], [Delta] and
      [SliceInto], and the [Subslicer] interface;
    - the [sync3] dispatcher: [Dispatcher] with [Register], [Unregister],
      [OnNewInitialRoomState], [OnNewEvent], [OnEphemeralEvent],
      [OnReceipt], [notifyListeners] and [OnInvalidateRoom].

    Go's [int64] is a [Z] with the two's-complement wrap-around written
    out at every arithmetic operation; Go maps are stdpp [gmap]s; a Go
    run-time panic is an explicit outcome. *)

From Stdlib Require Import ZArith Lia.
From stdpp Require Import base decidable option list gmap sets strings fin_maps.

Local Open Scope Z_scope.

(** ** 64-bit signed integers *)

Definition wrap64 (z : Z) : Z := (z + 2 ^ 63) mod 2 ^ 64 - 2 ^ 63.

Definition int64_range (z : Z) : Prop := - 2 ^ 63 ≤ z < 2 ^ 63.

(** ** synclive/range.go *)

Module Synclive.

(** [type SliceRanges [][2]int64] *)
Abbreviation SliceRange := (Z * Z)%type.
Abbreviation SliceRanges := (list (Z * Z)).

(** [func (r SliceRanges) Valid() bool] *)
Definition Valid (r : SliceRanges) : bool :=
  forallb (λ sr : SliceRange,
             if bool_decide (sr.2 < sr.1) then false
             else if bool_decide (sr.1 < 0) then false
             else true) r.

(** A Go [map[[2]int64]bool]: a missing key reads as [false]. *)
Abbreviation RangeMap := (gmap (Z * Z) bool).

Definition map_get (m : RangeMap) (k : SliceRange) : bool :=
  default false (m !! k).

(** [for _, x := range xs { m[x] = true }] *)
Definition mark_all (xs : SliceRanges) : RangeMap :=
  foldl (λ (m : RangeMap) x, <[x := true]> m) ∅ xs.

(** [for k := range m]: Go leaves the order of a map iteration open; the
    model enumerates the keys in the order of [map_to_list], and every
    statement below is about membership only. *)
Definition range_keys (m : RangeMap) : SliceRanges := (map_to_list m).*1.

(** [func (r SliceRanges) Delta(next SliceRanges) (added, removed, same)] *)
Definition Delta (r next : SliceRanges)
  : SliceRanges * SliceRanges * SliceRanges :=
  let olds := mark_all r in
  let news := mark_all next in
  let '(same, removed) :=
    foldl (λ '(same, removed) oldStartEnd,
             if map_get news oldStartEnd
             then (same ++ [oldStartEnd], removed)
             else (same, removed ++ [oldStartEnd]))
          ([], []) (range_keys olds) in
  let added :=
    foldl (λ added newStartEnd,
             if map_get olds newStartEnd then added
             else added ++ [newStartEnd])
          [] (range_keys news) in
  (added, removed, same).

(** [type Subslicer interface { Len() int64; Subslice(i, j int64) Subslicer }]
    An implementation may panic on the bounds it is given; [Subslice]
    then yields [None]. *)
Class Subslicer (T : Type) := {
  Len : T → Z;
  Subslice : T → Z → Z → option T
}.

(** The two caps of the loop body: [if sr[k] >= sliceLen { sr[k] = sliceLen - 1 }]. *)
Definition cap (sliceLen x : Z) : Z :=
  if bool_decide (sliceLen ≤ x) then wrap64 (sliceLen - 1) else x.

(** The arguments the loop body passes to [slice.Subslice]. *)
Definition subslice_args (sliceLen : Z) (sr : SliceRange) : Z * Z :=
  let sr0 := cap sliceLen sr.1 in
  let sr1 := cap sliceLen sr.2 in
  (sr0, wrap64 (sr1 + 1)).

(** [func (r SliceRanges) SliceInto(slice Subslicer) []Subslicer] *)
Fixpoint SliceInto `{Subslicer T} (r : SliceRanges) (slice : T)
  : option (list T) :=
  match r with
  | [] => Some []
  | sr :: r' =>
      let sliceLen := Len slice in
      let '(i, j) := subslice_args sliceLen sr in
      match Subslice slice i j with
      | None => None
      | Some subslice =>
          match SliceInto r' slice with
          | None => None
          | Some result => Some (subslice :: result)
          end
      end
  end.

(** A Go slice whose capacity is its length: [s[i:j]] panics unless
    [0 <= i <= j <= len(s)]. *)
Definition go_slice {A} (s : list A) (i j : Z) : option (list A) :=
  if bool_decide (0 ≤ i ∧ i ≤ j ∧ j ≤ Z.of_nat (length s))
  then Some (take (Z.to_nat (j - i)) (drop (Z.to_nat i) s))
  else None.

#[export] Instance list_Subslicer {A} : Subslicer (list A) := {
  Len s := Z.of_nat (length s);
  Subslice := go_slice
}.

End Synclive.

(** ** The sync3 dispatcher *)

Module Sync3.

Local Open Scope string_scope.
Local Open Scope list_scope.

(** [const DispatcherAllUsers = "-"] *)
Definition DispatcherAllUsers : string := "-".

(** [json.RawMessage], seen through the lookups the dispatcher and
    [caches.NewEventData] make on it: the event type, the optional state
    key and the string fields of the content. *)
Record RawMessage := {
  json_type : string;
  json_state_key : option string;
  json_content : gmap string string
}.

(** Modelled from the spec: [caches.EventData] is declared outside the
    sources at hand. The spec gives it a room identifier, an event type,
    an optional state key, a content view with lookup by field name, a
    stream position, the join and invite counts and the [ForceInitial]
    flag; the event itself is kept alongside. *)
Record EventData := {
  Event : RawMessage;
  RoomID : string;
  EventType : string;
  StateKey : option string;
  Content : gmap string string;
  NID : Z;
  JoinCount : Z;
  InviteCount : Z;
  ForceInitial : bool
}.

Definition set_JoinCount (n : Z) (ed : EventData) : EventData :=
  {| Event := Event ed; RoomID := RoomID ed; EventType := EventType ed;
     StateKey := StateKey ed; Content := Content ed; NID := NID ed;
     JoinCount := n; InviteCount := InviteCount ed;
     ForceInitial := ForceInitial ed |}.

Definition set_InviteCount (n : Z) (ed : EventData) : EventData :=
  {| Event := Event ed; RoomID := RoomID ed; EventType := EventType ed;
     StateKey := StateKey ed; Content := Content ed; NID := NID ed;
     JoinCount := JoinCount ed; InviteCount := n;
     ForceInitial := ForceInitial ed |}.

Definition set_ForceInitial (b : bool) (ed : EventData) : EventData :=
  {| Event := Event ed; RoomID := RoomID ed; EventType := EventType ed;
     StateKey := StateKey ed; Content := Content ed; NID := NID ed;
     JoinCount := JoinCount ed; InviteCount := InviteCount ed;
     ForceInitial := b |}.

(** [ed.Content.Get(name).Str]: the empty string when the field is absent. *)
Definition Content_Get_Str (ed : EventData) (name : string) : string :=
  default "" (Content ed !! name).

(** Modelled from the spec: the value [caches.NewEventData(event, roomID,
    nid)] builds, with zero counts and [ForceInitial] unset. *)
Definition NewEventData_value (event : RawMessage) (roomID : string) (nid : Z)
  : EventData :=
  {| Event := event; RoomID := roomID; EventType := json_type event;
     StateKey := json_state_key event; Content := json_content event;
     NID := nid; JoinCount := 0; InviteCount := 0; ForceInitial := false |}.

(** [internal.Receipt]: the dispatcher reads its [RoomID] only. *)
Record Receipt := {
  receipt_RoomID : string;
  receipt_data : string
}.

(** *** The membership tracker *)

(** Modelled from the spec: [JoinedRoomsTracker] is declared outside the
    sources at hand. Per room and user exactly one of four states holds;
    the joined and invited sets and their counts are derived from it. *)
Inductive Membership := NotMember | Invited | Joined | Left.

#[export] Instance Membership_eq_dec : EqDecision Membership :=
  ltac:(solve_decision).

Abbreviation JoinedRoomsTracker := (gmap string (gmap string Membership)).

Definition room_members (t : JoinedRoomsTracker) (roomID : string)
  : gmap string Membership :=
  default ∅ (t !! roomID).

Definition membership_of (t : JoinedRoomsTracker) (userID roomID : string)
  : Membership :=
  default NotMember (room_members t roomID !! userID).

Definition set_membership (st : Membership) (roomID : string)
    (t : JoinedRoomsTracker) (userID : string) : JoinedRoomsTracker :=
  <[roomID := <[userID := st]> (room_members t roomID)]> t.

Definition users_in_state (st : Membership) (t : JoinedRoomsTracker)
    (roomID : string) : list string :=
  (filter (λ kv : string * Membership, kv.2 = st)
          (map_to_list (room_members t roomID))).*1.

(** Modelled from the spec: [IsUserJoined(user, room)]. *)
Definition jrt_IsUserJoined (t : JoinedRoomsTracker) (userID roomID : string)
  : bool :=
  bool_decide (membership_of t userID roomID = Joined).

(** Modelled from the spec: [Startup(roomToJoinedUsers)] bulk-loads the
    joined state. *)
Definition jrt_Startup (roomToJoinedUsers : gmap string (list string))
  : JoinedRoomsTracker :=
  (λ users : list string,
     foldl (λ (m : gmap string Membership) u, <[u := Joined]> m) ∅ users)
  <$> roomToJoinedUsers.

(** Modelled from the spec: [UsersJoinedRoom(users, room)] moves every
    user to [Joined] and reports whether any of them was not joined
    immediately before. *)
Definition jrt_UsersJoinedRoom (userIDs : list string) (roomID : string)
    (t : JoinedRoomsTracker) : bool * JoinedRoomsTracker :=
  (existsb (λ u, negb (jrt_IsUserJoined t u roomID)) userIDs,
   foldl (set_membership Joined roomID) t userIDs).

(** Modelled from the spec: [UserJoinedRoom(user, room)], true when the
    user was not already joined. *)
Definition jrt_UserJoinedRoom (userID roomID : string)
    (t : JoinedRoomsTracker) : bool * JoinedRoomsTracker :=
  (negb (jrt_IsUserJoined t userID roomID),
   set_membership Joined roomID t userID).

(** Modelled from the spec: [UserLeftRoom(user, room)]. *)
Definition jrt_UserLeftRoom (userID roomID : string)
    (t : JoinedRoomsTracker) : JoinedRoomsTracker :=
  set_membership Left roomID t userID.

(** Modelled from the spec: an invite is recorded for a user that is not
    joined. A joined user stays joined: the spec lets the joined count
    fall through [UserLeftRoom] only, has an invite "record invite only",
    and gives a pair of room and user exactly one state. *)
Definition record_invite (roomID : string) (t : JoinedRoomsTracker)
    (userID : string) : JoinedRoomsTracker :=
  if bool_decide (membership_of t userID roomID = Joined) then t
  else set_membership Invited roomID t userID.

(** Modelled from the spec: [UsersInvitedToRoom(users, room)]. *)
Definition jrt_UsersInvitedToRoom (userIDs : list string) (roomID : string)
    (t : JoinedRoomsTracker) : JoinedRoomsTracker :=
  foldl (record_invite roomID) t userIDs.

(** Modelled from the spec: [NumInvitedUsersForRoom(room)], the number of
    users whose state for the room is [Invited]. *)
Definition jrt_NumInvitedUsersForRoom (roomID : string)
    (t : JoinedRoomsTracker) : Z :=
  Z.of_nat (length (users_in_state Invited t roomID)).

(** Modelled from the spec: [JoinedUsersForRoom(room, filter)] returns the
    joined users the filter accepts (a nil filter accepts all) next to the
    full joined count. *)
Definition jrt_JoinedUsersForRoom (roomID : string)
    (filter_fn : option (string → bool)) (t : JoinedRoomsTracker)
  : list string * Z :=
  let users := users_in_state Joined t roomID in
  (match filter_fn with
   | None => users
   | Some f => filter (λ u, Is_true (f u)) users
   end,
   Z.of_nat (length users)).

(** Modelled from the spec: [ReloadMembershipsForRoom(room, joined,
    invited)] replaces everything known about the room. *)
Definition jrt_ReloadMembershipsForRoom (roomID : string)
    (joined invited : list string) (t : JoinedRoomsTracker)
  : JoinedRoomsTracker :=
  <[roomID :=
      foldl (λ (m : gmap string Membership) u, <[u := Joined]> m)
            (foldl (λ (m : gmap string Membership) u, <[u := Invited]> m)
                   ∅ invited)
            joined]> t.

(** *** Receivers, memory and effects *)

(** A non-nil [Receiver] interface value: its dynamic type, the pointer it
    holds ([None] is a nil pointer of that type) and what its
    [OnRegistered] hook returns ([None] is a nil error). A nil interface
    is the absence of a receiver ([option Receiver]). *)
Inductive DynType := GlobalCachePtr | UserCachePtr | OtherReceiver.

#[export] Instance DynType_eq_dec : EqDecision DynType :=
  ltac:(solve_decision).

Record Receiver := {
  recv_type : DynType;
  recv_ptr : option nat;
  recv_OnRegistered : option string
}.

(** A callback the dispatcher fires. An [*caches.EventData] argument is an
    address in the memory of event data, recorded with what it points to
    at the time of the call. *)
Inductive Callback :=
| OnNewEvent_cb (event : nat) (pointee : option EventData)
| OnReceipt_cb (receipt : Receipt)
| OnEphemeralEvent_cb (roomID : string) (ephEvent : RawMessage)
| OnRegistered_cb
| OnInvalidateRoom_cb (roomID : string)
| OnLeftRoom_cb (roomID : string) (leaveEvent : RawMessage)
| OnInvite_cb (roomID : string) (inviteState : list RawMessage).

(** One call: the registry key the receiver was read from, the receiver
    and the callback. *)
Record Invocation := {
  inv_user : string;
  inv_receiver : Receiver;
  inv_callback : Callback
}.

Inductive LogLevel := LogTrace | LogWarn | LogError.

Inductive LogValue := LogStr (s : string) | LogInt (z : Z).

Record LogEntry := {
  log_level : LogLevel;
  log_msg : string;
  log_fields : list (string * LogValue)
}.

(** The [Dispatcher] ([jrt] and [userToReceiver]; the mutex has no
    sequential content), the memory holding the [EventData] values that
    are passed by pointer, and what a run leaves behind: the callbacks
    fired and the log lines written, oldest first. *)
Record World := {
  jrt : JoinedRoomsTracker;
  userToReceiver : gmap string Receiver;
  heap : list EventData;
  calls : list Invocation;
  logs : list LogEntry
}.

(** [NewDispatcher()] in an empty memory. *)
Definition NewDispatcher : World :=
  {| jrt := ∅; userToReceiver := ∅; heap := []; calls := []; logs := [] |}.

Definition with_jrt (t : JoinedRoomsTracker) (w : World) : World :=
  {| jrt := t; userToReceiver := userToReceiver w; heap := heap w;
     calls := calls w; logs := logs w |}.

Definition with_userToReceiver (m : gmap string Receiver) (w : World) : World :=
  {| jrt := jrt w; userToReceiver := m; heap := heap w;
     calls := calls w; logs := logs w |}.

Definition with_heap (h : list EventData) (w : World) : World :=
  {| jrt := jrt w; userToReceiver := userToReceiver w; heap := h;
     calls := calls w; logs := logs w |}.

Definition with_calls (c : list Invocation) (w : World) : World :=
  {| jrt := jrt w; userToReceiver := userToReceiver w; heap := heap w;
     calls := c; logs := logs w |}.

Definition with_logs (l : list LogEntry) (w : World) : World :=
  {| jrt := jrt w; userToReceiver := userToReceiver w; heap := heap w;
     calls := calls w; logs := l |}.

(** A call either returns or panics; either way it leaves a world. *)
Inductive Outcome (A : Type) :=
| Returned (a : A) (w : World)
| Panicked (msg : string) (w : World).
Arguments Returned {A} a w.
Arguments Panicked {A} msg w.

Definition M (A : Type) : Type := World → Outcome A.

Definition ret {A} (a : A) : M A := λ w, Returned a w.

Definition bind {A B} (m : M A) (k : A → M B) : M B :=
  λ w, match m w with
       | Returned a w' => k a w'
       | Panicked msg w' => Panicked msg w'
       end.

Definition panic {A} (msg : string) : M A := λ w, Panicked msg w.

Notation "'let*' x ':=' m 'in' k" := (bind m (λ x, k))
  (at level 10, x name, m at level 100, k at level 200,
   format "'let*'  x  :=  m  'in'  '/' k").
Notation "'let*' ' p ':=' m 'in' k" :=
  (bind m (λ x, match x with p => k end))
  (at level 10, p pattern, m at level 100, k at level 200,
   format "'let*'  ' p  :=  m  'in'  '/' k").
Notation "'run' m 'then' k" := (bind m (λ _ : unit, k))
  (at level 10, m at level 100, k at level 200,
   format "'run'  m  'then'  '/' k").

Definition final_world {A} (o : Outcome A) : World :=
  match o with Returned _ w => w | Panicked _ w => w end.

Definition has_returned {A} (o : Outcome A) : bool :=
  match o with Returned _ _ => true | Panicked _ _ => false end.

Definition gets {A} (f : World → A) : M A := λ w, Returned (f w) w.

Definition modify (f : World → World) : M unit := λ w, Returned tt (f w).

(** [for _, x := range xs { body }] *)
Fixpoint for_each {A} (xs : list A) (body : A → M unit) : M unit :=
  match xs with
  | [] => ret tt
  | x :: xs' => run body x then for_each xs' body
  end.

(** A loop that carries the variables it assigns. *)
Fixpoint fold_each {A S} (xs : list A) (s : S) (body : S → A → M S) : M S :=
  match xs with
  | [] => ret s
  | x :: xs' => let* s' := body s x in fold_each xs' s' body
  end.

(** [d.userToReceiver[userID]]; also [d.ReceiverForUser(userID)]. *)
Definition ReceiverForUser (userID : string) : M (option Receiver) :=
  gets (λ w, userToReceiver w !! userID).

(** Firing a callback on a receiver. *)
Definition invoke (userID : string) (l : Receiver) (cb : Callback) : M unit :=
  modify (λ w, with_calls (calls w ++
    [{| inv_user := userID; inv_receiver := l; inv_callback := cb |}]) w).

(** [l.OnNewEvent(ctx, ed)] for a pointer [ed]. *)
Definition invoke_OnNewEvent (userID : string) (l : Receiver) (ed : nat)
  : M unit :=
  let* pointee := gets (λ w, heap w !! ed) in
  invoke userID l (OnNewEvent_cb ed pointee).

Definition log (lvl : LogLevel) (msg : string)
    (fields : list (string * LogValue)) : M unit :=
  modify (λ w, with_logs (logs w ++
    [{| log_level := lvl; log_msg := msg; log_fields := fields |}]) w).

(** Allocation of an [EventData], returning its address. *)
Definition alloc (v : EventData) : M nat :=
  λ w, Returned (length (heap w)) (with_heap (heap w ++ [v]) w).

(** [*ed] *)
Definition deref (ed : nat) : M EventData :=
  λ w, match heap w !! ed with
       | Some v => Returned v w
       | None => Panicked "invalid memory address or nil pointer dereference" w
       end.

(** [ed.Field = x] *)
Definition assign (ed : nat) (f : EventData → EventData) : M unit :=
  let* v := deref ed in
  modify (λ w, with_heap (<[ed := f v]> (heap w)) w).

(** [caches.NewEventData(event, roomID, nid)] *)
Definition NewEventData (event : RawMessage) (roomID : string) (nid : Z)
  : M nat :=
  alloc (NewEventData_value event roomID nid).

(** Calls into [d.jrt]. *)
Definition jrt_read {A} (f : JoinedRoomsTracker → A) : M A :=
  gets (λ w, f (jrt w)).

Definition jrt_write (f : JoinedRoomsTracker → JoinedRoomsTracker) : M unit :=
  modify (λ w, with_jrt (f (jrt w)) w).

Definition jrt_call {A} (f : JoinedRoomsTracker → A * JoinedRoomsTracker)
  : M A :=
  λ w, let '(a, t) := f (jrt w) in Returned a (with_jrt t w).

(** *** The dispatcher *)

(** The closure handed to [JoinedUsersForRoom] on all four paths:
    [[
    func(userID string) bool {
        if userID == DispatcherAllUsers { return false }
        return d.ReceiverForUser(userID) != nil
    }
    ]] *)
Definition audience_filter (w : World) (userID : string) : bool :=
  if bool_decide (userID = DispatcherAllUsers) then false
  else match userToReceiver w !! userID with
       | Some _ => true
       | None => false
       end.

(** [d.jrt.JoinedUsersForRoom(roomID, <the closure above>)] *)
Definition audience (roomID : string) : M (list string * Z) :=
  gets (λ w,
    jrt_JoinedUsersForRoom roomID (Some (audience_filter w)) (jrt w)).

(** [func (d *Dispatcher) IsUserJoined(userID, roomID string) bool] *)
Definition IsUserJoined (userID roomID : string) : M bool :=
  jrt_read (λ t, jrt_IsUserJoined t userID roomID).

(** [func (d *Dispatcher) Startup(roomToJoinedUsers map[string][]string) error] *)
Definition Startup (roomToJoinedUsers : gmap string (list string))
  : M (option string) :=
  run jrt_write (λ _, jrt_Startup roomToJoinedUsers) then
  ret None.

(** [func (d *Dispatcher) Unregister(userID string)] *)
Definition Unregister (userID : string) : M unit :=
  modify (λ w, with_userToReceiver (delete userID (userToReceiver w)) w).

(** [func (d *Dispatcher) Register(ctx, userID string, r Receiver) error] *)
Definition Register (userID : string) (r : Receiver) : M (option string) :=
  let* existing := ReceiverForUser userID in
  run match existing with
      | Some _ =>
          log LogWarn "Dispatcher.Register: receiver already registered"
              [("user", LogStr userID)]
      | None => ret tt
      end then
  run modify (λ w,
        with_userToReceiver (<[userID := r]> (userToReceiver w)) w) then
  run invoke userID r OnRegistered_cb then
  ret (recv_OnRegistered r).

(** [func (d *Dispatcher) notifyListeners(ctx, ed *caches.EventData,
    userIDs []string, targetUser string, shouldForceInitial bool,
    membership string)] *)
Definition notifyListeners (ed : nat) (userIDs : list string)
    (targetUser : string) (shouldForceInitial : bool) (membership : string)
  : M unit :=
  let* v := deref ed in
  run log LogTrace "%s: notify %d users (nid=%d,join_count=%d)"
        [("room", LogStr (RoomID v));
         ("users", LogInt (Z.of_nat (length userIDs)));
         ("nid", LogInt (NID v)); ("join_count", LogInt (JoinCount v))] then
  (* global listeners *)
  let* listener := ReceiverForUser DispatcherAllUsers in
  run match listener with
      | Some l => invoke_OnNewEvent DispatcherAllUsers l ed
      | None => ret tt
      end then
  (* per-user listeners *)
  let* notifiedTarget :=
    fold_each userIDs false (λ notifiedTarget userID,
      let* l := ReceiverForUser userID in
      match l with
      | Some l =>
          let* v := deref ed in
          let* edd := alloc v in
          let* notifiedTarget :=
            if bool_decide (targetUser = userID) then
              run (if shouldForceInitial
                   then assign edd (set_ForceInitial true)
                   else ret tt) then
              ret true
            else ret notifiedTarget in
          run invoke_OnNewEvent userID l edd then
          ret notifiedTarget
      | None => ret notifiedTarget
      end) in
  if bool_decide (targetUser ≠ "") && negb notifiedTarget then
    if bool_decide (membership ≠ "invite") then
      run (if shouldForceInitial
           then assign ed (set_ForceInitial true)
           else ret tt) then
      let* l := ReceiverForUser targetUser in
      match l with
      | Some l => invoke_OnNewEvent targetUser l ed
      | None => ret tt
      end
    else ret tt
  else ret tt.

(** [func (d *Dispatcher) OnNewEvent(ctx, roomID string,
    event json.RawMessage, nid int64)] *)
Definition OnNewEvent (roomID : string) (event : RawMessage) (nid : Z)
  : M unit :=
  let* ed := NewEventData event roomID nid in
  let* v := deref ed in
  (* update the tracker *)
  let* '(targetUser, membership, shouldForceInitial) :=
    match StateKey v with
    | Some stateKey =>
        if bool_decide (EventType v = "m.room.member") then
          let targetUser := stateKey in
          let membership := Content_Get_Str v "membership" in
          let* shouldForceInitial :=
            if bool_decide (membership = "invite") then
              run jrt_write
                    (jrt_UsersInvitedToRoom [targetUser] (RoomID v)) then
              ret false
            else if bool_decide (membership = "join") then
              let* changed :=
                jrt_call (jrt_UserJoinedRoom targetUser (RoomID v)) in
              ret (if changed then true else false)
            else if bool_decide (membership = "ban")
                    || bool_decide (membership = "leave") then
              run jrt_write (jrt_UserLeftRoom targetUser (RoomID v)) then
              ret false
            else ret false in
          let* inviteCount :=
            jrt_read (jrt_NumInvitedUsersForRoom (RoomID v)) in
          run assign ed (set_InviteCount inviteCount) then
          ret (targetUser, membership, shouldForceInitial)
        else ret ("", "", false)
    | None => ret ("", "", false)
    end in
  (* notify all people in this room *)
  let* '(userIDs, joinCount) := audience (RoomID v) in
  run assign ed (set_JoinCount joinCount) then
  notifyListeners ed userIDs targetUser shouldForceInitial membership.

(** [func (d *Dispatcher) OnNewInitialRoomState(ctx, roomID string,
    state []json.RawMessage)] *)
Definition OnNewInitialRoomState (roomID : string) (state : list RawMessage)
  : M unit :=
  (* sanity check *)
  let* '(_, jc) := jrt_read (jrt_JoinedUsersForRoom roomID None) in
  if bool_decide (jc > 0) then
    run log LogWarn
          "OnNewInitialRoomState but have entries in JoinedRoomsTracker already, this should be impossible. Degrading to live events"
          [("join_count", LogInt jc); ("room", LogStr roomID);
           ("num_state", LogInt (Z.of_nat (length state)))] then
    for_each state (λ s, OnNewEvent roomID s 0)
  else
    (* create event datas for state *)
    let* '(eventDatas, joined, invited) :=
      fold_each state (([] : list nat), ([] : list string), ([] : list string))
        (λ '(eventDatas, joined, invited) event,
           let* ed := NewEventData event roomID 0 in
           let* v := deref ed in
           match StateKey v with
           | Some stateKey =>
               if bool_decide (EventType v = "m.room.member") then
                 let membership := Content_Get_Str v "membership" in
                 if bool_decide (membership = "invite") then
                   ret (eventDatas ++ [ed], joined, invited ++ [stateKey])
                 else if bool_decide (membership = "join") then
                   ret (eventDatas ++ [ed], joined ++ [stateKey], invited)
                 else ret (eventDatas ++ [ed], joined, invited)
               else ret (eventDatas ++ [ed], joined, invited)
           | None => ret (eventDatas ++ [ed], joined, invited)
           end) in
    (* bulk update joined room tracker *)
    let* forceInitial := jrt_call (jrt_UsersJoinedRoom joined roomID) in
    run jrt_write (jrt_UsersInvitedToRoom invited roomID) then
    let* inviteCount := jrt_read (jrt_NumInvitedUsersForRoom roomID) in
    (* work out who to notify *)
    let* '(userIDs, joinCount) := audience roomID in
    (* notify listeners *)
    for_each eventDatas (λ ed,
      run assign ed (set_InviteCount inviteCount) then
      run assign ed (set_JoinCount joinCount) then
      notifyListeners ed userIDs "" forceInitial "").

(** [func (d *Dispatcher) OnEphemeralEvent(ctx, roomID string,
    ephEvent json.RawMessage)] *)
Definition OnEphemeralEvent (roomID : string) (ephEvent : RawMessage)
  : M unit :=
  let* '(notifyUserIDs, _) := audience roomID in
  (* global listeners *)
  let* listener := ReceiverForUser DispatcherAllUsers in
  run match listener with
      | Some l =>
          invoke DispatcherAllUsers l (OnEphemeralEvent_cb roomID ephEvent)
      | None => ret tt
      end then
  for_each notifyUserIDs (λ userID,
    let* l := ReceiverForUser userID in
    match l with
    | None => ret tt
    | Some l => invoke userID l (OnEphemeralEvent_cb roomID ephEvent)
    end).

(** [func (d *Dispatcher) OnReceipt(ctx, receipt internal.Receipt)] *)
Definition OnReceipt (receipt : Receipt) : M unit :=
  let* '(notifyUserIDs, _) := audience (receipt_RoomID receipt) in
  (* global listeners *)
  let* listener := ReceiverForUser DispatcherAllUsers in
  run match listener with
      | Some l => invoke DispatcherAllUsers l (OnReceipt_cb receipt)
      | None => ret tt
      end then
  for_each notifyUserIDs (λ userID,
    let* l := ReceiverForUser userID in
    match l with
    | None => ret tt
    | Some l => invoke userID l (OnReceipt_cb receipt)
    end).

(** A type assertion of [receiver] to a pointer type, without the comma-ok
    form: a run-time panic unless the interface holds a value of exactly
    that dynamic type; a nil interface holds none. The result is the
    pointer inside, possibly nil. *)
Definition type_assert (ty : DynType) (receiver : option Receiver)
  : M Receiver :=
  match receiver with
  | None => panic "interface conversion: interface is nil"
  | Some r =>
      if decide (recv_type r = ty) then ret r
      else panic "interface conversion: interface holds another type"
  end.

(** [internal.Keys(m)] *)
Definition Keys {V} (m : gmap string V) : list string := (map_to_list m).*1.

(** [func (d *Dispatcher) OnInvalidateRoom(ctx, roomID string,
    joins map[string]*caches.EventData, invites map[string][]json.RawMessage,
    leaves map[string]json.RawMessage)] *)
Definition OnInvalidateRoom (roomID : string) (joins : gmap string nat)
    (invites : gmap string (list RawMessage))
    (leaves : gmap string RawMessage) : M unit :=
  (* First dispatch to the global cache. *)
  let* receiver := ReceiverForUser DispatcherAllUsers in
  let* gc := type_assert GlobalCachePtr receiver in
  match recv_ptr gc with
  | None => log LogError "No receiver for global cache" []
  | Some _ =>
      run invoke DispatcherAllUsers gc (OnInvalidateRoom_cb roomID) then
      (* Reset the joined room tracker. *)
      run jrt_write
            (jrt_ReloadMembershipsForRoom roomID (Keys joins) (Keys invites))
      then
      run for_each (map_to_list leaves) (λ '(userID, leaveEvent),
            let* receiver := ReceiverForUser userID in
            match receiver with
            | None => ret tt
            | Some _ =>
                let* uc := type_assert UserCachePtr receiver in
                match recv_ptr uc with
                | Some _ => invoke userID uc (OnLeftRoom_cb roomID leaveEvent)
                | None => ret tt
                end
            end) then
      run for_each (map_to_list invites) (λ '(userID, inviteState),
            let* receiver := ReceiverForUser userID in
            match receiver with
            | None => ret tt
            | Some _ =>
                let* uc := type_assert UserCachePtr receiver in
                match recv_ptr uc with
                | Some _ => invoke userID uc (OnInvite_cb roomID inviteState)
                | None => ret tt
                end
            end) then
      for_each (map_to_list joins) (λ '(userID, joinData),
        let* receiver := ReceiverForUser userID in
        match receiver with
        | None => ret tt
        | Some r => invoke_OnNewEvent userID r joinData
        end)
  end.

(** *** Vocabulary of the statements *)

Definition mk_call (userID : string) (l : Receiver) (cb : Callback)
  : Invocation :=
  {| inv_user := userID; inv_receiver := l; inv_callback := cb |}.

(** The call to the receiver under the global sentinel, if there is one. *)
Definition global_call (reg : gmap string Receiver) (cb : Callback)
  : list Invocation :=
  match reg !! DispatcherAllUsers with
  | Some l => [mk_call DispatcherAllUsers l cb]
  | None => []
  end.

(** One call with the same callback to each listed user that has a
    receiver. *)
Definition user_calls (reg : gmap string Receiver) (cb : Callback)
    (userIDs : list string) : list Invocation :=
  omap (λ u, (λ l, mk_call u l cb) <$> reg !! u) userIDs.

(** The users [audience] returns in a world. *)
Definition audience_of (w : World) (roomID : string) : list string :=
  (jrt_JoinedUsersForRoom roomID (Some (audience_filter w)) (jrt w)).1.

(** The join count [audience] returns in a world. *)
Definition join_count_of (w : World) (roomID : string) : Z :=
  (jrt_JoinedUsersForRoom roomID (Some (audience_filter w)) (jrt w)).2.

(** The event data an [OnNewEvent] call was handed. *)
Definition delivered (i : Invocation) : option EventData :=
  match inv_callback i with
  | OnNewEvent_cb _ pointee => pointee
  | _ => None
  end.

(** The address an [OnNewEvent] call was handed. *)
Definition delivered_at (i : Invocation) : option nat :=
  match inv_callback i with
  | OnNewEvent_cb ed _ => Some ed
  | _ => None
  end.

(** The calls a run added to the world it started from. *)
Definition fired {A} (m : M A) (w : World) : list Invocation :=
  drop (length (calls w)) (calls (final_world (m w))).

(** What the per-user loop of [notifyListeners] hands to [userID]: a copy
    of the event data, flagged when [userID] is the target and a bootstrap
    is forced. *)
Definition copy_for (v : EventData) (targetUser : string)
    (shouldForceInitial : bool) (userID : string) : EventData :=
  if bool_decide (targetUser = userID) && shouldForceInitial
  then set_ForceInitial true v else v.

(** The copies the loop allocates, one per listed user with a receiver. *)
Fixpoint copies (reg : gmap string Receiver) (v : EventData)
    (targetUser : string) (shouldForceInitial : bool)
    (userIDs : list string) : list EventData :=
  match userIDs with
  | [] => []
  | u :: us =>
      match reg !! u with
      | Some _ =>
          copy_for v targetUser shouldForceInitial u
          :: copies reg v targetUser shouldForceInitial us
      | None => copies reg v targetUser shouldForceInitial us
      end
  end.

(** The calls the loop makes; the copies sit at consecutive addresses from
    [base] on. *)
Fixpoint copy_calls (reg : gmap string Receiver) (v : EventData)
    (targetUser : string) (shouldForceInitial : bool) (base : nat)
    (userIDs : list string) : list Invocation :=
  match userIDs with
  | [] => []
  | u :: us =>
      match reg !! u with
      | Some l =>
          mk_call u l (OnNewEvent_cb base
                         (Some (copy_for v targetUser shouldForceInitial u)))
          :: copy_calls reg v targetUser shouldForceInitial (S base) us
      | None => copy_calls reg v targetUser shouldForceInitial base us
      end
  end.

(** Whether the loop met the target among the users with a receiver. *)
Definition notified_in (reg : gmap string Receiver) (targetUser : string)
    (userIDs : list string) : bool :=
  existsb (λ u, bool_decide (targetUser = u)
                && bool_decide (is_Some (reg !! u))) userIDs.

(** Whether [notifyListeners] reaches its fallback delivery. *)
Definition fallback_taken (reg : gmap string Receiver) (userIDs : list string)
    (targetUser membership : string) : bool :=
  bool_decide (targetUser ≠ "") && negb (notified_in reg targetUser userIDs)
  && bool_decide (membership ≠ "invite").

(** The calls of the fallback delivery. *)
Definition fallback_calls (reg : gmap string Receiver) (ed : nat)
    (v : EventData) (userIDs : list string) (targetUser : string)
    (shouldForceInitial : bool) (membership : string) : list Invocation :=
  if fallback_taken reg userIDs targetUser membership then
    match reg !! targetUser with
    | Some l =>
        [mk_call targetUser l
           (OnNewEvent_cb ed
              (Some (if shouldForceInitial
                     then set_ForceInitial true v else v)))]
    | None => []
    end
  else [].

(** All calls of one [notifyListeners]. *)
Definition notify_calls (reg : gmap string Receiver) (ed : nat)
    (v : EventData) (base : nat) (userIDs : list string)
    (targetUser : string) (shouldForceInitial : bool) (membership : string)
  : list Invocation :=
  global_call reg (OnNewEvent_cb ed (Some v))
  ++ copy_calls reg v targetUser shouldForceInitial base userIDs
  ++ fallback_calls reg ed v userIDs targetUser shouldForceInitial membership.

(** The memory one [notifyListeners] leaves. *)
Definition notify_heap (reg : gmap string Receiver) (ed : nat)
    (v : EventData) (h : list EventData) (userIDs : list string)
    (targetUser : string) (shouldForceInitial : bool) (membership : string)
  : list EventData :=
  let h' := h ++ copies reg v targetUser shouldForceInitial userIDs in
  if fallback_taken reg userIDs targetUser membership && shouldForceInitial
  then <[ed := set_ForceInitial true v]> h' else h'.

(** The line [notifyListeners] traces. *)
Definition notify_log (v : EventData) (userIDs : list string) : LogEntry :=
  {| log_level := LogTrace;
     log_msg := "%s: notify %d users (nid=%d,join_count=%d)";
     log_fields := [("room", LogStr (RoomID v));
                    ("users", LogInt (Z.of_nat (length userIDs)));
                    ("nid", LogInt (NID v));
                    ("join_count", LogInt (JoinCount v))] |}.

(** The user a membership event is about: [OnNewEvent] reads one from an
    [m.room.member] event that has a state key. *)
Definition member_target (event : RawMessage) : option string :=
  match json_state_key event with
  | Some stateKey =>
      if bool_decide (json_type event = "m.room.member")
      then Some stateKey else None
  | None => None
  end.

(** [targetUser] and [membership] as [OnNewEvent] passes them on. *)
Definition event_target (event : RawMessage) : string :=
  default "" (member_target event).

Definition event_membership (event : RawMessage) : string :=
  match member_target event with
  | Some _ => default "" (json_content event !! "membership")
  | None => ""
  end.

(** What [OnNewEvent] does to the tracker, with [shouldForceInitial]. *)
Definition track_event (roomID : string) (event : RawMessage)
    (t : JoinedRoomsTracker) : bool * JoinedRoomsTracker :=
  match member_target event with
  | Some targetUser =>
      let membership := event_membership event in
      if bool_decide (membership = "invite") then
        (false, jrt_UsersInvitedToRoom [targetUser] roomID t)
      else if bool_decide (membership = "join") then
        jrt_UserJoinedRoom targetUser roomID t
      else if bool_decide (membership = "ban")
              || bool_decide (membership = "leave") then
        (false, jrt_UserLeftRoom targetUser roomID t)
      else (false, t)
  | None => (false, t)
  end.

(** The event data [OnNewEvent] dispatches, given the world after the
    tracker update. *)
Definition dispatched_value (roomID : string) (event : RawMessage) (nid : Z)
    (w1 : World) : EventData :=
  let v0 := NewEventData_value event roomID nid in
  let v1 := match member_target event with
            | Some _ =>
                set_InviteCount
                  (jrt_NumInvitedUsersForRoom roomID (jrt w1)) v0
            | None => v0
            end in
  set_JoinCount (join_count_of w1 roomID) v1.

(** The world [OnNewEvent] dispatches from: the tracker is updated. *)
Definition tracked (roomID : string) (event : RawMessage) (w : World) : World :=
  with_jrt (track_event roomID event (jrt w)).2 w.

(** The calls of one [OnNewEvent]. *)
Definition OnNewEvent_calls (roomID : string) (event : RawMessage) (nid : Z)
    (w : World) : list Invocation :=
  let w1 := tracked roomID event w in
  notify_calls (userToReceiver w) (length (heap w))
    (dispatched_value roomID event nid w1) (S (length (heap w)))
    (audience_of w1 roomID) (event_target event)
    (track_event roomID event (jrt w)).1 (event_membership event).

(** The world one [OnNewEvent] leaves. *)
Definition OnNewEvent_world (roomID : string) (event : RawMessage) (nid : Z)
    (w : World) : World :=
  let w1 := tracked roomID event w in
  let v := dispatched_value roomID event nid w1 in
  {| jrt := jrt w1;
     userToReceiver := userToReceiver w;
     heap := notify_heap (userToReceiver w) (length (heap w)) v
               (heap w ++ [v]) (audience_of w1 roomID) (event_target event)
               (track_event roomID event (jrt w)).1 (event_membership event);
     calls := calls w ++ OnNewEvent_calls roomID event nid w;
     logs := logs w ++ [notify_log v (audience_of w1 roomID)] |}.

(** The calls made under a given registry key. *)
Definition calls_to (userID : string) (tr : list Invocation)
  : list Invocation :=
  filter (λ i, inv_user i = userID) tr.

(** The users an initial state block joins and invites: the state keys of
    its membership events with membership "join" and "invite". *)
Definition state_users (membership : string) (state : list RawMessage)
  : list string :=
  omap (λ event,
          match member_target event with
          | Some u =>
              if bool_decide (event_membership event = membership)
              then Some u else None
          | None => None
          end) state.

(** The tracker after the bulk update of [OnNewInitialRoomState]. *)
Definition bulk_tracker (roomID : string) (state : list RawMessage)
    (t : JoinedRoomsTracker) : JoinedRoomsTracker :=
  jrt_UsersInvitedToRoom (state_users "invite" state) roomID
    (jrt_UsersJoinedRoom (state_users "join" state) roomID t).2.

(** The warning of the degraded path. *)
Definition degrade_log (roomID : string) (jc : Z) (state : list RawMessage)
  : LogEntry :=
  {| log_level := LogWarn;
     log_msg := "OnNewInitialRoomState but have entries in JoinedRoomsTracker already, this should be impossible. Degrading to live events";
     log_fields := [("join_count", LogInt jc); ("room", LogStr roomID);
                    ("num_state", LogInt (Z.of_nat (length state)))] |}.

(** The calls of one dispatched event form a block: every call hands over
    event data of that event, and with a global receiver registered the
    block opens with the call to it. *)
Definition signal_block (reg : gmap string Receiver) (event : RawMessage)
    (block : list Invocation) : Prop :=
  Forall (λ i, ∃ v, delivered i = Some v ∧ Event v = event) block ∧
  match reg !! DispatcherAllUsers with
  | Some g =>
      ∃ p v rest,
        block = mk_call DispatcherAllUsers g (OnNewEvent_cb p (Some v)) :: rest
  | None => True
  end.

(** *** Sample inputs *)

Definition alice : string := "@alice:example.org".

Definition sample_room : string := "!room:example.org".

Definition sample_global : Receiver :=
  {| recv_type := GlobalCachePtr; recv_ptr := Some 0%nat;
     recv_OnRegistered := None |}.

Definition sample_user : Receiver :=
  {| recv_type := UserCachePtr; recv_ptr := Some 1%nat;
     recv_OnRegistered := None |}.

(** A dispatcher with a global receiver and a receiver for one user, and
    nothing tracked yet. *)
Definition sample_world : World :=
  {| jrt := ∅;
     userToReceiver :=
       <[alice := sample_user]>
         (<[DispatcherAllUsers := sample_global]> ∅);
     heap := []; calls := []; logs := [] |}.

Definition member_event (userID membership : string) : RawMessage :=
  {| json_type := "m.room.member"; json_state_key := Some userID;
     json_content := <["membership" := membership]> ∅ |}.

Definition message_event : RawMessage :=
  {| json_type := "m.room.message"; json_state_key := None;
     json_content := <["body" := "hello"]> ∅ |}.

Definition sample_state : list RawMessage :=
  [member_event alice "join"; message_event].

(** An initial state block: Alice joined, Bob invited, one message. *)
Definition sample_initial_state : list RawMessage :=
  [member_event alice "join"; member_event "@bob:example.org" "invite";
   message_event].

(** The sample dispatcher after Alice's join went through [OnNewEvent]. *)
Definition sample_world_joined : World :=
  OnNewEvent_world sample_room (member_event alice "join") 7 sample_world.

Definition sample_receipt : Receipt :=
  {| receipt_RoomID := sample_room; receipt_data := "m.read" |}.

(** *** Vocabulary of the further statements *)

(** A call is well addressed when the receiver called is the one the
    registry holds under the key of the call. *)
Definition well_addressed (reg : gmap string Receiver) (i : Invocation)
  : Prop :=
  reg !! inv_user i = Some (inv_receiver i).



(** The sample dispatcher with a user cache registered where the global
    cache belongs. *)
Definition sample_world_misregistered : World :=
  {| jrt := ∅;
     userToReceiver := <[DispatcherAllUsers := sample_user]> ∅;
     heap := []; calls := []; logs := [] |}.


(** A leave recorded for the global sentinel. *)
Definition sentinel_leaves : gmap string RawMessage :=
  <[DispatcherAllUsers := member_event DispatcherAllUsers "leave"]> ∅.

(** *** Vocabulary of the statement on copies *)

(** Whether [notifyListeners] goes on to its fallback delivery, given the
    users its loop has called:
    [targetUser != "" && !notifiedTarget] and [membership != "invite"]. *)
Definition fallback_after (reached : list string)
    (targetUser membership : string) : bool :=
  bool_decide (targetUser ≠ "") && bool_decide (targetUser ∉ reached)
  && bool_decide (membership ≠ "invite").

(** The calls of one [notifyListeners] on the event data at [ed], which
    holds [v], with [base] the first free address. The global receiver,
    if any, is handed [ed] itself. The loop calls every listed user that
    holds a receiver, in order, each on a copy of its own at the next free
    address; the copy is flagged when the user is the target and a
    bootstrap is forced. The fallback, when taken, hands [ed] itself to
    the target's receiver, flagged when a bootstrap is forced. *)
Definition notifies (reg : gmap string Receiver) (base ed : nat)
    (v : EventData) (userIDs : list string) (targetUser : string)
    (force : bool) (membership : string) (tr : list Invocation) : Prop :=
  ∃ loop : list Invocation,
    tr = global_call reg (OnNewEvent_cb ed (Some v)) ++ loop
         ++ (if fallback_after (inv_user <$> loop) targetUser membership then
               match reg !! targetUser with
               | Some l =>
                   [mk_call targetUser l
                      (OnNewEvent_cb ed
                         (Some (if force then set_ForceInitial true v
                                else v)))]
               | None => []
               end
             else []) ∧
    Forall2 (λ u i, inv_user i = u ∧ reg !! u = Some (inv_receiver i))
            (filter (λ u, is_Some (reg !! u)) userIDs) loop ∧
    delivered_at <$> loop = Some <$> seq base (length loop) ∧
    Forall (λ i, delivered i
                 = Some (if bool_decide (targetUser = inv_user i) && force
                         then set_ForceInitial true v else v)) loop.

Definition bob : string := "@bob:example.org".

End Sync3.

(** * Properties *)

Import Synclive Sync3.

(** ** 64-bit arithmetic *)

Lemma wrap64_id z : int64_range z → wrap64 z = z.
Proof.
  unfold int64_range, wrap64. intros Hz.
  rewrite Z.mod_small by lia. lia.
Qed.

Lemma wrap64_range z : int64_range (wrap64 z).
Proof.
  unfold int64_range, wrap64.
  pose proof (Z.mod_pos_bound (z + 2 ^ 63) (2 ^ 64) ltac:(lia)). lia.
Qed.

(** ** Range diffing *)

Section delta.
Implicit Types (m : gmap (Z * Z) bool) (xs ks : list (Z * Z)) (k : Z * Z).

Lemma mark_fold_lookup xs m k :
  foldl (λ (m : gmap (Z * Z) bool) x, <[x := true]> m) m xs !! k
  = if bool_decide (k ∈ xs) then Some true else m !! k.
Proof.
  revert m. induction xs as [|x xs IH]; intros m; cbn [foldl].
  - case_bool_decide as Hin; [by apply elem_of_nil in Hin | done].
  - rewrite IH. rewrite (lookup_insert m x k true).
    repeat case_bool_decide; repeat case_decide; subst; try done.
    all: rewrite elem_of_cons in *; intuition congruence.
Qed.

Lemma map_get_mark_all xs k : map_get (mark_all xs) k = bool_decide (k ∈ xs).
Proof.
  unfold map_get, mark_all. rewrite mark_fold_lookup, lookup_empty.
  by case_bool_decide.
Qed.

Lemma range_keys_mark_all xs k : k ∈ range_keys (mark_all xs) ↔ k ∈ xs.
Proof.
  unfold range_keys. rewrite list_elem_of_fmap. split.
  - intros [[k' b] [-> Hin]]. apply elem_of_map_to_list in Hin.
    unfold mark_all in Hin. rewrite mark_fold_lookup, lookup_empty in Hin.
    simpl in *. by case_bool_decide.
  - intros Hin. exists (k, true). split; [done |].
    apply elem_of_map_to_list. unfold mark_all.
    rewrite mark_fold_lookup. by rewrite bool_decide_eq_true_2.
Qed.

Lemma range_keys_NoDup m : NoDup (range_keys m).
Proof. apply NoDup_fst_map_to_list. Qed.

(** The first loop of [Delta] is a partition of the old keys. *)
Lemma split_loop (news : gmap (Z * Z) bool) ks same removed :
  foldl (λ '(same, removed) oldStartEnd,
           if map_get news oldStartEnd
           then (same ++ [oldStartEnd], removed)
           else (same, removed ++ [oldStartEnd]))
        (same, removed) ks
  = (same ++ filter (λ k, map_get news k = true) ks,
     removed ++ filter (λ k, map_get news k ≠ true) ks).
Proof.
  revert same removed. induction ks as [|k ks IH]; intros same removed; simpl.
  - by rewrite !app_nil_r.
  - destruct (map_get news k) eqn:Hk; rewrite IH.
    + rewrite filter_cons_True, filter_cons_False by congruence.
      by rewrite <- app_assoc.
    + rewrite filter_cons_False, filter_cons_True by congruence.
      by rewrite <- app_assoc.
Qed.

(** The second loop keeps the new keys that are not old. *)
Lemma added_loop (olds : gmap (Z * Z) bool) ks added :
  foldl (λ added newStartEnd,
           if map_get olds newStartEnd then added
           else added ++ [newStartEnd])
        added ks
  = added ++ filter (λ k, map_get olds k ≠ true) ks.
Proof.
  revert added. induction ks as [|k ks IH]; intros added; simpl.
  - by rewrite app_nil_r.
  - destruct (map_get olds k) eqn:Hk; rewrite IH.
    + by rewrite filter_cons_False by congruence.
    + rewrite filter_cons_True by congruence. by rewrite <- app_assoc.
Qed.

Lemma Delta_unfold A B :
  Delta A B =
    (filter (λ k, map_get (mark_all A) k ≠ true) (range_keys (mark_all B)),
     filter (λ k, map_get (mark_all B) k ≠ true) (range_keys (mark_all A)),
     filter (λ k, map_get (mark_all B) k = true) (range_keys (mark_all A))).
Proof. unfold Delta. by rewrite split_loop, added_loop. Qed.

Lemma Delta_added A B k : k ∈ (Delta A B).1.1 ↔ k ∈ B ∧ k ∉ A.
Proof.
  rewrite Delta_unfold. simpl.
  rewrite list_elem_of_filter, range_keys_mark_all, map_get_mark_all.
  case_bool_decide; intuition congruence.
Qed.

Lemma Delta_removed A B k : k ∈ (Delta A B).1.2 ↔ k ∈ A ∧ k ∉ B.
Proof.
  rewrite Delta_unfold. simpl.
  rewrite list_elem_of_filter, range_keys_mark_all, map_get_mark_all.
  case_bool_decide; intuition congruence.
Qed.

Lemma Delta_same A B k : k ∈ (Delta A B).2 ↔ k ∈ A ∧ k ∈ B.
Proof.
  rewrite Delta_unfold. simpl.
  rewrite list_elem_of_filter, range_keys_mark_all, map_get_mark_all.
  case_bool_decide; intuition congruence.
Qed.

Lemma Delta_NoDup A B :
  NoDup (Delta A B).1.1 ∧ NoDup (Delta A B).1.2 ∧ NoDup (Delta A B).2.
Proof.
  rewrite Delta_unfold. simpl.
  split_and!; apply NoDup_filter, range_keys_NoDup.
Qed.
End delta.

(** C3. [Delta] reads both collections as sets of distinct pairs: each
    output lists every pair once, [same] is the intersection, [removed]
    the pairs only in the receiver, [added] the pairs only in the
    argument; hence added ∪ same = B, removed ∪ same = A and
    added ∩ removed = ∅. *)
Theorem Delta_set_semantics (A B : list (Z * Z)) :
  let added : gset (Z * Z) := list_to_set (Delta A B).1.1 in
  let removed : gset (Z * Z) := list_to_set (Delta A B).1.2 in
  let same : gset (Z * Z) := list_to_set (Delta A B).2 in
  let setA : gset (Z * Z) := list_to_set A in
  let setB : gset (Z * Z) := list_to_set B in
  (NoDup (Delta A B).1.1 ∧ NoDup (Delta A B).1.2 ∧ NoDup (Delta A B).2) ∧
  same = setA ∩ setB ∧ removed = setA ∖ setB ∧ added = setB ∖ setA ∧
  added ∪ same = setB ∧ removed ∪ same = setA ∧ added ∩ removed = ∅.
Proof.
  intros added removed same setA setB.
  assert (Hs : same = setA ∩ setB).
  { apply set_eq. intros k. subst same setA setB.
    rewrite elem_of_intersection, !elem_of_list_to_set. apply Delta_same. }
  assert (Hr : removed = setA ∖ setB).
  { apply set_eq. intros k. subst removed setA setB.
    rewrite elem_of_difference, !elem_of_list_to_set. apply Delta_removed. }
  assert (Ha : added = setB ∖ setA).
  { apply set_eq. intros k. subst added setA setB.
    rewrite elem_of_difference, !elem_of_list_to_set. apply Delta_added. }
  split; [apply Delta_NoDup |].
  split_and!; try done; rewrite ?Hs, ?Hr, ?Ha; apply set_eq; intros k;
    rewrite ?elem_of_union, ?elem_of_intersection, ?elem_of_difference,
      ?elem_of_empty;
    destruct (decide (k ∈ setA)), (decide (k ∈ setB)); tauto.
Qed.

(** ** Window slicing *)

(** [SliceInto] walks the ranges in input order and hands [Subslice] the
    capped bounds of each. *)
Lemma SliceInto_in_order `{Subslicer T} (r : list (Z * Z)) (slice : T) :
  SliceInto r slice
  = mapM (λ sr, Subslice slice (subslice_args (Len slice) sr).1
                               (subslice_args (Len slice) sr).2) r.
Proof.
  induction r as [|sr r IH]; [done |].
  cbn [SliceInto mapM]. rewrite <- IH.
  destruct (subslice_args (Len slice) sr) as [i j]. simpl.
  destruct (Subslice slice i j); [| done].
  simpl. by destruct (SliceInto r slice).
Qed.

(** On a non-empty sequence the caps are [min _ (len - 1)], so no bound is
    ever moved below 0. *)
Lemma subslice_args_nonempty (sliceLen s e : Z) :
  1 ≤ sliceLen → int64_range sliceLen → int64_range e →
  subslice_args sliceLen (s, e)
  = (Z.min s (sliceLen - 1), Z.min e (sliceLen - 1) + 1).
Proof.
  unfold int64_range, subslice_args, cap. intros Hl Hr He. simpl.
  rewrite (wrap64_id (sliceLen - 1)) by (unfold int64_range; lia).
  repeat case_bool_decide; rewrite wrap64_id by (unfold int64_range; lia);
    f_equal; lia.
Qed.

(** On a non-empty Go slice a valid range yields the elements from
    [min start (len-1)] to [min end (len-1)], both included. *)
Lemma SliceInto_step_list {A} (l : list A) (s e : Z) :
  l ≠ [] → Z.of_nat (length l) < 2 ^ 63 → 0 ≤ s ≤ e → e < 2 ^ 63 →
  let s' := Z.min s (Z.of_nat (length l) - 1) in
  let e' := Z.min e (Z.of_nat (length l) - 1) in
  SliceInto [(s, e)] l
  = Some [take (Z.to_nat (e' - s' + 1)) (drop (Z.to_nat s') l)].
Proof.
  intros Hne Hlen Hse He s' e'.
  assert (1 ≤ Z.of_nat (length l)) by (destruct l; [done | simpl; lia]).
  cbn [SliceInto Len list_Subslicer].
  rewrite subslice_args_nonempty by (unfold int64_range; lia).
  fold s' e'. cbn [Subslice list_Subslicer]. unfold go_slice.
  rewrite bool_decide_eq_true_2 by (subst s' e'; lia).
  do 3 f_equal. lia.
Qed.

(** A sequence of length 10 and the range [5, 20]: indices 5 to 9. *)
Example SliceInto_len10_5_20 :
  SliceInto [(5, 20)] [0; 1; 2; 3; 4; 5; 6; 7; 8; 9]
  = Some [[5; 6; 7; 8; 9]].
Proof. reflexivity. Qed.

(** C2. On the empty sequence the cap [sliceLen - 1] is -1: the valid
    range [0, 0] has both bounds moved below 0, [Subslice] is called with
    (-1, 0), and on a Go slice that call panics instead of yielding a
    slice. *)
Theorem SliceInto_empty_sequence_caps_below_zero :
  Valid [(0, 0)] = true ∧
  cap (Len (@nil Z)) 0 = -1 ∧
  subslice_args (Len (@nil Z)) (0, 0) = (-1, 0) ∧
  SliceInto [(0, 0)] (@nil Z) = None.
Proof. by vm_compute. Qed.

(** ** Registration *)

Local Open Scope string_scope.
Local Open Scope list_scope.


(** ** Invalidation *)

(** C1. With nothing registered under the global sentinel,
    [OnInvalidateRoom] does not log and return: the unchecked type
    assertion on the nil interface panics. The panic leaves the world as
    it was (same tracker, no callback fired, nothing logged). *)
Theorem OnInvalidateRoom_no_global_receiver_panics
    (w : World) (roomID : string) (joins : gmap string nat)
    (invites : gmap string (list RawMessage))
    (leaves : gmap string RawMessage) :
  userToReceiver w !! DispatcherAllUsers = None →
  OnInvalidateRoom roomID joins invites leaves w
  = Panicked "interface conversion: interface is nil" w.
Proof.
  intros Hnone.
  unfold OnInvalidateRoom, bind, ReceiverForUser, gets.
  by rewrite Hnone.
Qed.

Lemma OnInvalidateRoom_no_global_receiver_panics_witness :
  userToReceiver NewDispatcher !! DispatcherAllUsers = None ∧
  OnInvalidateRoom "!room:example.org" ∅ ∅ ∅ NewDispatcher
  = Panicked "interface conversion: interface is nil" NewDispatcher.
Proof.
  split; [reflexivity |].
  apply (OnInvalidateRoom_no_global_receiver_panics NewDispatcher).
  reflexivity.
Defined.

(** The branch that logs and returns is taken only by a registered global
    receiver that holds a nil pointer; it leaves tracker and callbacks
    alone. *)
Lemma OnInvalidateRoom_nil_global_cache
    (w : World) (roomID : string) (joins : gmap string nat)
    (invites : gmap string (list RawMessage))
    (leaves : gmap string RawMessage) (gc : Receiver) :
  userToReceiver w !! DispatcherAllUsers = Some gc →
  recv_type gc = GlobalCachePtr → recv_ptr gc = None →
  ∃ w', OnInvalidateRoom roomID joins invites leaves w = Returned tt w' ∧
        jrt w' = jrt w ∧ calls w' = calls w ∧
        logs w' = logs w ++ [{| log_level := LogError;
                                log_msg := "No receiver for global cache";
                                log_fields := [] |}].
Proof.
  intros Hreg Hty Hptr.
  unfold OnInvalidateRoom, bind, ReceiverForUser, gets, type_assert.
  rewrite Hreg. rewrite decide_True by done. unfold ret. rewrite Hptr.
  eexists. split; [reflexivity |]. done.
Qed.

(** ** The audience *)

Lemma users_in_state_elem (st : Membership) (t : gmap string (gmap string Membership))
    (roomID u : string) :
  u ∈ users_in_state st t roomID ↔ room_members t roomID !! u = Some st.
Proof.
  unfold users_in_state. rewrite list_elem_of_fmap. split.
  - intros [[u' st'] [-> Hin]]. apply list_elem_of_filter in Hin as [Hst Hin].
    apply elem_of_map_to_list in Hin. simpl in *. by subst.
  - intros Hl. exists (u, st). split; [done |].
    apply list_elem_of_filter. split; [done |]. by apply elem_of_map_to_list.
Qed.

Lemma users_in_state_NoDup (st : Membership) (t : gmap string (gmap string Membership))
    (roomID : string) :
  NoDup (users_in_state st t roomID).
Proof.
  unfold users_in_state. apply NoDup_fmap_fst.
  - intros u x y Hx Hy.
    apply list_elem_of_filter in Hx as [_ Hx], Hy as [_ Hy].
    apply elem_of_map_to_list in Hx, Hy. congruence.
  - apply NoDup_filter, NoDup_map_to_list.
Qed.

Lemma joined_iff (t : gmap string (gmap string Membership)) (roomID u : string) :
  u ∈ users_in_state Joined t roomID ↔ membership_of t u roomID = Joined.
Proof.
  rewrite users_in_state_elem. unfold membership_of.
  destruct (room_members t roomID !! u) as [st|]; simpl; naive_solver.
Qed.

(** Who is in the audience: the joined users of the room that have a
    receiver, the global sentinel left out. *)
Lemma audience_of_elem (w : World) (roomID u : string) :
  u ∈ audience_of w roomID ↔
  membership_of (jrt w) u roomID = Joined ∧ u ≠ DispatcherAllUsers ∧
  is_Some (userToReceiver w !! u).
Proof.
  unfold audience_of, jrt_JoinedUsersForRoom. simpl.
  rewrite list_elem_of_filter, joined_iff. unfold audience_filter.
  case_bool_decide; destruct (userToReceiver w !! u); simpl;
    rewrite ?is_Some_alt; intuition congruence.
Qed.

Lemma audience_of_NoDup (w : World) (roomID : string) :
  NoDup (audience_of w roomID).
Proof. apply NoDup_filter, users_in_state_NoDup. Qed.

Lemma audience_of_no_sentinel (w : World) (roomID : string) :
  DispatcherAllUsers ∉ audience_of w roomID.
Proof. rewrite audience_of_elem. tauto. Qed.

Lemma audience_eq (roomID : string) (w : World) :
  audience roomID w = Returned (audience_of w roomID, join_count_of w roomID) w.
Proof.
  unfold audience, gets, audience_of, join_count_of.
  by destruct (jrt_JoinedUsersForRoom _ _ _).
Qed.

(** Everyone in the audience is called, once, in audience order. *)
Lemma user_calls_audience (w : World) (roomID : string) (cb : Callback) :
  inv_user <$> user_calls (userToReceiver w) cb (audience_of w roomID)
  = audience_of w roomID.
Proof.
  assert (Hall : ∀ u, u ∈ audience_of w roomID →
                      is_Some (userToReceiver w !! u)).
  { intros u Hu. apply audience_of_elem in Hu. tauto. }
  induction (audience_of w roomID) as [|u us IH]; [done |].
  unfold user_calls in *. cbn [omap list_omap].
  destruct (Hall u) as [l Hl]; [by left |]. rewrite Hl. cbn.
  f_equal. apply IH. intros u' Hu'. apply Hall. by right.
Qed.

(** ** Running the monad one step at a time *)

Section steps.
Context {A B : Type}.
Implicit Types (k : A → M B) (w : World).

Lemma run_ret (a : A) k w : bind (ret a) k w = k a w.
Proof. reflexivity. Qed.

Lemma run_gets (f : World → A) k w : bind (gets f) k w = k (f w) w.
Proof. reflexivity. Qed.

Lemma run_panic (msg : string) k w : bind (panic msg) k w = Panicked msg w.
Proof. reflexivity. Qed.

Lemma run_jrt_read (f : gmap string (gmap string Membership) → A) k w :
  bind (jrt_read f) k w = k (f (jrt w)) w.
Proof. reflexivity. Qed.

Lemma run_jrt_call (f : gmap string (gmap string Membership)
                        → A * gmap string (gmap string Membership)) k w :
  bind (jrt_call f) k w = k (f (jrt w)).1 (with_jrt (f (jrt w)).2 w).
Proof. unfold bind, jrt_call. by destruct (f (jrt w)). Qed.

Lemma run_assoc {C} (m : M C) (h : C → M A) k w :
  bind (bind m h) k w = bind m (λ c, bind (h c) k) w.
Proof. unfold bind. by destruct (m w). Qed.
End steps.

Section steps_unit.
Context {B : Type}.
Implicit Types (k : unit → M B) (w : World).

Lemma run_modify (f : World → World) k w : bind (modify f) k w = k tt (f w).
Proof. reflexivity. Qed.

Lemma run_jrt_write f k w :
  bind (jrt_write f) k w = k tt (with_jrt (f (jrt w)) w).
Proof. reflexivity. Qed.

Lemma run_invoke (u : string) (l : Receiver) (cb : Callback) k w :
  bind (invoke u l cb) k w
  = k tt (with_calls (calls w ++ [mk_call u l cb]) w).
Proof. reflexivity. Qed.

Lemma run_invoke_OnNewEvent (u : string) (l : Receiver) (ed : nat) k w :
  bind (invoke_OnNewEvent u l ed) k w
  = k tt (with_calls
            (calls w ++ [mk_call u l (OnNewEvent_cb ed (heap w !! ed))]) w).
Proof. reflexivity. Qed.

Lemma run_log (lvl : LogLevel) (msg : string) fields k w :
  bind (log lvl msg fields) k w
  = k tt (with_logs (logs w ++ [{| log_level := lvl; log_msg := msg;
                                   log_fields := fields |}]) w).
Proof. reflexivity. Qed.

Lemma run_assign (ed : nat) (f : EventData → EventData) (v : EventData) k w :
  heap w !! ed = Some v →
  bind (assign ed f) k w = k tt (with_heap (<[ed := f v]> (heap w)) w).
Proof. intros Hv. unfold assign, bind, deref, modify. by rewrite Hv. Qed.
End steps_unit.

Lemma run_ReceiverForUser {B} (u : string) (k : option Receiver → M B) (w : World) :
  bind (ReceiverForUser u) k w = k (userToReceiver w !! u) w.
Proof. reflexivity. Qed.

Lemma run_audience {B} (roomID : string) (k : list string * Z → M B) (w : World) :
  bind (audience roomID) k w
  = k (audience_of w roomID, join_count_of w roomID) w.
Proof. unfold bind. by rewrite audience_eq. Qed.

Lemma run_alloc {B} (v : EventData) (k : nat → M B) (w : World) :
  bind (alloc v) k w = k (length (heap w)) (with_heap (heap w ++ [v]) w).
Proof. reflexivity. Qed.

Lemma run_deref {B} (ed : nat) (v : EventData) (k : EventData → M B) (w : World) :
  heap w !! ed = Some v → bind (deref ed) k w = k v w.
Proof. intros Hv. unfold bind, deref. by rewrite Hv. Qed.

Lemma with_calls_same (w : World) : with_calls (calls w) w = w.
Proof. by destruct w. Qed.

(** ** Ephemeral events and receipts *)

(** The loop shared by [OnEphemeralEvent] and [OnReceipt]. *)
Lemma poke_loop (cb : Callback) (userIDs : list string) (w : World) :
  for_each userIDs (λ userID,
    let* l := ReceiverForUser userID in
    match l with
    | None => ret tt
    | Some l => invoke userID l cb
    end) w
  = Returned tt
      (with_calls (calls w ++ user_calls (userToReceiver w) cb userIDs) w).
Proof.
  revert w. induction userIDs as [|u us IH]; intros w.
  - unfold user_calls; cbn. by rewrite app_nil_r, with_calls_same.
  - cbn [for_each]. rewrite run_assoc, run_ReceiverForUser.
    unfold user_calls. cbn [omap list_omap].
    destruct (userToReceiver w !! u) as [l|] eqn:Hl; cbn [fmap option_fmap option_map].
    + rewrite run_invoke, IH. cbn. unfold user_calls.
      by rewrite <- app_assoc.
    + by rewrite run_ret, IH.
Qed.

Lemma OnEphemeralEvent_eq (roomID : string) (ephEvent : RawMessage) (w : World) :
  OnEphemeralEvent roomID ephEvent w
  = Returned tt
      (with_calls
         (calls w
          ++ global_call (userToReceiver w) (OnEphemeralEvent_cb roomID ephEvent)
          ++ user_calls (userToReceiver w) (OnEphemeralEvent_cb roomID ephEvent)
               (audience_of w roomID)) w).
Proof.
  unfold OnEphemeralEvent. rewrite run_audience, run_ReceiverForUser.
  unfold global_call.
  destruct (userToReceiver w !! DispatcherAllUsers) as [g|].
  - rewrite run_invoke, poke_loop. cbn. by rewrite <- app_assoc.
  - by rewrite run_ret, poke_loop.
Qed.

Lemma OnReceipt_eq (receipt : Receipt) (w : World) :
  OnReceipt receipt w
  = Returned tt
      (with_calls
         (calls w
          ++ global_call (userToReceiver w) (OnReceipt_cb receipt)
          ++ user_calls (userToReceiver w) (OnReceipt_cb receipt)
               (audience_of w (receipt_RoomID receipt))) w).
Proof.
  unfold OnReceipt. rewrite run_audience, run_ReceiverForUser.
  unfold global_call.
  destruct (userToReceiver w !! DispatcherAllUsers) as [g|].
  - rewrite run_invoke, poke_loop. cbn. by rewrite <- app_assoc.
  - by rewrite run_ret, poke_loop.
Qed.

(** C9. [OnEphemeralEvent] and [OnReceipt] return with the tracker (and
    the registry) exactly as they found it; what they add is the call to
    the global receiver, if any, followed by one call to each member of
    the audience, and a user is in the audience exactly when joined to
    the room, holding a receiver, and not the global sentinel. *)
Theorem ephemeral_and_receipt_do_not_touch_membership
    (w : World) (roomID : string) (ephEvent : RawMessage) (receipt : Receipt) :
  (∃ w',
     OnEphemeralEvent roomID ephEvent w = Returned tt w' ∧
     jrt w' = jrt w ∧ userToReceiver w' = userToReceiver w ∧
     ∃ per_user,
       calls w' = calls w
                  ++ global_call (userToReceiver w)
                       (OnEphemeralEvent_cb roomID ephEvent)
                  ++ per_user ∧
       inv_user <$> per_user = audience_of w roomID ∧
       Forall (λ i, inv_callback i = OnEphemeralEvent_cb roomID ephEvent ∧
                    userToReceiver w !! inv_user i = Some (inv_receiver i))
              per_user) ∧
  (∃ w',
     OnReceipt receipt w = Returned tt w' ∧
     jrt w' = jrt w ∧ userToReceiver w' = userToReceiver w ∧
     ∃ per_user,
       calls w' = calls w
                  ++ global_call (userToReceiver w) (OnReceipt_cb receipt)
                  ++ per_user ∧
       inv_user <$> per_user = audience_of w (receipt_RoomID receipt) ∧
       Forall (λ i, inv_callback i = OnReceipt_cb receipt ∧
                    userToReceiver w !! inv_user i = Some (inv_receiver i))
              per_user) ∧
  (∀ room u,
     u ∈ audience_of w room ↔
     membership_of (jrt w) u room = Joined ∧ u ≠ DispatcherAllUsers ∧
     is_Some (userToReceiver w !! u)).
Proof.
  assert (Hcalls : ∀ cb us,
    Forall (λ i, inv_callback i = cb ∧
                 userToReceiver w !! inv_user i = Some (inv_receiver i))
           (user_calls (userToReceiver w) cb us)).
  { intros cb us. apply Forall_forall. intros i Hi.
    unfold user_calls in Hi. apply list_elem_of_omap in Hi as (u & _ & Hu).
    destruct (userToReceiver w !! u) as [l|] eqn:Hl; [| done].
    simpl in Hu. by simplify_eq. }
  split_and!.
  - eexists. split; [apply OnEphemeralEvent_eq |]. split_and!; [done.. |].
    eexists. split_and!; [done | apply user_calls_audience | apply Hcalls].
  - eexists. split; [apply OnReceipt_eq |]. split_and!; [done.. |].
    eexists. split_and!; [done | apply user_calls_audience | apply Hcalls].
  - intros room u. apply audience_of_elem.
Qed.

(** ** Notifying listeners *)

Lemma lookup_snoc_last {X} (h : list X) (x : X) : (h ++ [x]) !! length h = Some x.
Proof. by rewrite list_lookup_middle. Qed.

Lemma insert_snoc_last {X} (h : list X) (x y : X) :
  <[length h := y]> (h ++ [x]) = h ++ [y].
Proof.
  replace (length h) with (length h + 0)%nat by lia.
  by rewrite insert_app_r.
Qed.

(** The per-user loop. *)
Lemma notify_loop (ed : nat) (v : EventData) (targetUser : string)
    (shouldForceInitial : bool) (userIDs : list string)
    (notifiedTarget : bool) (w : World) :
  heap w !! ed = Some v →
  fold_each userIDs notifiedTarget (λ notifiedTarget userID,
    let* l := ReceiverForUser userID in
    match l with
    | Some l =>
        let* v := deref ed in
        let* edd := alloc v in
        let* notifiedTarget :=
          if bool_decide (targetUser = userID) then
            run (if shouldForceInitial
                 then assign edd (set_ForceInitial true)
                 else ret tt) then
            ret true
          else ret notifiedTarget in
        run invoke_OnNewEvent userID l edd then
        ret notifiedTarget
    | None => ret notifiedTarget
    end) w
  = Returned
      (notifiedTarget || notified_in (userToReceiver w) targetUser userIDs)
      (with_calls
         (calls w ++ copy_calls (userToReceiver w) v targetUser
                       shouldForceInitial (length (heap w)) userIDs)
         (with_heap
            (heap w ++ copies (userToReceiver w) v targetUser
                         shouldForceInitial userIDs) w)).
Proof.
  revert notifiedTarget w.
  induction userIDs as [|u us IH]; intros nt w Hed.
  - cbn. rewrite !app_nil_r, orb_false_r. by destruct w.
  - cbn [fold_each copies copy_calls notified_in existsb].
    rewrite run_assoc, run_ReceiverForUser.
    destruct (userToReceiver w !! u) as [l|] eqn:Hl.
    + rewrite (bool_decide_eq_true_2 (is_Some _)) by eauto.
      rewrite run_assoc, (run_deref _ v) by done.
      rewrite run_assoc, run_alloc.
      assert (Hed' : ∀ x c, heap (with_calls c (with_heap (heap w ++ [x]) w))
                             !! ed = Some v).
      { intros x c. cbn. rewrite lookup_app_l; [done |].
        by eapply lookup_lt_Some. }
      unfold copy_for.
      destruct (bool_decide (targetUser = u)) eqn:Ht; cbn [andb].
      * destruct shouldForceInitial.
        -- rewrite !run_assoc.
           rewrite (run_assign _ _ v) by apply lookup_snoc_last.
           rewrite run_ret, run_assoc, run_invoke_OnNewEvent, run_ret.
           cbn [heap with_heap calls with_calls userToReceiver jrt logs].
           rewrite insert_snoc_last, lookup_snoc_last.
           rewrite IH by apply Hed'.
           cbn [heap with_heap calls with_calls userToReceiver jrt logs].
           rewrite length_app, Nat.add_1_r, <- !app_assoc, orb_true_r.
           reflexivity.
        -- rewrite !run_assoc, !run_ret, run_assoc, run_invoke_OnNewEvent, run_ret.
           cbn [heap with_heap calls with_calls userToReceiver jrt logs].
           rewrite lookup_snoc_last.
           rewrite IH by apply Hed'.
           cbn [heap with_heap calls with_calls userToReceiver jrt logs].
           rewrite length_app, Nat.add_1_r, <- !app_assoc, orb_true_r.
           reflexivity.
      * rewrite run_assoc, run_ret, run_assoc, run_invoke_OnNewEvent, run_ret.
        cbn [heap with_heap calls with_calls userToReceiver jrt logs].
        rewrite lookup_snoc_last.
        rewrite IH by apply Hed'.
        cbn [heap with_heap calls with_calls userToReceiver jrt logs].
        rewrite length_app, Nat.add_1_r, <- !app_assoc. cbn [orb].
        reflexivity.
    + rewrite (bool_decide_eq_false_2 (is_Some _)) by (by intros [? ?]).
      rewrite run_ret, andb_false_r. cbn [orb]. by rewrite IH.
Qed.

(** [notifyListeners] in closed form: it returns, leaves tracker and
    registry alone, and adds the calls of [notify_calls]. *)
Lemma notifyListeners_eq (ed : nat) (v : EventData) (userIDs : list string)
    (targetUser : string) (shouldForceInitial : bool) (membership : string)
    (w : World) :
  heap w !! ed = Some v →
  notifyListeners ed userIDs targetUser shouldForceInitial membership w
  = Returned tt
      {| jrt := jrt w;
         userToReceiver := userToReceiver w;
         heap := notify_heap (userToReceiver w) ed v (heap w) userIDs
                   targetUser shouldForceInitial membership;
         calls := calls w ++ notify_calls (userToReceiver w) ed v
                               (length (heap w)) userIDs targetUser
                               shouldForceInitial membership;
         logs := logs w ++ [notify_log v userIDs] |}.
Proof.
  intros Hed. unfold notifyListeners.
  rewrite (run_deref _ v) by done. rewrite run_log, run_ReceiverForUser.
  cbn [heap with_heap calls with_calls userToReceiver jrt logs with_logs].
  set (reg := userToReceiver w).
  set (w1 := with_logs _ w).
  assert (Hstep : ∀ c,
    (let w2 := with_calls (calls w ++ c) w1 in
     bind (fold_each userIDs false (λ notifiedTarget userID,
       let* l := ReceiverForUser userID in
       match l with
       | Some l =>
           let* v := deref ed in
           let* edd := alloc v in
           let* notifiedTarget :=
             if bool_decide (targetUser = userID) then
               run (if shouldForceInitial
                    then assign edd (set_ForceInitial true)
                    else ret tt) then
               ret true
             else ret notifiedTarget in
           run invoke_OnNewEvent userID l edd then
           ret notifiedTarget
       | None => ret notifiedTarget
       end))
       (λ notifiedTarget,
          if bool_decide (targetUser ≠ "") && negb notifiedTarget then
            if bool_decide (membership ≠ "invite") then
              run (if shouldForceInitial
                   then assign ed (set_ForceInitial true)
                   else ret tt) then
              let* l := ReceiverForUser targetUser in
              match l with
              | Some l => invoke_OnNewEvent targetUser l ed
              | None => ret tt
              end
            else ret tt
          else ret tt) w2)
    = Returned tt
        {| jrt := jrt w; userToReceiver := reg;
           heap := notify_heap reg ed v (heap w) userIDs
                     targetUser shouldForceInitial membership;
           calls := calls w ++ c
                    ++ copy_calls reg v targetUser shouldForceInitial
                         (length (heap w)) userIDs
                    ++ fallback_calls reg ed v userIDs targetUser
                         shouldForceInitial membership;
           logs := logs w ++ [notify_log v userIDs] |}).
  { intros c. cbv zeta. unfold bind at 1.
    rewrite (notify_loop ed v) by done.
    subst w1.
    cbn [heap with_heap calls with_calls userToReceiver jrt logs with_logs orb].
    fold reg.
    unfold notify_heap, fallback_calls, fallback_taken.
    destruct (bool_decide (targetUser ≠ "")); cbn [andb]; [| by rewrite app_nil_r, app_assoc].
    destruct (notified_in reg targetUser userIDs); cbn [andb negb];
      [by rewrite app_nil_r, app_assoc |].
    destruct (bool_decide (membership ≠ "invite")); cbn [andb];
      [| by rewrite app_nil_r, app_assoc].
    assert (Hlt : (ed < length (heap w))%nat) by (by eapply lookup_lt_Some).
    destruct shouldForceInitial.
    - rewrite (run_assign _ _ v)
        by (cbn; rewrite lookup_app_l; done).
      rewrite run_ReceiverForUser.
      cbn [heap with_heap calls with_calls userToReceiver jrt logs with_logs].
      fold reg. destruct (reg !! targetUser) as [l|].
      + unfold invoke_OnNewEvent. rewrite run_gets.
        cbn [heap with_heap calls with_calls userToReceiver jrt logs with_logs].
        rewrite list_lookup_insert_eq by (rewrite length_app; lia).
        unfold invoke, modify. cbn. by rewrite <- !app_assoc.
      + unfold ret. cbn. by rewrite app_nil_r, <- !app_assoc.
    - rewrite run_ret, run_ReceiverForUser.
      cbn [heap with_heap calls with_calls userToReceiver jrt logs with_logs].
      fold reg. destruct (reg !! targetUser) as [l|].
      + unfold invoke_OnNewEvent. rewrite run_gets.
        cbn [heap with_heap calls with_calls userToReceiver jrt logs with_logs].
        rewrite lookup_app_l by done. rewrite Hed.
        unfold invoke, modify. cbn. by rewrite <- !app_assoc.
      + unfold ret. cbn. by rewrite app_nil_r, <- !app_assoc. }
  unfold notify_calls, global_call. fold reg.
  destruct (reg !! DispatcherAllUsers) as [g|].
  - rewrite run_invoke_OnNewEvent.
    subst w1.
    cbn [heap with_heap calls with_calls userToReceiver jrt logs with_logs].
    rewrite Hed. apply (Hstep [_]).
  - rewrite run_ret. specialize (Hstep []). cbv zeta in Hstep.
    rewrite app_nil_r in Hstep.
    replace (with_calls (calls w) w1) with w1 in Hstep by (by destruct w).
    exact Hstep.
Qed.

(** ** The incremental path *)

Ltac proj :=
  cbn [heap with_heap calls with_calls userToReceiver with_userToReceiver
       jrt with_jrt logs with_logs fst snd].

Ltac step :=
  repeat first
    [ rewrite run_assoc | rewrite run_ret | rewrite run_jrt_write
    | rewrite run_jrt_read | rewrite run_jrt_call | rewrite run_audience
    | rewrite run_alloc | rewrite run_log | rewrite run_ReceiverForUser ];
  cbn [heap with_heap calls with_calls userToReceiver with_userToReceiver
       jrt with_jrt logs with_logs fst snd].


(** [OnNewEvent] allocates the event data, updates the tracker, fills in
    the counts and hands over to [notifyListeners]. *)
Lemma OnNewEvent_eq (roomID : string) (event : RawMessage) (nid : Z) (w : World) :
  let w1 := with_jrt (track_event roomID event (jrt w)).2 w in
  OnNewEvent roomID event nid w
  = notifyListeners (length (heap w)) (audience_of w1 roomID)
      (event_target event) (track_event roomID event (jrt w)).1
      (event_membership event)
      (with_heap (heap w ++ [dispatched_value roomID event nid w1]) w1).
Proof.
  intros w1. subst w1. unfold OnNewEvent, NewEventData.
  rewrite run_alloc, (run_deref _ (NewEventData_value event roomID nid))
    by apply lookup_snoc_last.
  unfold dispatched_value, track_event, event_target, event_membership,
    member_target.
  cbn [StateKey EventType RoomID NewEventData_value Content_Get_Str Content].
  destruct (json_state_key event) as [stateKey|]; cycle 1.
  { step. rewrite (run_assign _ _ (NewEventData_value event roomID nid))
      by apply lookup_snoc_last.
    proj. rewrite insert_snoc_last. reflexivity. }
  destruct (bool_decide (json_type event = "m.room.member")); cycle 1.
  { step. rewrite (run_assign _ _ (NewEventData_value event roomID nid))
      by apply lookup_snoc_last.
    proj. rewrite insert_snoc_last. reflexivity. }
  unfold Content_Get_Str. cbn [Content NewEventData_value].
  set (m := default "" (json_content event !! "membership")).
  destruct (bool_decide (m = "invite")); [| destruct (bool_decide (m = "join"));
    [| destruct (bool_decide (m = "ban") || bool_decide (m = "leave"))]].
  all: step;
    rewrite (run_assign _ _ (NewEventData_value event roomID nid))
      by apply lookup_snoc_last;
    proj; rewrite insert_snoc_last; step;
    rewrite (run_assign _ _ (set_InviteCount _ (NewEventData_value event roomID nid)))
      by apply lookup_snoc_last;
    proj; rewrite insert_snoc_last.
  all: try (unfold jrt_UserJoinedRoom; cbn [fst snd];
            destruct (jrt_IsUserJoined (jrt w) stateKey roomID); cbn [negb]).
  all: reflexivity.
Qed.

(** [OnNewEvent] always returns, and what it leaves is [OnNewEvent_world]. *)
Lemma OnNewEvent_run (roomID : string) (event : RawMessage) (nid : Z) (w : World) :
  OnNewEvent roomID event nid w
  = Returned tt (OnNewEvent_world roomID event nid w).
Proof.
  rewrite OnNewEvent_eq.
  rewrite (notifyListeners_eq _ (dispatched_value roomID event nid
                                   (tracked roomID event w)))
    by apply lookup_snoc_last.
  unfold OnNewEvent_world, OnNewEvent_calls, tracked. proj.
  by rewrite length_app, Nat.add_1_r.
Qed.

(** *** What the per-user loop delivers *)

Lemma copy_calls_users (reg : gmap string Receiver) (v : EventData)
    (targetUser : string) (force : bool) (base : nat) (userIDs : list string) :
  inv_user <$> copy_calls reg v targetUser force base userIDs
  = filter (λ u, is_Some (reg !! u)) userIDs.
Proof.
  revert base. induction userIDs as [|u us IH]; intros base; [done |].
  cbn [copy_calls]. destruct (reg !! u) as [l|] eqn:Hl.
  - rewrite filter_cons_True by (by rewrite Hl). cbn. by rewrite IH.
  - rewrite filter_cons_False by (rewrite Hl; by intros [? ?]). apply IH.
Qed.

Lemma copy_calls_addresses (reg : gmap string Receiver) (v : EventData)
    (targetUser : string) (force : bool) (base : nat) (userIDs : list string) :
  delivered_at <$> copy_calls reg v targetUser force base userIDs
  = Some <$> seq base (length (filter (λ u, is_Some (reg !! u)) userIDs)).
Proof.
  revert base. induction userIDs as [|u us IH]; intros base; [done |].
  cbn [copy_calls]. destruct (reg !! u) as [l|] eqn:Hl.
  - rewrite filter_cons_True by (by rewrite Hl). cbn. by rewrite IH.
  - rewrite filter_cons_False by (rewrite Hl; by intros [? ?]). apply IH.
Qed.

Lemma copy_calls_each (reg : gmap string Receiver) (v : EventData)
    (targetUser : string) (force : bool) (base : nat) (userIDs : list string) :
  Forall (λ i, reg !! inv_user i = Some (inv_receiver i) ∧
               inv_user i ∈ userIDs ∧
               delivered i = Some (copy_for v targetUser force (inv_user i)))
         (copy_calls reg v targetUser force base userIDs).
Proof.
  revert base. induction userIDs as [|u us IH]; intros base; [constructor |].
  cbn [copy_calls]. destruct (reg !! u) as [l|] eqn:Hl.
  - constructor.
    + cbn. split_and!; [done | by left | done].
    + eapply Forall_impl; [apply IH |]. cbn. intros i (? & ? & ?).
      split_and!; [done | by right | done].
  - eapply Forall_impl; [apply IH |]. cbn. intros i (? & ? & ?).
    split_and!; [done | by right | done].
Qed.

Lemma notified_in_true (reg : gmap string Receiver) (targetUser : string)
    (userIDs : list string) :
  notified_in reg targetUser userIDs = true ↔
  targetUser ∈ userIDs ∧ is_Some (reg !! targetUser).
Proof.
  unfold notified_in. rewrite existsb_exists. split.
  - intros (u & Hin & Hu). apply andb_true_iff in Hu as [Ht Hr].
    apply bool_decide_eq_true in Ht, Hr. subst.
    split; [by apply list_elem_of_In | done].
  - intros [Hin Hr]. exists targetUser. split; [by apply list_elem_of_In |].
    by rewrite !bool_decide_eq_true_2.
Qed.

Lemma notified_in_false (reg : gmap string Receiver) (targetUser : string)
    (userIDs : list string) :
  targetUser ∉ userIDs → notified_in reg targetUser userIDs = false.
Proof.
  intros Hnin. apply not_true_is_false. rewrite notified_in_true. tauto.
Qed.

Lemma filter_none {X} (P : X → Prop) `{!∀ x, Decision (P x)} (l : list X) :
  Forall (λ x, ¬ P x) l → filter P l = [].
Proof.
  induction 1 as [|x l Hx _ IH]; [done |].
  by rewrite filter_cons_False.
Qed.

Lemma calls_to_app (u : string) (tr1 tr2 : list Invocation) :
  calls_to u (tr1 ++ tr2) = calls_to u tr1 ++ calls_to u tr2.
Proof. apply filter_app. Qed.

Lemma calls_to_global_call (u : string) (reg : gmap string Receiver) (cb : Callback) :
  u ≠ DispatcherAllUsers → calls_to u (global_call reg cb) = [].
Proof.
  intros Hne. unfold global_call, calls_to.
  destruct (reg !! DispatcherAllUsers); [| done].
  by rewrite filter_cons_False by (cbn; congruence).
Qed.

Lemma calls_to_copy_calls_absent (u : string) (reg : gmap string Receiver)
    (v : EventData) (targetUser : string) (force : bool) (base : nat)
    (userIDs : list string) :
  u ∉ userIDs → calls_to u (copy_calls reg v targetUser force base userIDs) = [].
Proof.
  intros Hnin. unfold calls_to.
  apply filter_none. eapply Forall_impl; [apply copy_calls_each |].
  cbn. intros i (_ & Hin & _) Heq. by rewrite Heq in Hin.
Qed.

(** ** The tracker model *)

Lemma room_members_set (st : Membership) (roomID roomID' : string)
    (t : gmap string (gmap string Membership)) (u : string) :
  room_members (set_membership st roomID t u) roomID'
  = if decide (roomID = roomID') then <[u := st]> (room_members t roomID)
    else room_members t roomID'.
Proof.
  unfold room_members at 1, set_membership.
  rewrite lookup_insert. by case_decide.
Qed.

Lemma membership_of_set (st : Membership) (roomID roomID' : string)
    (t : gmap string (gmap string Membership)) (u u' : string) :
  membership_of (set_membership st roomID t u) u' roomID'
  = if decide (roomID = roomID' ∧ u = u') then st
    else membership_of t u' roomID'.
Proof.
  unfold membership_of. rewrite room_members_set.
  destruct (decide (roomID = roomID')) as [->|Hr].
  - rewrite lookup_insert.
    destruct (decide (u = u')) as [->|Hu].
    + by rewrite decide_True.
    + by rewrite decide_False by tauto.
  - by rewrite decide_False by tauto.
Qed.


(** Moving a user into a state it was not in adds it to that state's
    users. *)
Lemma users_in_state_enter (st : Membership) (roomID : string)
    (t : gmap string (gmap string Membership)) (u : string) :
  room_members t roomID !! u ≠ Some st →
  users_in_state st (set_membership st roomID t u) roomID
  ≡ₚ u :: users_in_state st t roomID.
Proof.
  intros Hnot. apply NoDup_Permutation.
  - apply users_in_state_NoDup.
  - constructor; [| apply users_in_state_NoDup].
    by rewrite users_in_state_elem.
  - intros x. rewrite elem_of_cons, !users_in_state_elem, room_members_set.
    rewrite decide_True by done. rewrite lookup_insert.
    case_decide; intuition congruence.
Qed.

(** Moving a user between two other states leaves a state's users alone. *)
Lemma users_in_state_pass (st st' : Membership) (roomID : string)
    (t : gmap string (gmap string Membership)) (u : string) :
  st ≠ st' → room_members t roomID !! u ≠ Some st' →
  users_in_state st' (set_membership st roomID t u) roomID
  ≡ₚ users_in_state st' t roomID.
Proof.
  intros Hne Hnot. apply NoDup_Permutation; try apply users_in_state_NoDup.
  intros x. rewrite !users_in_state_elem, room_members_set.
  rewrite decide_True by done. rewrite lookup_insert.
  case_decide; naive_solver.
Qed.


(** An invite leaves a joined user as it is and moves any other user to
    the invited state. *)
Lemma record_invite_state (roomID roomID' : string)
    (t : gmap string (gmap string Membership)) (u u' : string) :
  membership_of (record_invite roomID t u) u' roomID'
  = if decide (roomID = roomID' ∧ u = u') then
      if bool_decide (membership_of t u roomID = Joined)
      then Joined else Invited
    else membership_of t u' roomID'.
Proof.
  unfold record_invite. case_bool_decide as Hj.
  - case_decide as Heq; [| done]. destruct Heq as [<- <-]. exact Hj.
  - apply membership_of_set.
Qed.

Lemma membership_of_lookup (t : gmap string (gmap string Membership))
    (roomID u : string) (st : Membership) :
  room_members t roomID !! u = Some st → membership_of t u roomID = st.
Proof. unfold membership_of. by intros ->. Qed.

(** Invites never change who is joined. *)
Lemma invites_keep_joined (roomID roomID' : string) (us : list string)
    (t : gmap string (gmap string Membership)) (u : string) :
  membership_of (jrt_UsersInvitedToRoom us roomID t) u roomID' = Joined
  ↔ membership_of t u roomID' = Joined.
Proof.
  unfold jrt_UsersInvitedToRoom. revert t.
  induction us as [|x xs IH]; intros t; [done |].
  cbn [foldl]. rewrite IH, record_invite_state.
  case_decide as Heq; [| done]. destruct Heq as [<- <-].
  case_bool_decide; intuition congruence.
Qed.

Lemma invites_keep_joined_users (roomID : string) (us : list string)
    (t : gmap string (gmap string Membership)) :
  users_in_state Joined (jrt_UsersInvitedToRoom us roomID t) roomID
  ≡ₚ users_in_state Joined t roomID.
Proof.
  apply NoDup_Permutation; try apply users_in_state_NoDup.
  intros x. rewrite !joined_iff. apply invites_keep_joined.
Qed.

(** An invite of a user that is neither invited nor joined raises the
    invite count by one. *)
Lemma invite_raises_count (roomID : string)
    (t : gmap string (gmap string Membership)) (u : string) :
  membership_of t u roomID ≠ Invited → membership_of t u roomID ≠ Joined →
  jrt_NumInvitedUsersForRoom roomID (jrt_UsersInvitedToRoom [u] roomID t)
  = jrt_NumInvitedUsersForRoom roomID t + 1.
Proof.
  intros Hni Hnj. unfold jrt_NumInvitedUsersForRoom, jrt_UsersInvitedToRoom.
  cbn [foldl]. unfold record_invite. rewrite bool_decide_eq_false_2 by done.
  rewrite users_in_state_enter; [cbn [length]; lia |].
  intros Hl. by apply Hni, membership_of_lookup.
Qed.

Lemma leave_keeps_invite_count (roomID : string)
    (t : gmap string (gmap string Membership)) (u : string) :
  room_members t roomID !! u ≠ Some Invited →
  jrt_NumInvitedUsersForRoom roomID (jrt_UserLeftRoom u roomID t)
  = jrt_NumInvitedUsersForRoom roomID t.
Proof.
  intros Hnot. unfold jrt_NumInvitedUsersForRoom, jrt_UserLeftRoom.
  by rewrite users_in_state_pass.
Qed.

(** The first join of a user is reported; a repeated one is not. *)
Lemma UserJoinedRoom_reports (roomID u : string)
    (t : gmap string (gmap string Membership)) :
  (jrt_UserJoinedRoom u roomID t).1
  = negb (bool_decide (membership_of t u roomID = Joined)) ∧
  membership_of (jrt_UserJoinedRoom u roomID t).2 u roomID = Joined.
Proof.
  unfold jrt_UserJoinedRoom, jrt_IsUserJoined. cbn [fst snd].
  split; [done |]. rewrite membership_of_set. by rewrite decide_True.
Qed.

(** A repeated join without a leave in between is not reported again. *)
Lemma UserJoinedRoom_repeated (roomID u : string)
    (t : gmap string (gmap string Membership)) :
  (jrt_UserJoinedRoom u roomID (jrt_UserJoinedRoom u roomID t).2).1 = false.
Proof.
  destruct (UserJoinedRoom_reports roomID u (jrt_UserJoinedRoom u roomID t).2)
    as [-> _].
  destruct (UserJoinedRoom_reports roomID u t) as [_ ->].
  by rewrite bool_decide_eq_true_2.
Qed.

(** Leaving twice is leaving once. *)
Lemma UserLeftRoom_idempotent (roomID u : string)
    (t : gmap string (gmap string Membership)) :
  jrt_UserLeftRoom u roomID (jrt_UserLeftRoom u roomID t)
  = jrt_UserLeftRoom u roomID t.
Proof.
  unfold jrt_UserLeftRoom, set_membership at 1.
  rewrite room_members_set, decide_True by done.
  unfold set_membership. by rewrite !insert_insert_eq.
Qed.

(** The join count counts the joined users, whatever the filter keeps. *)
Lemma JoinedUsersForRoom_count (roomID : string) (f : option (string → bool))
    (t : gmap string (gmap string Membership)) :
  (jrt_JoinedUsersForRoom roomID f t).2
  = Z.of_nat (length (users_in_state Joined t roomID)) ∧
  ∀ u, u ∈ (jrt_JoinedUsersForRoom roomID f t).1 →
       membership_of t u roomID = Joined.
Proof.
  split; [done |]. intros u. unfold jrt_JoinedUsersForRoom. cbn [fst].
  destruct f as [f|].
  - rewrite list_elem_of_filter, joined_iff. tauto.
  - by rewrite joined_iff.
Qed.

(** ** The fallback delivery to the target *)

Lemma fired_OnNewEvent (roomID : string) (event : RawMessage) (nid : Z) (w : World) :
  fired (OnNewEvent roomID event nid) w = OnNewEvent_calls roomID event nid w.
Proof.
  unfold fired. rewrite OnNewEvent_run. cbn. by rewrite drop_app_length.
Qed.

Lemma event_target_member (event : RawMessage) (U : string) :
  member_target event = Some U → event_target event = U.
Proof. unfold event_target. by intros ->. Qed.

(** A bootstrap is forced only by a join, which leaves the target joined. *)
Lemma track_event_force (roomID : string) (event : RawMessage)
    (t : gmap string (gmap string Membership)) (U : string) :
  member_target event = Some U →
  (track_event roomID event t).1 = true →
  membership_of (track_event roomID event t).2 U roomID = Joined.
Proof.
  intros Ht. unfold track_event. rewrite Ht. cbv zeta.
  destruct (bool_decide (event_membership event = "invite")); [done |].
  destruct (bool_decide (event_membership event = "join")).
  - intros _. apply UserJoinedRoom_reports.
  - by destruct (bool_decide (event_membership event = "ban")
                 || bool_decide (event_membership event = "leave")).
Qed.

Lemma track_event_invite (roomID : string) (event : RawMessage)
    (t : gmap string (gmap string Membership)) (U : string) :
  member_target event = Some U →
  event_membership event = "invite" →
  (track_event roomID event t).2 = jrt_UsersInvitedToRoom [U] roomID t.
Proof.
  intros Ht Hi. unfold track_event. rewrite Ht, Hi. cbv zeta.
  by rewrite bool_decide_eq_true_2.
Qed.

(** An invite raises the invite count by one, unless the user was
    invited or joined already. *)
Lemma invite_count_after (roomID : string)
    (t : gmap string (gmap string Membership)) (U : string) :
  jrt_NumInvitedUsersForRoom roomID (jrt_UsersInvitedToRoom [U] roomID t)
  = jrt_NumInvitedUsersForRoom roomID t
    + (if bool_decide (membership_of t U roomID = Invited
                       ∨ membership_of t U roomID = Joined)
       then 0 else 1).
Proof.
  case_bool_decide as Hm.
  - unfold jrt_NumInvitedUsersForRoom, jrt_UsersInvitedToRoom. cbn [foldl].
    unfold record_invite. case_bool_decide as Hj; [lia |].
    destruct Hm as [Hm | Hm]; [| done].
    assert (Hl : room_members t roomID !! U = Some Invited).
    { unfold membership_of in Hm.
      destruct (room_members t roomID !! U) as [st|]; simpl in Hm;
        congruence. }
    assert (Hp : users_in_state Invited (set_membership Invited roomID t U)
                   roomID ≡ₚ users_in_state Invited t roomID).
    { apply NoDup_Permutation; try apply users_in_state_NoDup.
      intros x. rewrite !users_in_state_elem, room_members_set.
      rewrite decide_True by done. rewrite lookup_insert.
      case_decide; intuition congruence. }
    rewrite Hp. lia.
  - apply invite_raises_count; tauto.
Qed.

(** C5. A membership event names a target [U] that is not in the
    notified audience. The event then reaches [U]'s receiver, if there
    is one, through the fallback delivery, except when the membership is
    exactly "invite": then [U] gets no call at all. The invite is still
    recorded: who is joined stays as it was, and so does the join count;
    for a user with no prior membership the state becomes invited and
    the invite count of the room goes up by one; the dispatched event
    data carries the invite count after the update. *)
Theorem fallback_delivery_suppressed_for_invite
    (w : World) (roomID : string) (event : RawMessage) (nid : Z) (U : string) :
  member_target event = Some U →
  U ≠ "" → U ≠ DispatcherAllUsers →
  U ∉ audience_of (tracked roomID event w) roomID →
  let w' := OnNewEvent_world roomID event nid w in
  let v := dispatched_value roomID event nid (tracked roomID event w) in
  OnNewEvent roomID event nid w = Returned tt w' ∧
  calls_to U (fired (OnNewEvent roomID event nid) w)
  = (if bool_decide (event_membership event = "invite") then []
     else match userToReceiver w !! U with
          | Some l => [mk_call U l (OnNewEvent_cb (length (heap w)) (Some v))]
          | None => []
          end) ∧
  if bool_decide (event_membership event = "invite") then
    (∀ u, membership_of (jrt w') u roomID = Joined
          ↔ membership_of (jrt w) u roomID = Joined) ∧
    join_count_of w' roomID = join_count_of w roomID ∧
    (membership_of (jrt w) U roomID = NotMember →
     membership_of (jrt w') U roomID = Invited ∧
     jrt_NumInvitedUsersForRoom roomID (jrt w')
     = jrt_NumInvitedUsersForRoom roomID (jrt w) + 1) ∧
    InviteCount v = jrt_NumInvitedUsersForRoom roomID (jrt w')
  else True.
Proof.
  intros Ht Hne Hng Haud w' v.
  split_and!.
  - apply OnNewEvent_run.
  - rewrite fired_OnNewEvent. unfold OnNewEvent_calls, notify_calls.
    cbv zeta. rewrite !calls_to_app.
    rewrite calls_to_global_call by done.
    rewrite (event_target_member event U) by done.
    rewrite calls_to_copy_calls_absent by done.
    unfold fallback_calls, fallback_taken.
    rewrite notified_in_false by done.
    rewrite (bool_decide_eq_true_2 (U ≠ "")) by done. cbn [andb negb app].
    fold v.
    destruct (decide (event_membership event = "invite")) as [Hinv|Hinv].
    + rewrite (bool_decide_eq_true_2 _ Hinv).
      by rewrite (bool_decide_eq_false_2 (event_membership event ≠ "invite"))
        by tauto.
    + rewrite (bool_decide_eq_false_2 _ Hinv).
      rewrite (bool_decide_eq_true_2 (event_membership event ≠ "invite"))
        by done.
      destruct (userToReceiver w !! U) as [l|] eqn:Hl; [| done].
      destruct (track_event roomID event (jrt w)).1 eqn:Hforce.
      * exfalso. apply Haud. rewrite audience_of_elem.
        unfold tracked. proj. rewrite Hl.
        split_and!; [by apply track_event_force | done | by eexists].
      * unfold calls_to. by rewrite filter_cons_True.
  - case_bool_decide as Hinv; [| done].
    assert (Hjrt : jrt w' = jrt_UsersInvitedToRoom [U] roomID (jrt w)).
    { subst w'. unfold OnNewEvent_world, tracked. proj.
      by apply track_event_invite. }
    split_and!.
    + intros u. rewrite Hjrt. apply invites_keep_joined.
    + unfold join_count_of, jrt_JoinedUsersForRoom. cbn [snd].
      by rewrite Hjrt, invites_keep_joined_users.
    + intros Hnm. rewrite Hjrt. split.
      * unfold jrt_UsersInvitedToRoom. cbn [foldl].
        rewrite record_invite_state, decide_True by done.
        rewrite bool_decide_eq_false_2; [done | by rewrite Hnm].
      * apply invite_raises_count; by rewrite Hnm.
    + subst w' v. unfold OnNewEvent_world, dispatched_value, tracked. proj.
      by rewrite Ht.
Qed.

(** Alice, not a member so far, is invited: no call reaches her receiver,
    she is recorded as invited and the invite count of the room becomes 1.
    Alice, joined, leaves: she is no longer in the audience and the event
    reaches her receiver through the fallback. *)
Lemma fallback_delivery_suppressed_for_invite_witness :
  (member_target (member_event alice "invite") = Some alice ∧
   alice ≠ "" ∧ alice ≠ DispatcherAllUsers ∧
   (alice ∉ audience_of
              (tracked sample_room (member_event alice "invite") sample_world)
              sample_room) ∧
   calls_to alice
     (fired (OnNewEvent sample_room (member_event alice "invite") 7)
        sample_world) = [] ∧
   membership_of (jrt sample_world) alice sample_room = NotMember ∧
   membership_of
     (jrt (OnNewEvent_world sample_room (member_event alice "invite") 7
             sample_world)) alice sample_room = Invited ∧
   jrt_NumInvitedUsersForRoom sample_room
     (jrt (OnNewEvent_world sample_room (member_event alice "invite") 7
             sample_world)) = 1) ∧
  (member_target (member_event alice "leave") = Some alice ∧
   (alice ∉ audience_of
              (tracked sample_room (member_event alice "leave")
                 sample_world_joined) sample_room) ∧
   calls_to alice
     (fired (OnNewEvent sample_room (member_event alice "leave") 8)
        sample_world_joined)
   = [mk_call alice sample_user
        (OnNewEvent_cb (length (heap sample_world_joined))
           (Some (dispatched_value sample_room (member_event alice "leave") 8
                    (tracked sample_room (member_event alice "leave")
                       sample_world_joined))))]).
Proof.
  assert (H1 : member_target (member_event alice "invite") = Some alice)
    by reflexivity.
  assert (H2 : alice ≠ "") by discriminate.
  assert (H3 : alice ≠ DispatcherAllUsers) by discriminate.
  assert (H4 : alice ∉ audience_of
                 (tracked sample_room (member_event alice "invite")
                    sample_world) sample_room)
    by (vm_compute; apply not_elem_of_nil).
  assert (H5 : membership_of (jrt sample_world) alice sample_room = NotMember)
    by reflexivity.
  assert (H6 : member_target (member_event alice "leave") = Some alice)
    by reflexivity.
  assert (H7 : alice ∉ audience_of
                 (tracked sample_room (member_event alice "leave")
                    sample_world_joined) sample_room)
    by (vm_compute; apply not_elem_of_nil).
  split.
  - split; [assumption |]. split; [assumption |]. split; [assumption |].
    split; [assumption |]. split.
    + exact (proj1 (proj2
        (fallback_delivery_suppressed_for_invite sample_world sample_room
           (member_event alice "invite") 7 alice H1 H2 H3 H4))).
    + split; [assumption |].
      exact (proj1 (proj2 (proj2 (proj2 (proj2
        (fallback_delivery_suppressed_for_invite sample_world sample_room
           (member_event alice "invite") 7 alice H1 H2 H3 H4))))) H5).
  - split; [assumption |]. split; [assumption |].
    exact (proj1 (proj2
      (fallback_delivery_suppressed_for_invite sample_world_joined sample_room
         (member_event alice "leave") 8 alice H6 H2 H3 H7))).
Defined.

(** An invite naming Alice, who is joined and holds a receiver, reaches
    her through the loop like any event of the room; she stays joined and
    nobody is counted as invited. *)
Example invite_of_a_joined_user_sample :
  inv_user
  <$> fired (OnNewEvent sample_room (member_event alice "invite") 8)
        sample_world_joined
  = [DispatcherAllUsers; alice] ∧
  (λ w', (membership_of (jrt w') alice sample_room,
          join_count_of w' sample_room,
          jrt_NumInvitedUsersForRoom sample_room (jrt w')))
    (OnNewEvent_world sample_room (member_event alice "invite") 8
       sample_world_joined)
  = (Joined, 1, 0).
Proof. by vm_compute. Qed.

(** ** Forced bootstrap of a joiner *)

(** A listed user with a receiver gets exactly one call of the loop, at a
    fresh address. *)
Lemma calls_to_copy_calls_present (u : string) (l : Receiver)
    (reg : gmap string Receiver) (v : EventData) (targetUser : string)
    (force : bool) (base : nat) (userIDs : list string) :
  NoDup userIDs → u ∈ userIDs → reg !! u = Some l →
  ∃ p, (base ≤ p)%nat ∧
       calls_to u (copy_calls reg v targetUser force base userIDs)
       = [mk_call u l (OnNewEvent_cb p (Some (copy_for v targetUser force u)))].
Proof.
  intros Hnd Hin Hl. revert base.
  induction userIDs as [|x xs IH]; intros base; [by apply elem_of_nil in Hin |].
  apply NoDup_cons in Hnd as [Hx Hnd].
  cbn [copy_calls]. destruct (decide (x = u)) as [->|Hne].
  - rewrite Hl. exists base. split; [lia |].
    unfold calls_to. rewrite filter_cons_True by done.
    fold (calls_to u (copy_calls reg v targetUser force (S base) xs)).
    by rewrite calls_to_copy_calls_absent.
  - apply elem_of_cons in Hin as [->|Hin]; [done |].
    destruct (reg !! x) as [lx|].
    + destruct (IH Hnd Hin (S base)) as (p & Hp & Heq).
      exists p. split; [lia |].
      unfold calls_to. rewrite filter_cons_False by (cbn; congruence).
      exact Heq.
    + destruct (IH Hnd Hin base) as (p & Hp & Heq). by exists p.
Qed.

Lemma dispatched_value_fields (roomID : string) (event : RawMessage) (nid : Z)
    (w1 : World) :
  let v := dispatched_value roomID event nid w1 in
  Event v = event ∧ RoomID v = roomID ∧ NID v = nid ∧
  ForceInitial v = false ∧ JoinCount v = join_count_of w1 roomID.
Proof. unfold dispatched_value. by destruct (member_target event). Qed.


(** What a first join does to the tracker. *)
Lemma track_event_first_join (roomID : string) (event : RawMessage)
    (t : gmap string (gmap string Membership)) (U : string) :
  member_target event = Some U →
  event_membership event = "join" →
  membership_of t U roomID ≠ Joined →
  (track_event roomID event t).1 = true ∧
  membership_of (track_event roomID event t).2 U roomID = Joined.
Proof.
  intros Ht Hj Hm. unfold track_event. rewrite Ht, Hj. cbv zeta.
  rewrite bool_decide_eq_false_2 by done.
  rewrite bool_decide_eq_true_2 by done.
  destruct (UserJoinedRoom_reports roomID U t) as [-> ->].
  by rewrite bool_decide_eq_false_2.
Qed.

(** An event that is not a membership event leaves the tracker alone and
    names no target. *)
Lemma track_event_plain (roomID : string) (event : RawMessage)
    (t : gmap string (gmap string Membership)) :
  member_target event = None →
  track_event roomID event t = (false, t) ∧
  event_target event = "" ∧ event_membership event = "".
Proof.
  intros Ht. unfold track_event, event_target, event_membership.
  by rewrite Ht.
Qed.

(** ** The global sentinel as a target *)

(** C10. The filter keeps the sentinel out of the audience, yet a
    membership event whose state key is the sentinel, with a membership
    other than "invite", reaches the global receiver twice: once as the
    global receiver and once more through the fallback delivery to the
    target, which looks the sentinel up in the registry unguarded. *)
Theorem sentinel_target_reaches_global_receiver_twice
    (w : World) (roomID : string) (event : RawMessage) (nid : Z) (g : Receiver) :
  userToReceiver w !! DispatcherAllUsers = Some g →
  member_target event = Some DispatcherAllUsers →
  event_membership event ≠ "invite" →
  OnNewEvent roomID event nid w
  = Returned tt (OnNewEvent_world roomID event nid w) ∧
  (DispatcherAllUsers ∉ audience_of (tracked roomID event w) roomID) ∧
  ∃ v v',
    calls_to DispatcherAllUsers (fired (OnNewEvent roomID event nid) w)
    = [mk_call DispatcherAllUsers g (OnNewEvent_cb (length (heap w)) (Some v));
       mk_call DispatcherAllUsers g (OnNewEvent_cb (length (heap w)) (Some v'))].
Proof.
  intros Hg Ht Hni.
  pose proof (audience_of_no_sentinel (tracked roomID event w) roomID) as Haud.
  split_and!; [apply OnNewEvent_run | done |].
  rewrite fired_OnNewEvent. unfold OnNewEvent_calls, notify_calls. cbv zeta.
  rewrite (event_target_member _ _ Ht), !calls_to_app.
  rewrite calls_to_copy_calls_absent by done.
  unfold global_call, fallback_calls, fallback_taken. rewrite Hg.
  rewrite notified_in_false by done.
  rewrite !bool_decide_eq_true_2 by done. cbn [andb negb app].
  eexists _, _. unfold calls_to. by rewrite !filter_cons_True.
Qed.

(** A "leave" whose state key is the sentinel, with only a global
    receiver around: that receiver is called twice for the one event. *)
Lemma sentinel_target_reaches_global_receiver_twice_witness :
  userToReceiver sample_world !! DispatcherAllUsers = Some sample_global ∧
  member_target (member_event DispatcherAllUsers "leave")
  = Some DispatcherAllUsers ∧
  event_membership (member_event DispatcherAllUsers "leave") ≠ "invite" ∧
  ∃ v v',
    calls_to DispatcherAllUsers
      (fired (OnNewEvent sample_room
                (member_event DispatcherAllUsers "leave") 7) sample_world)
    = [mk_call DispatcherAllUsers sample_global
         (OnNewEvent_cb (length (heap sample_world)) (Some v));
       mk_call DispatcherAllUsers sample_global
         (OnNewEvent_cb (length (heap sample_world)) (Some v'))].
Proof.
  assert (H1 : userToReceiver sample_world !! DispatcherAllUsers
               = Some sample_global) by reflexivity.
  assert (H2 : member_target (member_event DispatcherAllUsers "leave")
               = Some DispatcherAllUsers) by reflexivity.
  assert (H3 : event_membership (member_event DispatcherAllUsers "leave")
               ≠ "invite") by (vm_compute; discriminate).
  split_and!; try assumption.
  exact (proj2 (proj2
    (sentinel_target_reaches_global_receiver_twice sample_world sample_room
       (member_event DispatcherAllUsers "leave") 7 sample_global H1 H2 H3))).
Defined.

(** The other three paths have no fallback: the global receiver is called
    once. *)
Lemma poke_paths_call_global_once (w : World) (roomID : string)
    (ephEvent : RawMessage) (receipt : Receipt) :
  calls_to DispatcherAllUsers (fired (OnEphemeralEvent roomID ephEvent) w)
  = global_call (userToReceiver w) (OnEphemeralEvent_cb roomID ephEvent) ∧
  calls_to DispatcherAllUsers (fired (OnReceipt receipt) w)
  = global_call (userToReceiver w) (OnReceipt_cb receipt).
Proof.
  assert (Hnone : ∀ cb room,
    calls_to DispatcherAllUsers
      (user_calls (userToReceiver w) cb (audience_of w room)) = []).
  { intros cb room. apply filter_none, Forall_forall. intros i Hi Heq.
    apply (audience_of_no_sentinel w room). rewrite <- Heq.
    rewrite <- (user_calls_audience w room cb).
    by apply list_elem_of_fmap_2. }
  assert (Hg : ∀ cb, calls_to DispatcherAllUsers
                       (global_call (userToReceiver w) cb)
                     = global_call (userToReceiver w) cb).
  { intros cb. unfold global_call.
    destruct (userToReceiver w !! DispatcherAllUsers); [| done].
    unfold calls_to. by rewrite filter_cons_True. }
  unfold fired. rewrite OnEphemeralEvent_eq, OnReceipt_eq.
  cbn [final_world calls with_calls].
  rewrite !drop_app_length, !calls_to_app, !Hnone, !Hg.
  by rewrite !app_nil_r.
Qed.

(** ** The initial state block *)

Lemma state_users_cons (membership : string) (x : RawMessage)
    (xs : list RawMessage) :
  state_users membership (x :: xs)
  = match member_target x with
    | Some u =>
        if bool_decide (event_membership x = membership)
        then u :: state_users membership xs
        else state_users membership xs
    | None => state_users membership xs
    end.
Proof.
  unfold state_users. cbn [omap list_omap].
  destruct (member_target x); [| done].
  by destruct (bool_decide (event_membership x = membership)).
Qed.

(** The first loop of the bulk path: one event data per state event, at
    consecutive addresses, and the joined and invited users read off the
    membership events. *)
Lemma collect_loop (roomID : string) (state : list RawMessage)
    (eds : list nat) (joined invited : list string) (w : World) :
  fold_each state (eds, joined, invited)
    (λ '(eventDatas, joined, invited) event,
       let* ed := NewEventData event roomID 0 in
       let* v := deref ed in
       match StateKey v with
       | Some stateKey =>
           if bool_decide (EventType v = "m.room.member") then
             let membership := Content_Get_Str v "membership" in
             if bool_decide (membership = "invite") then
               ret (eventDatas ++ [ed], joined, invited ++ [stateKey])
             else if bool_decide (membership = "join") then
               ret (eventDatas ++ [ed], joined ++ [stateKey], invited)
             else ret (eventDatas ++ [ed], joined, invited)
           else ret (eventDatas ++ [ed], joined, invited)
       | None => ret (eventDatas ++ [ed], joined, invited)
       end) w
  = Returned
      (eds ++ seq (length (heap w)) (length state),
       joined ++ state_users "join" state,
       invited ++ state_users "invite" state)
      (with_heap
         (heap w ++ ((λ e, NewEventData_value e roomID 0) <$> state)) w).
Proof.
  revert eds joined invited w.
  induction state as [|x xs IH]; intros eds joined invited w.
  - cbn. rewrite !app_nil_r. by destruct w.
  - cbn [fold_each]. unfold NewEventData at 1.
    rewrite !run_assoc, run_alloc.
    rewrite run_assoc, (run_deref _ (NewEventData_value x roomID 0))
      by apply lookup_snoc_last.
    unfold Content_Get_Str.
    cbn [StateKey EventType Content NewEventData_value].
    rewrite !state_users_cons.
    assert (Hlen : ∀ (h : list EventData) v,
              length (h ++ [v]) = S (length h))
      by (intros; rewrite length_app; simpl; lia).
    destruct (json_state_key x) as [stateKey|] eqn:Hk; cycle 1.
    { assert (member_target x = None) as ->
        by (unfold member_target; by rewrite Hk).
      rewrite run_ret, IH. proj. rewrite Hlen.
      cbn [length seq fmap list_fmap]. by rewrite <- !app_assoc. }
    destruct (bool_decide (json_type x = "m.room.member")) eqn:Hty; cycle 1.
    { assert (member_target x = None) as ->
        by (unfold member_target; by rewrite Hk, Hty).
      rewrite run_ret, IH. proj. rewrite Hlen.
      cbn [length seq fmap list_fmap]. by rewrite <- !app_assoc. }
    assert (Hmt : member_target x = Some stateKey)
      by (unfold member_target; by rewrite Hk, Hty).
    assert (Hem : event_membership x
                  = default "" (json_content x !! "membership"))
      by (unfold event_membership; by rewrite Hmt).
    rewrite Hmt, Hem.
    set (m := default "" (json_content x !! "membership")).
    destruct (decide (m = "invite")) as [Hinv|Hinv].
    + rewrite (bool_decide_eq_true_2 _ Hinv).
      rewrite (bool_decide_eq_false_2 (m = "join")) by (rewrite Hinv; done).
      rewrite run_ret, IH. proj. rewrite Hlen.
      cbn [length seq fmap list_fmap]. by rewrite <- !app_assoc.
    + rewrite (bool_decide_eq_false_2 _ Hinv).
      destruct (decide (m = "join")) as [Hjoin|Hjoin].
      * rewrite (bool_decide_eq_true_2 _ Hjoin).
        rewrite run_ret, IH. proj. rewrite Hlen.
        cbn [length seq fmap list_fmap]. by rewrite <- !app_assoc.
      * rewrite (bool_decide_eq_false_2 _ Hjoin).
        rewrite run_ret, IH. proj. rewrite Hlen.
        cbn [length seq fmap list_fmap]. by rewrite <- !app_assoc.
Qed.

(** Every call of one [notifyListeners] hands over the event data it was
    given, up to the [ForceInitial] flag. *)
Lemma notify_calls_delivered (reg : gmap string Receiver) (ed : nat)
    (v : EventData) (base : nat) (userIDs : list string) (targetUser : string)
    (force : bool) (membership : string) :
  Forall (λ i, ∃ v', delivered i = Some v' ∧
                     (v' = v ∨ v' = set_ForceInitial true v))
         (notify_calls reg ed v base userIDs targetUser force membership).
Proof.
  unfold notify_calls. rewrite !Forall_app. split_and!.
  - unfold global_call. destruct (reg !! DispatcherAllUsers); [| constructor].
    apply Forall_singleton. eexists. split; [done | by left].
  - eapply Forall_impl; [apply copy_calls_each |]. cbn.
    intros i (_ & _ & Hd). eexists. split; [exact Hd |].
    unfold copy_for. destruct (_ && _); [by right | by left].
  - unfold fallback_calls.
    destruct (fallback_taken _ _ _ _); [| constructor].
    destruct (reg !! targetUser); [| constructor].
    apply Forall_singleton. eexists. split; [done |].
    destruct force; [by right | by left].
Qed.

Lemma notify_calls_block (reg : gmap string Receiver) (ed : nat)
    (v : EventData) (base : nat) (userIDs : list string) (targetUser : string)
    (force : bool) (membership : string) :
  signal_block reg (Event v)
    (notify_calls reg ed v base userIDs targetUser force membership).
Proof.
  split.
  - eapply Forall_impl; [apply notify_calls_delivered |]. cbn.
    intros i (v' & Hd & [-> | ->]); by eexists.
  - unfold notify_calls, global_call.
    destruct (reg !! DispatcherAllUsers); [| done].
    by eexists _, _, _.
Qed.

(** Without a target there is no fallback: the recipients are the global
    receiver, if any, and the listed users with a receiver. *)
Lemma notify_calls_no_target (reg : gmap string Receiver) (ed : nat)
    (v : EventData) (base : nat) (userIDs : list string) (force : bool)
    (membership : string) :
  notify_calls reg ed v base userIDs "" force membership
  = global_call reg (OnNewEvent_cb ed (Some v))
    ++ copy_calls reg v "" force base userIDs.
Proof.
  unfold notify_calls, fallback_calls, fallback_taken.
  rewrite (bool_decide_eq_false_2 ("" ≠ "")) by (intros H; by apply H).
  cbn [andb]. by rewrite app_nil_r.
Qed.

Lemma notify_heap_no_target (reg : gmap string Receiver) (ed : nat)
    (v : EventData) (h : list EventData) (userIDs : list string)
    (force : bool) (membership : string) :
  notify_heap reg ed v h userIDs "" force membership
  = h ++ copies reg v "" force userIDs.
Proof.
  unfold notify_heap, fallback_taken.
  by rewrite (bool_decide_eq_false_2 ("" ≠ "")) by (intros H; by apply H).
Qed.

(** Overwriting one address and appending to the memory keeps what the
    other addresses hold. *)
Lemma lookups_preserved {X} (h ext : list X) (ed : nat) (x : X)
    (eds : list nat) (vs : list X) :
  ed ∉ eds → Forall2 (λ ed' v, h !! ed' = Some v) eds vs →
  Forall2 (λ ed' v, (<[ed := x]> h ++ ext) !! ed' = Some v) eds vs.
Proof.
  intros Hnin Hall. induction Hall as [|ed' v eds vs Hv _ IH]; [constructor |].
  apply not_elem_of_cons in Hnin as [Hne Hnin].
  constructor; [| by apply IH].
  rewrite lookup_app_l
    by (rewrite length_insert; by eapply lookup_lt_Some).
  by rewrite list_lookup_insert_ne.
Qed.

(** The second loop of the bulk path. *)
Lemma bulk_loop (ic jc : Z) (userIDs : list string) (force : bool)
    (eds : list nat) (vs : list EventData) (w : World) :
  NoDup eds → Forall2 (λ ed v, heap w !! ed = Some v) eds vs →
  ∃ w',
    for_each eds (λ ed,
      run assign ed (set_InviteCount ic) then
      run assign ed (set_JoinCount jc) then
      notifyListeners ed userIDs "" force "") w = Returned tt w' ∧
    jrt w' = jrt w ∧ userToReceiver w' = userToReceiver w ∧
    ∃ blocks,
      calls w' = calls w ++ concat blocks ∧
      Forall2 (λ v block,
                 ∃ ed base,
                   block = notify_calls (userToReceiver w) ed
                             (set_JoinCount jc (set_InviteCount ic v))
                             base userIDs "" force "")
              vs blocks.
Proof.
  intros Hnd Hall. revert w Hall.
  revert vs. induction eds as [|ed eds IH]; intros vs w Hall.
  - apply Forall2_nil_inv_l in Hall as ->.
    exists w. split_and!; [done.. |]. exists []. cbn.
    by rewrite app_nil_r.
  - apply Forall2_cons_inv_l in Hall as (v & vs' & Hv & Hall & ->).
    apply NoDup_cons in Hnd as [Hnin Hnd].
    assert (Hlt : (ed < length (heap w))%nat) by (by eapply lookup_lt_Some).
    cbn [for_each].
    rewrite !run_assoc, (run_assign _ _ v) by done.
    rewrite run_assoc, (run_assign _ _ (set_InviteCount ic v))
      by (proj; by apply list_lookup_insert_eq).
    proj. rewrite list_insert_insert_eq.
    unfold bind at 1.
    rewrite (notifyListeners_eq _ (set_JoinCount jc (set_InviteCount ic v)))
      by (proj; by apply list_lookup_insert_eq).
    proj. rewrite notify_heap_no_target.
    set (w1 := {| jrt := jrt w |}).
    destruct (IH Hnd vs' w1) as (w' & Hrun & Hj & Hr & blocks & Hc & Hb).
    { subst w1. proj. by apply lookups_preserved. }
    exists w'. split_and!; [done | done | done |].
    eexists (_ :: blocks). split.
    + rewrite Hc. subst w1. proj. cbn [concat]. by rewrite <- app_assoc.
    + constructor; [by eexists _, _ | done].
Qed.

(** Replaying events through [OnNewEvent] returns, one block of calls per
    event. *)
Lemma replay_loop (roomID : string) (state : list RawMessage) (w : World) :
  ∃ w',
    for_each state (λ s, OnNewEvent roomID s 0) w = Returned tt w' ∧
    userToReceiver w' = userToReceiver w ∧
    jrt w' = foldl (λ t s, (track_event roomID s t).2) (jrt w) state ∧
    ∃ blocks,
      calls w' = calls w ++ concat blocks ∧
      Forall2 (signal_block (userToReceiver w)) state blocks.
Proof.
  revert w. induction state as [|x xs IH]; intros w.
  - exists w. split_and!; [done.. |]. exists []. cbn. by rewrite app_nil_r.
  - cbn [for_each foldl]. unfold bind at 1. rewrite OnNewEvent_run.
    destruct (IH (OnNewEvent_world roomID x 0 w))
      as (w' & Hrun & Hr & Hj & blocks & Hc & Hb).
    exists w'. split_and!; [done | done | done |].
    exists (OnNewEvent_calls roomID x 0 w :: blocks). split.
    + rewrite Hc. cbn [OnNewEvent_world calls concat].
      by rewrite <- app_assoc.
    + constructor; [| done].
      pose proof (dispatched_value_fields roomID x 0 (tracked roomID x w))
        as (Hev & _).
      unfold OnNewEvent_calls. cbv zeta.
      rewrite <- Hev at 1. apply notify_calls_block.
Qed.

Lemma initial_state_degraded (roomID : string) (state : list RawMessage)
    (w : World) :
  (jrt_JoinedUsersForRoom roomID None (jrt w)).2 > 0 →
  OnNewInitialRoomState roomID state w
  = for_each state (λ s, OnNewEvent roomID s 0)
      (with_logs
         (logs w ++ [degrade_log roomID
                       (jrt_JoinedUsersForRoom roomID None (jrt w)).2 state])
         w).
Proof.
  intros Hjc. unfold OnNewInitialRoomState. rewrite run_jrt_read.
  destruct (jrt_JoinedUsersForRoom roomID None (jrt w)) as [us jc0].
  cbn [snd] in *. rewrite bool_decide_eq_true_2 by done.
  by rewrite run_log.
Qed.

Lemma seq_lookups {X} (h vs : list X) :
  Forall2 (λ ed v, (h ++ vs) !! ed = Some v) (seq (length h) (length vs)) vs.
Proof.
  revert h. induction vs as [|v vs IH]; intros h; [constructor |].
  cbn [length seq]. constructor.
  - by apply list_lookup_middle.
  - specialize (IH (h ++ [v])).
    rewrite length_app, Nat.add_1_r, <- app_assoc in IH. exact IH.
Qed.

Lemma initial_state_bulk (roomID : string) (state : list RawMessage)
    (w : World) :
  ¬ (jrt_JoinedUsersForRoom roomID None (jrt w)).2 > 0 →
  let w1 := with_jrt (bulk_tracker roomID state (jrt w)) w in
  let force :=
    (jrt_UsersJoinedRoom (state_users "join" state) roomID (jrt w)).1 in
  ∃ w',
    OnNewInitialRoomState roomID state w = Returned tt w' ∧
    jrt w' = jrt w1 ∧ userToReceiver w' = userToReceiver w ∧
    ∃ blocks,
      calls w' = calls w ++ concat blocks ∧
      Forall2 (λ event block,
                 ∃ ed base,
                   block = notify_calls (userToReceiver w) ed
                             (set_JoinCount (join_count_of w1 roomID)
                                (set_InviteCount
                                   (jrt_NumInvitedUsersForRoom roomID (jrt w1))
                                   (NewEventData_value event roomID 0)))
                             base (audience_of w1 roomID) "" force "")
              state blocks.
Proof.
  intros Hjc w1 force. unfold OnNewInitialRoomState. rewrite run_jrt_read.
  destruct (jrt_JoinedUsersForRoom roomID None (jrt w)) as [us jc0].
  cbn [snd] in *. rewrite bool_decide_eq_false_2 by done.
  unfold bind at 1. rewrite collect_loop. cbn [app].
  step.
  set (w2 := with_jrt _ _).
  destruct (bulk_loop
              (jrt_NumInvitedUsersForRoom roomID (jrt w1))
              (join_count_of w1 roomID) (audience_of w1 roomID) force
              (seq (length (heap w)) (length state))
              ((λ e, NewEventData_value e roomID 0) <$> state) w2)
    as (w' & Hrun & Hj & Hr & blocks & Hc & Hb).
  { apply NoDup_seq. }
  { subst w2. proj.
    rewrite <- (length_fmap (λ e, NewEventData_value e roomID 0) state).
    apply seq_lookups. }
  exists w'. split_and!; [exact Hrun | by rewrite Hj | by rewrite Hr |].
  exists blocks. split; [by rewrite Hc |].
  by apply Forall2_fmap_l in Hb.
Qed.

Lemma filter_all {X} (P : X → Prop) `{!∀ x, Decision (P x)} (l : list X) :
  Forall P l → filter P l = l.
Proof.
  induction 1 as [|x l Hx _ IH]; [done |].
  rewrite filter_cons_True by done. by rewrite IH.
Qed.

Lemma audience_all_registered (w : World) (reg : gmap string Receiver)
    (roomID : string) :
  reg = userToReceiver w →
  filter (λ u, is_Some (reg !! u)) (audience_of w roomID)
  = audience_of w roomID.
Proof.
  intros ->. apply filter_all, Forall_forall. intros u Hu.
  apply audience_of_elem in Hu. tauto.
Qed.

(** Either path of [OnNewInitialRoomState] returns, with one block of
    calls per state event. *)
Lemma initial_state_blocks (roomID : string) (state : list RawMessage)
    (w : World) :
  ∃ w' blocks,
    OnNewInitialRoomState roomID state w = Returned tt w' ∧
    calls w' = calls w ++ concat blocks ∧
    Forall2 (signal_block (userToReceiver w)) state blocks.
Proof.
  destruct (decide ((jrt_JoinedUsersForRoom roomID None (jrt w)).2 > 0))
    as [Hjc|Hjc].
  - rewrite initial_state_degraded by done.
    destruct (replay_loop roomID state
                (with_logs
                   (logs w ++ [degrade_log roomID
                      (jrt_JoinedUsersForRoom roomID None (jrt w)).2 state])
                   w))
      as (w' & Hrun & _ & _ & blocks & Hc & Hb).
    by exists w', blocks.
  - destruct (initial_state_bulk roomID state w Hjc)
      as (w' & Hrun & _ & _ & blocks & Hc & Hb).
    exists w', blocks. split_and!; [done | done |].
    eapply Forall2_impl; [exact Hb |]. cbn.
    intros event block (ed & base & ->).
    apply (notify_calls_block _ _
             (set_JoinCount _ (set_InviteCount _
                (NewEventData_value event roomID 0)))).
Qed.

(** C8. With joined users already tracked for the room,
    [OnNewInitialRoomState] logs a warning and is the replay of the state
    events, in order, through [OnNewEvent] with position 0, and that
    replay returns. Otherwise it returns with the tracker bulk-updated
    from the membership events, and every state event is dispatched, in
    order, to the global receiver (if any) and the audience, each call
    carrying the room's join and invite counts after the update. *)
Theorem OnNewInitialRoomState_degrades_or_bulk_updates
    (w : World) (roomID : string) (state : list RawMessage) :
  let jc0 := (jrt_JoinedUsersForRoom roomID None (jrt w)).2 in
  let w1 := with_jrt (bulk_tracker roomID state (jrt w)) w in
  if bool_decide (jc0 > 0) then
    OnNewInitialRoomState roomID state w
    = for_each state (λ s, OnNewEvent roomID s 0)
        (with_logs (logs w ++ [degrade_log roomID jc0 state]) w) ∧
    ∃ w',
      OnNewInitialRoomState roomID state w = Returned tt w' ∧
      jrt w' = foldl (λ t s, (track_event roomID s t).2) (jrt w) state ∧
      ∃ blocks,
        calls w' = calls w ++ concat blocks ∧
        Forall2 (signal_block (userToReceiver w)) state blocks
  else
    ∃ w',
      OnNewInitialRoomState roomID state w = Returned tt w' ∧
      jrt w' = bulk_tracker roomID state (jrt w) ∧
      ∃ blocks,
        calls w' = calls w ++ concat blocks ∧
        Forall2
          (λ event block,
             Forall (λ i, ∃ v,
                       delivered i = Some v ∧ Event v = event ∧
                       RoomID v = roomID ∧
                       JoinCount v = join_count_of w1 roomID ∧
                       InviteCount v
                       = jrt_NumInvitedUsersForRoom roomID (jrt w1))
                    block ∧
             inv_user <$> block
             = match userToReceiver w !! DispatcherAllUsers with
               | Some _ => [DispatcherAllUsers]
               | None => []
               end ++ audience_of w1 roomID)
          state blocks.
Proof.
  intros jc0 w1. case_bool_decide as Hjc.
  - split; [by apply initial_state_degraded |].
    rewrite initial_state_degraded by done.
    destruct (replay_loop roomID state
                (with_logs (logs w ++ [degrade_log roomID jc0 state]) w))
      as (w' & Hrun & _ & Hj & blocks & Hc & Hb).
    exists w'. split_and!; [done | done |]. by exists blocks.
  - destruct (initial_state_bulk roomID state w Hjc)
      as (w' & Hrun & Hj & _ & blocks & Hc & Hb).
    exists w'. split_and!; [done | done |]. exists blocks. split; [done |].
    eapply Forall2_impl; [exact Hb |]. cbv beta.
    intros event block (ed & base & ->). split.
    + eapply Forall_impl; [apply notify_calls_delivered |]. cbn.
      intros i (v' & Hd & [-> | ->]); eexists; by split_and!.
    + rewrite notify_calls_no_target, fmap_app, copy_calls_users.
      rewrite (audience_all_registered w1) by done. f_equal.
      unfold global_call. by destruct (userToReceiver w !! DispatcherAllUsers).
Qed.

(** The bulk path on the sample dispatcher: each of the three events goes
    to the global receiver and then to Alice, with join count 1 and
    invite count 1. *)
Example OnNewInitialRoomState_bulk_sample :
  (λ i, (inv_user i, json_type <$> (Event <$> delivered i),
         JoinCount <$> delivered i, InviteCount <$> delivered i))
  <$> fired (OnNewInitialRoomState sample_room sample_initial_state)
        sample_world
  = [(DispatcherAllUsers, Some "m.room.member", Some 1, Some 1);
     (alice, Some "m.room.member", Some 1, Some 1);
     (DispatcherAllUsers, Some "m.room.member", Some 1, Some 1);
     (alice, Some "m.room.member", Some 1, Some 1);
     (DispatcherAllUsers, Some "m.room.message", Some 1, Some 1);
     (alice, Some "m.room.message", Some 1, Some 1)].
Proof. by vm_compute. Qed.

(** The degraded path, with Alice tracked already: a warning, then one
    incremental dispatch per event. *)
Example OnNewInitialRoomState_degraded_sample :
  has_returned
    (OnNewInitialRoomState sample_room sample_initial_state
       sample_world_joined) = true ∧
  log_level
  <$> drop (length (logs sample_world_joined))
        (logs (final_world
                 (OnNewInitialRoomState sample_room sample_initial_state
                    sample_world_joined)))
  = [LogWarn; LogTrace; LogTrace; LogTrace] ∧
  inv_user
  <$> fired (OnNewInitialRoomState sample_room sample_initial_state)
        sample_world_joined
  = [DispatcherAllUsers; alice; DispatcherAllUsers; alice;
     DispatcherAllUsers; alice].
Proof. by vm_compute. Qed.

(** ** The global receiver comes first *)

(** C4. With a receiver registered under the global sentinel, the calls
    of [OnNewEvent], of [OnEphemeralEvent] and of [OnReceipt] open with
    the call to it (for [OnNewEvent] on the event data itself), and the
    calls of [OnNewInitialRoomState] split into one block per state
    event, in order, each opening with the call to the global receiver;
    all four return. *)
Theorem global_receiver_is_called_first
    (w : World) (g : Receiver) (roomID : string) (event : RawMessage)
    (nid : Z) (state : list RawMessage) (ephEvent : RawMessage)
    (receipt : Receipt) :
  userToReceiver w !! DispatcherAllUsers = Some g →
  (has_returned (OnNewEvent roomID event nid w) = true ∧
   ∃ v rest,
     fired (OnNewEvent roomID event nid) w
     = mk_call DispatcherAllUsers g
         (OnNewEvent_cb (length (heap w)) (Some v)) :: rest ∧
     Event v = event) ∧
  (has_returned (OnEphemeralEvent roomID ephEvent w) = true ∧
   ∃ rest,
     fired (OnEphemeralEvent roomID ephEvent) w
     = mk_call DispatcherAllUsers g (OnEphemeralEvent_cb roomID ephEvent)
       :: rest) ∧
  (has_returned (OnReceipt receipt w) = true ∧
   ∃ rest,
     fired (OnReceipt receipt) w
     = mk_call DispatcherAllUsers g (OnReceipt_cb receipt) :: rest) ∧
  (has_returned (OnNewInitialRoomState roomID state w) = true ∧
   ∃ blocks,
     fired (OnNewInitialRoomState roomID state) w = concat blocks ∧
     Forall2
       (λ event block,
          Forall (λ i, ∃ v, delivered i = Some v ∧ Event v = event) block ∧
          ∃ p v rest,
            block = mk_call DispatcherAllUsers g (OnNewEvent_cb p (Some v))
                    :: rest)
       state blocks).
Proof.
  intros Hg. split_and!.
  - by rewrite OnNewEvent_run.
  - rewrite fired_OnNewEvent. unfold OnNewEvent_calls, notify_calls.
    cbv zeta. unfold global_call. rewrite Hg. cbn [app].
    eexists _, _. split; [done |].
    apply dispatched_value_fields.
  - by rewrite OnEphemeralEvent_eq.
  - unfold fired. rewrite OnEphemeralEvent_eq.
    cbn [final_world calls with_calls]. rewrite drop_app_length.
    unfold global_call. rewrite Hg. by eexists.
  - by rewrite OnReceipt_eq.
  - unfold fired. rewrite OnReceipt_eq.
    cbn [final_world calls with_calls]. rewrite drop_app_length.
    unfold global_call. rewrite Hg. by eexists.
  - destruct (initial_state_blocks roomID state w) as (w' & blocks & -> & _).
    done.
  - destruct (initial_state_blocks roomID state w)
      as (w' & blocks & Hrun & Hc & Hb).
    exists blocks. split.
    + unfold fired. rewrite Hrun. cbn [final_world].
      by rewrite Hc, drop_app_length.
    + eapply Forall2_impl; [exact Hb |]. cbn.
      intros ev block [Hall Hhead]. by rewrite Hg in Hhead.
Qed.

(** The sample dispatcher has a global receiver. *)
Lemma global_receiver_is_called_first_witness :
  userToReceiver sample_world !! DispatcherAllUsers = Some sample_global ∧
  ((has_returned
      (OnNewEvent sample_room (member_event alice "join") 7 sample_world)
    = true ∧
    ∃ v rest,
      fired (OnNewEvent sample_room (member_event alice "join") 7)
        sample_world
      = mk_call DispatcherAllUsers sample_global
          (OnNewEvent_cb (length (heap sample_world)) (Some v)) :: rest ∧
      Event v = member_event alice "join") ∧
   (has_returned (OnEphemeralEvent sample_room message_event sample_world)
    = true ∧
    ∃ rest,
      fired (OnEphemeralEvent sample_room message_event) sample_world
      = mk_call DispatcherAllUsers sample_global
          (OnEphemeralEvent_cb sample_room message_event) :: rest) ∧
   (has_returned (OnReceipt sample_receipt sample_world) = true ∧
    ∃ rest,
      fired (OnReceipt sample_receipt) sample_world
      = mk_call DispatcherAllUsers sample_global
          (OnReceipt_cb sample_receipt) :: rest) ∧
   (has_returned
      (OnNewInitialRoomState sample_room sample_state sample_world)
    = true ∧
    ∃ blocks,
      fired (OnNewInitialRoomState sample_room sample_state) sample_world
      = concat blocks ∧
      Forall2
        (λ ev block,
           Forall (λ i, ∃ v, delivered i = Some v ∧ Event v = ev) block ∧
           ∃ p v rest,
             block = mk_call DispatcherAllUsers sample_global
                       (OnNewEvent_cb p (Some v)) :: rest)
        sample_state blocks)).
Proof.
  assert (H1 : userToReceiver sample_world !! DispatcherAllUsers
               = Some sample_global) by reflexivity.
  split; [assumption |].
  exact (global_receiver_is_called_first sample_world sample_global
           sample_room (member_event alice "join") 7 sample_state
           message_event sample_receipt H1).
Defined.

(** ** Per-recipient copies *)

Lemma copy_calls_receivers (reg : gmap string Receiver) (v : EventData)
    (targetUser : string) (force : bool) (base : nat) (userIDs : list string) :
  Forall2 (λ u i, inv_user i = u ∧ reg !! u = Some (inv_receiver i))
          (filter (λ u, is_Some (reg !! u)) userIDs)
          (copy_calls reg v targetUser force base userIDs).
Proof.
  revert base. induction userIDs as [|u us IH]; intros base; [constructor |].
  cbn [copy_calls]. destruct (reg !! u) as [l|] eqn:Hl.
  - rewrite filter_cons_True by (by rewrite Hl). constructor; [by split |].
    apply IH.
  - rewrite filter_cons_False by (rewrite Hl; by intros [? ?]). apply IH.
Qed.

Lemma copy_calls_length (reg : gmap string Receiver) (v : EventData)
    (targetUser : string) (force : bool) (base : nat) (userIDs : list string) :
  length (copy_calls reg v targetUser force base userIDs)
  = length (filter (λ u, is_Some (reg !! u)) userIDs).
Proof.
  by rewrite <- (copy_calls_users reg v targetUser force base), length_fmap.
Qed.

Lemma copies_length (reg : gmap string Receiver) (v : EventData)
    (targetUser : string) (force : bool) (userIDs : list string) :
  length (copies reg v targetUser force userIDs)
  = length (filter (λ u, is_Some (reg !! u)) userIDs).
Proof.
  induction userIDs as [|u us IH]; [done |].
  cbn [copies]. destruct (reg !! u) as [l|] eqn:Hl.
  - rewrite filter_cons_True by (by rewrite Hl). cbn. by rewrite IH.
  - by rewrite filter_cons_False by (rewrite Hl; by intros [? ?]).
Qed.

(** The fallback is decided by whether the loop called the target. *)
Lemma fallback_after_taken (reg : gmap string Receiver) (userIDs : list string)
    (targetUser membership : string) :
  fallback_after (filter (λ u, is_Some (reg !! u)) userIDs)
    targetUser membership
  = fallback_taken reg userIDs targetUser membership.
Proof.
  unfold fallback_after, fallback_taken. do 2 f_equal.
  destruct (notified_in reg targetUser userIDs) eqn:Hn.
  - apply notified_in_true in Hn. apply bool_decide_eq_false_2.
    intros Hnot. apply Hnot. apply list_elem_of_filter. tauto.
  - apply bool_decide_eq_true_2. intros Hin.
    apply list_elem_of_filter in Hin as [Hr Hin].
    assert (notified_in reg targetUser userIDs = true)
      by (by apply notified_in_true).
    congruence.
Qed.

(** The calls of [notifyListeners], read as the global call, the loop on
    copies and the fallback on the original. *)
Lemma notify_calls_notifies (reg : gmap string Receiver) (ed : nat)
    (v : EventData) (base : nat) (userIDs : list string) (targetUser : string)
    (force : bool) (membership : string) :
  notifies reg base ed v userIDs targetUser force membership
    (notify_calls reg ed v base userIDs targetUser force membership).
Proof.
  exists (copy_calls reg v targetUser force base userIDs). split_and!.
  - unfold notify_calls, fallback_calls.
    by rewrite copy_calls_users, fallback_after_taken.
  - apply copy_calls_receivers.
  - by rewrite copy_calls_addresses, copy_calls_length.
  - eapply Forall_impl; [apply copy_calls_each |]. cbv beta.
    intros i (_ & _ & Hd). exact Hd.
Qed.

Lemma fired_notifyListeners (ed : nat) (v : EventData) (userIDs : list string)
    (targetUser : string) (force : bool) (membership : string) (w : World) :
  heap w !! ed = Some v →
  fired (notifyListeners ed userIDs targetUser force membership) w
  = notify_calls (userToReceiver w) ed v (length (heap w)) userIDs
      targetUser force membership.
Proof.
  intros Hed. unfold fired. rewrite (notifyListeners_eq ed v) by done.
  cbn [final_world calls]. by rewrite drop_app_length.
Qed.

(** Only the fallback writes the original, and only to flag it. *)
Lemma notify_heap_original (reg : gmap string Receiver) (ed : nat)
    (v : EventData) (h : list EventData) (userIDs : list string)
    (targetUser : string) (force : bool) (membership : string) :
  h !! ed = Some v →
  notify_heap reg ed v h userIDs targetUser force membership !! ed
  = Some (if fallback_taken reg userIDs targetUser membership && force
          then set_ForceInitial true v else v).
Proof.
  intros Hed. unfold notify_heap.
  assert (Hlt : (ed < length h)%nat) by (by eapply lookup_lt_Some).
  destruct (fallback_taken reg userIDs targetUser membership && force).
  - apply list_lookup_insert_eq. rewrite length_app. lia.
  - by rewrite lookup_app_l.
Qed.

Lemma notify_heap_length (reg : gmap string Receiver) (ed : nat)
    (v : EventData) (h : list EventData) (userIDs : list string)
    (targetUser : string) (force : bool) (membership : string) :
  length (notify_heap reg ed v h userIDs targetUser force membership)
  = (length h + length (filter (λ u, is_Some (reg !! u)) userIDs))%nat.
Proof.
  unfold notify_heap.
  destruct (fallback_taken reg userIDs targetUser membership && force);
    rewrite ?length_insert, length_app, copies_length; done.
Qed.

(** Every run of [notifyListeners]. *)
Lemma notifyListeners_copies (w : World) (ed : nat) (v : EventData)
    (userIDs : list string) (targetUser : string) (force : bool)
    (membership : string) :
  heap w !! ed = Some v →
  let o := notifyListeners ed userIDs targetUser force membership w in
  let called := filter (λ u, is_Some (userToReceiver w !! u)) userIDs in
  has_returned o = true ∧
  notifies (userToReceiver w) (length (heap w)) ed v userIDs targetUser
    force membership
    (fired (notifyListeners ed userIDs targetUser force membership) w) ∧
  (ed < length (heap w))%nat ∧
  length (heap (final_world o)) = (length (heap w) + length called)%nat ∧
  heap (final_world o) !! ed
  = Some (if fallback_after called targetUser membership && force
          then set_ForceInitial true v else v).
Proof.
  intros Hed o called. subst o called.
  rewrite (fired_notifyListeners ed v) by done.
  rewrite (notifyListeners_eq ed v) by done.
  cbn [has_returned final_world heap]. split_and!.
  - done.
  - apply notify_calls_notifies.
  - by eapply lookup_lt_Some.
  - apply notify_heap_length.
  - rewrite fallback_after_taken. by apply notify_heap_original.
Qed.

(** Every run of [OnNewEvent]. *)
Lemma OnNewEvent_copies (w : World) (roomID : string) (event : RawMessage)
    (nid : Z) :
  let w1 := tracked roomID event w in
  let v := dispatched_value roomID event nid w1 in
  let force := (track_event roomID event (jrt w)).1 in
  let w' := OnNewEvent_world roomID event nid w in
  OnNewEvent roomID event nid w = Returned tt w' ∧
  Event v = event ∧ ForceInitial v = false ∧
  notifies (userToReceiver w) (S (length (heap w))) (length (heap w)) v
    (audience_of w1 roomID) (event_target event) force
    (event_membership event) (fired (OnNewEvent roomID event nid) w) ∧
  length (heap w')
  = (S (length (heap w)) + length (audience_of w1 roomID))%nat ∧
  heap w' !! length (heap w)
  = Some (if fallback_after (audience_of w1 roomID) (event_target event)
                (event_membership event) && force
          then set_ForceInitial true v else v).
Proof.
  intros w1 v force w'. subst w1 v force w'.
  pose proof (dispatched_value_fields roomID event nid
                (tracked roomID event w)) as (Hev & _ & _ & Hfi & _).
  assert (Hreg : filter (λ u, is_Some (userToReceiver w !! u))
                   (audience_of (tracked roomID event w) roomID)
                 = audience_of (tracked roomID event w) roomID)
    by (by apply (audience_all_registered (tracked roomID event w))).
  split_and!; [apply OnNewEvent_run | exact Hev | exact Hfi | | |].
  - rewrite fired_OnNewEvent. apply notify_calls_notifies.
  - unfold OnNewEvent_world. cbv zeta. cbn [heap].
    rewrite notify_heap_length, Hreg, length_app. cbn [length]. lia.
  - unfold OnNewEvent_world. cbv zeta. cbn [heap].
    rewrite (notify_heap_original _ _
               (dispatched_value roomID event nid (tracked roomID event w)))
      by apply lookup_snoc_last.
    by rewrite <- fallback_after_taken, Hreg.
Qed.

(** The addresses one dispatch without a target hands out. *)
Lemma block_addresses (reg : gmap string Receiver) (ed : nat)
    (v : EventData) (base : nat) (userIDs : list string) (force : bool)
    (membership : string) :
  delivered_at <$> notify_calls reg ed v base userIDs "" force membership
  = match reg !! DispatcherAllUsers with
    | Some _ => [Some ed]
    | None => []
    end
    ++ (Some <$> seq base (length (filter (λ u, is_Some (reg !! u)) userIDs))).
Proof.
  rewrite notify_calls_no_target, fmap_app, copy_calls_addresses. f_equal.
  unfold global_call. by destruct (reg !! DispatcherAllUsers).
Qed.

(** The second loop of the bulk path, with the addresses it hands out:
    the event data given, and copies allocated as it goes. *)
Lemma bulk_loop_copies (ic jc : Z) (userIDs : list string) (force : bool)
    (eds : list nat) (vs : list EventData) (w : World) :
  NoDup eds → Forall2 (λ ed v, heap w !! ed = Some v) eds vs →
  ∃ w' blocks,
    for_each eds (λ ed,
      run assign ed (set_InviteCount ic) then
      run assign ed (set_JoinCount jc) then
      notifyListeners ed userIDs "" force "") w = Returned tt w' ∧
    calls w' = calls w ++ concat blocks ∧
    (length (heap w) ≤ length (heap w'))%nat ∧
    Forall2 (λ v block,
               ∃ ed base,
                 ed ∈ eds ∧ (length (heap w) ≤ base)%nat ∧
                 block = notify_calls (userToReceiver w) ed
                           (set_JoinCount jc (set_InviteCount ic v))
                           base userIDs "" force "")
            vs blocks ∧
    Forall (λ a, ∃ p, a = Some p ∧
                      (p ∈ eds ∨
                       (length (heap w) ≤ p < length (heap w'))%nat))
           (delivered_at <$> concat blocks) ∧
    NoDup (delivered_at <$> concat blocks).
Proof.
  intros Hnd Hall. revert vs w Hall.
  induction eds as [|ed eds IH]; intros vs w Hall.
  - apply Forall2_nil_inv_l in Hall as ->.
    exists w, []. cbn. rewrite app_nil_r.
    split_and!; [done | done | lia | constructor | constructor | constructor].
  - apply Forall2_cons_inv_l in Hall as (v & vs' & Hv & Hall & ->).
    apply NoDup_cons in Hnd as [Hnin Hnd].
    assert (Hlt : (ed < length (heap w))%nat) by (by eapply lookup_lt_Some).
    assert (Hlts : Forall (λ ed', (ed' < length (heap w))%nat) eds).
    { clear -Hall. induction Hall; constructor;
        [by eapply lookup_lt_Some | done]. }
    cbn [for_each].
    rewrite !run_assoc, (run_assign _ _ v) by done.
    rewrite run_assoc, (run_assign _ _ (set_InviteCount ic v))
      by (proj; by apply list_lookup_insert_eq).
    proj. rewrite list_insert_insert_eq.
    unfold bind at 1.
    rewrite (notifyListeners_eq _ (set_JoinCount jc (set_InviteCount ic v)))
      by (proj; by apply list_lookup_insert_eq).
    proj. rewrite notify_heap_no_target, length_insert.
    set (reg := userToReceiver w).
    set (v' := set_JoinCount jc (set_InviteCount ic v)).
    set (w1 := {| jrt := jrt w |}).
    destruct (IH Hnd vs' w1)
      as (w' & blocks & Hrun & Hc & Hlen & Hb & Ha & Hndb).
    { subst w1. proj. by apply lookups_preserved. }
    assert (Hl1 : length (heap w1)
                  = (length (heap w)
                     + length (filter (λ u, is_Some (reg !! u)) userIDs))%nat).
    { subst w1. proj. by rewrite length_app, length_insert, copies_length. }
    rewrite Forall_forall in Ha.
    exists w', (notify_calls reg ed v' (length (heap w)) userIDs "" force ""
                :: blocks).
    cbn [concat]. rewrite fmap_app, block_addresses.
    split_and!.
    + exact Hrun.
    + rewrite Hc. subst w1. proj. by rewrite <- app_assoc.
    + lia.
    + constructor.
      * exists ed, (length (heap w)).
        split_and!; [apply list_elem_of_here | lia | done].
      * eapply Forall2_impl; [exact Hb |]. cbv beta.
        intros x b (ed' & base & Hin & Hbase & ->). exists ed', base.
        split_and!; [apply elem_of_cons; by right | lia | done].
    + rewrite !Forall_app. split_and!.
      * destruct (reg !! DispatcherAllUsers); [| constructor].
        apply Forall_singleton. exists ed.
        split; [done | left; apply list_elem_of_here].
      * apply Forall_fmap, Forall_forall. intros p Hp.
        apply elem_of_seq in Hp. exists p. split; [done | right; lia].
      * apply Forall_forall. intros a Hin.
        destruct (Ha a Hin) as (p & -> & [Hp | Hp]); exists p;
          (split; [done |]); [left; apply elem_of_cons; by right | right; lia].
    + apply NoDup_app. split_and!.
      * apply NoDup_app. split_and!.
        -- destruct (reg !! DispatcherAllUsers);
             [apply NoDup_singleton | constructor].
        -- intros a Ha1 Ha2.
           destruct (reg !! DispatcherAllUsers);
             [| by apply elem_of_nil in Ha1].
           apply list_elem_of_singleton in Ha1 as ->.
           apply list_elem_of_fmap in Ha2 as (q & Hq & Hin).
           injection Hq as ->. apply elem_of_seq in Hin. lia.
        -- apply (NoDup_fmap_2 _), NoDup_seq.
      * intros a Ha1 Ha2. destruct (Ha a Ha2) as (p & -> & Hp).
        apply elem_of_app in Ha1 as [Ha1 | Ha1].
        -- destruct (reg !! DispatcherAllUsers);
             [| by apply elem_of_nil in Ha1].
           apply list_elem_of_singleton in Ha1. injection Ha1 as ->.
           destruct Hp as [Hp | Hp]; [done | lia].
        -- apply list_elem_of_fmap in Ha1 as (q & Hq & Hin).
           injection Hq as <-. apply elem_of_seq in Hin.
           destruct Hp as [Hp | Hp]; [| lia].
           rewrite Forall_forall in Hlts. specialize (Hlts _ Hp). lia.
      * exact Hndb.
Qed.

(** Every run of the bulk path of [OnNewInitialRoomState]. *)
Lemma initial_state_bulk_copies (roomID : string) (state : list RawMessage)
    (w : World) :
  ¬ (jrt_JoinedUsersForRoom roomID None (jrt w)).2 > 0 →
  let w1 := with_jrt (bulk_tracker roomID state (jrt w)) w in
  let force :=
    (jrt_UsersJoinedRoom (state_users "join" state) roomID (jrt w)).1 in
  ∃ w' blocks,
    OnNewInitialRoomState roomID state w = Returned tt w' ∧
    fired (OnNewInitialRoomState roomID state) w = concat blocks ∧
    Forall2 (λ event block,
               ∃ ed base,
                 (ed < length (heap w) + length state ≤ base)%nat ∧
                 notifies (userToReceiver w) base ed
                   (set_JoinCount (join_count_of w1 roomID)
                      (set_InviteCount
                         (jrt_NumInvitedUsersForRoom roomID (jrt w1))
                         (NewEventData_value event roomID 0)))
                   (audience_of w1 roomID) "" force "" block)
            state blocks ∧
    NoDup (delivered_at <$> concat blocks).
Proof.
  intros Hjc w1 force.
  assert (Hrun : ∃ w' blocks,
    OnNewInitialRoomState roomID state w = Returned tt w' ∧
    calls w' = calls w ++ concat blocks ∧
    Forall2 (λ v block,
               ∃ ed base,
                 ed ∈ seq (length (heap w)) (length state) ∧
                 (length (heap w) + length state ≤ base)%nat ∧
                 block = notify_calls (userToReceiver w) ed
                           (set_JoinCount (join_count_of w1 roomID)
                              (set_InviteCount
                                 (jrt_NumInvitedUsersForRoom roomID (jrt w1))
                                 v))
                           base (audience_of w1 roomID) "" force "")
            ((λ e, NewEventData_value e roomID 0) <$> state) blocks ∧
    NoDup (delivered_at <$> concat blocks)).
  { unfold OnNewInitialRoomState. rewrite run_jrt_read.
    destruct (jrt_JoinedUsersForRoom roomID None (jrt w)) as [us jc0].
    cbn [snd] in *. rewrite bool_decide_eq_false_2 by done.
    unfold bind at 1. rewrite collect_loop. cbn [app].
    step.
    set (w2 := with_jrt _ _).
    destruct (bulk_loop_copies
                (jrt_NumInvitedUsersForRoom roomID (jrt w1))
                (join_count_of w1 roomID) (audience_of w1 roomID) force
                (seq (length (heap w)) (length state))
                ((λ e, NewEventData_value e roomID 0) <$> state) w2)
      as (w' & blocks & Hrun & Hc & _ & Hb & _ & Hnd).
    { apply NoDup_seq. }
    { subst w2. proj.
      rewrite <- (length_fmap (λ e, NewEventData_value e roomID 0) state).
      apply seq_lookups. }
    exists w', blocks. split_and!; [exact Hrun | by rewrite Hc | | exact Hnd].
    eapply Forall2_impl; [exact Hb |]. cbv beta.
    intros v b (ed & base & Hin & Hbase & ->). exists ed, base.
    split_and!; [done | | done].
    subst w2. revert Hbase. proj. rewrite length_app, length_fmap. lia. }
  destruct Hrun as (w' & blocks & Hrun & Hc & Hb & Hnd).
  exists w', blocks. split_and!; [exact Hrun | | | exact Hnd].
  - unfold fired. rewrite Hrun. cbn [final_world].
    by rewrite Hc, drop_app_length.
  - apply Forall2_fmap_l in Hb.
    eapply Forall2_impl; [exact Hb |]. cbv beta.
    intros event b (ed & base & Hin & Hbase & ->). exists ed, base.
    apply elem_of_seq in Hin. split; [lia |]. apply notify_calls_notifies.
Qed.

(** The global call and the calls of the loop are on different
    addresses. *)
Lemma global_then_copies_NoDup (reg : gmap string Receiver) (ed : nat)
    (v v' : EventData) (targetUser : string) (force : bool) (base : nat)
    (userIDs : list string) :
  (ed < base)%nat →
  NoDup (delivered_at
         <$> global_call reg (OnNewEvent_cb ed (Some v))
             ++ copy_calls reg v' targetUser force base userIDs).
Proof.
  intros Hlt. rewrite fmap_app, copy_calls_addresses.
  apply NoDup_app. split_and!.
  - unfold global_call. destruct (reg !! DispatcherAllUsers);
      [| constructor].
    cbn. apply NoDup_singleton.
  - intros a Ha Hb. unfold global_call in Ha.
    destruct (reg !! DispatcherAllUsers); [| by apply elem_of_nil in Ha].
    apply list_elem_of_singleton in Ha. subst a. cbn in Hb.
    apply list_elem_of_fmap in Hb as (q & Hq & Hin).
    apply elem_of_seq in Hin. injection Hq as Hq. lia.
  - apply (NoDup_fmap_2 _), NoDup_seq.
Qed.

(** The end-to-end run: a first join of a user that holds a receiver,
    then an event of the room that is not a membership event. *)
Lemma first_join_then_plain_event
    (w : World) (roomID : string) (event : RawMessage) (nid : Z)
    (U : string) (l : Receiver) (event2 : RawMessage) (nid2 : Z) :
  member_target event = Some U →
  event_membership event = "join" →
  U ≠ DispatcherAllUsers →
  userToReceiver w !! U = Some l →
  membership_of (jrt w) U roomID ≠ Joined →
  member_target event2 = None →
  let w' := OnNewEvent_world roomID event nid w in
  let tr := fired (OnNewEvent roomID event nid) w in
  let tr2 := fired (OnNewEvent roomID event2 nid2) w' in
  (∃ p v, calls_to U tr = [mk_call U l (OnNewEvent_cb p (Some v))] ∧
          ForceInitial v = true ∧ Event v = event ∧
          (length (heap w) < p)%nat) ∧
  Forall (λ i, inv_user i = U ∨
               ∃ v, delivered i = Some v ∧ ForceInitial v = false) tr ∧
  NoDup (delivered_at <$> tr) ∧
  (∃ p v, calls_to U tr2 = [mk_call U l (OnNewEvent_cb p (Some v))] ∧
          ForceInitial v = false ∧ Event v = event2 ∧
          (length (heap w') < p)%nat) ∧
  Forall (λ i, ∃ v, delivered i = Some v ∧ ForceInitial v = false) tr2 ∧
  NoDup (delivered_at <$> tr2).
Proof.
  intros Ht Hj Hng Hl Hm Ht2 w' tr tr2.
  destruct (track_event_first_join roomID event (jrt w) U Ht Hj Hm)
    as [Hforce Hjoined].
  pose proof (dispatched_value_fields roomID event nid (tracked roomID event w))
    as (Hev & _ & _ & Hfi & _).
  assert (Haud : U ∈ audience_of (tracked roomID event w) roomID).
  { rewrite audience_of_elem. unfold tracked. proj. by rewrite Hl. }
  assert (Hnot : notified_in (userToReceiver w) U
                   (audience_of (tracked roomID event w) roomID) = true).
  { apply notified_in_true. by rewrite Hl. }
  assert (Htr : tr = global_call (userToReceiver w)
                       (OnNewEvent_cb (length (heap w))
                          (Some (dispatched_value roomID event nid
                                   (tracked roomID event w))))
                     ++ copy_calls (userToReceiver w)
                          (dispatched_value roomID event nid
                             (tracked roomID event w)) U true
                          (S (length (heap w)))
                          (audience_of (tracked roomID event w) roomID)).
  { subst tr. rewrite fired_OnNewEvent. unfold OnNewEvent_calls, notify_calls.
    cbv zeta. rewrite (event_target_member event U), Hforce by done.
    unfold fallback_calls, fallback_taken. rewrite Hnot.
    rewrite andb_false_r. cbn [andb]. by rewrite app_nil_r. }
  (* the second event *)
  destruct (track_event_plain roomID event2 (jrt w') Ht2) as (Htr2 & Htg2 & Hmb2).
  pose proof (dispatched_value_fields roomID event2 nid2 (tracked roomID event2 w'))
    as (Hev2 & _ & _ & Hfi2 & _).
  assert (Haud2 : U ∈ audience_of (tracked roomID event2 w') roomID).
  { rewrite audience_of_elem. unfold tracked. rewrite Htr2.
    subst w'. unfold OnNewEvent_world, tracked. proj. by rewrite Hl. }
  assert (Htr2' : tr2 = global_call (userToReceiver w)
                       (OnNewEvent_cb (length (heap w'))
                          (Some (dispatched_value roomID event2 nid2
                                   (tracked roomID event2 w'))))
                     ++ copy_calls (userToReceiver w)
                          (dispatched_value roomID event2 nid2
                             (tracked roomID event2 w')) "" false
                          (S (length (heap w')))
                          (audience_of (tracked roomID event2 w') roomID)).
  { subst tr2. rewrite fired_OnNewEvent. unfold OnNewEvent_calls, notify_calls.
    cbv zeta. rewrite Htg2, Hmb2, Htr2. cbn [fst].
    unfold fallback_calls, fallback_taken.
    rewrite (bool_decide_eq_false_2 ("" ≠ "")) by (intros H; by apply H).
    cbn [andb]. by rewrite app_nil_r. }
  split_and!.
  - destruct (calls_to_copy_calls_present U l (userToReceiver w)
                (dispatched_value roomID event nid (tracked roomID event w))
                U true (S (length (heap w)))
                (audience_of (tracked roomID event w) roomID))
      as (p & Hp & Heq); [apply audience_of_NoDup | done | done |].
    exists p, (copy_for (dispatched_value roomID event nid
                           (tracked roomID event w)) U true U).
    rewrite Htr, calls_to_app, calls_to_global_call, Heq by done.
    split_and!; [done | | | lia].
    + unfold copy_for. by rewrite bool_decide_eq_true_2.
    + unfold copy_for. by rewrite bool_decide_eq_true_2.
  - rewrite Htr. apply Forall_app. split.
    + unfold global_call. destruct (userToReceiver w !! DispatcherAllUsers);
        [| constructor].
      apply Forall_singleton. right. eexists. by split.
    + eapply Forall_impl; [apply copy_calls_each |]. cbn.
      intros i (_ & _ & Hd).
      destruct (decide (inv_user i = U)) as [|Hne]; [by left |].
      right. eexists. split; [exact Hd |].
      unfold copy_for. rewrite bool_decide_eq_false_2 by congruence. done.
  - rewrite Htr. apply global_then_copies_NoDup. lia.
  - destruct (calls_to_copy_calls_present U l (userToReceiver w)
                (dispatched_value roomID event2 nid2 (tracked roomID event2 w'))
                "" false (S (length (heap w')))
                (audience_of (tracked roomID event2 w') roomID))
      as (p & Hp & Heq); [apply audience_of_NoDup | done | done |].
    exists p, (dispatched_value roomID event2 nid2 (tracked roomID event2 w')).
    rewrite Htr2', calls_to_app, calls_to_global_call, Heq by done.
    unfold copy_for. rewrite andb_false_r. split_and!; [done | done | done | lia].
  - rewrite Htr2'. apply Forall_app. split.
    + unfold global_call. destruct (userToReceiver w !! DispatcherAllUsers);
        [| constructor].
      apply Forall_singleton. eexists. by split.
    + eapply Forall_impl; [apply copy_calls_each |]. cbn.
      intros i (_ & _ & Hd). eexists. split; [exact Hd |].
      unfold copy_for. by rewrite andb_false_r.
  - rewrite Htr2'. apply global_then_copies_NoDup. lia.
Qed.

(** C6. In every run of [notifyListeners], hence of [OnNewEvent] and of
    the bulk path of [OnNewInitialRoomState], the loop over the audience
    calls each user that holds a receiver on a copy of its own: a fresh
    address per call, none of them the address of the event data itself,
    holding what the event data held; the copy is flagged [ForceInitial]
    exactly when the user is the target and a bootstrap is forced. The
    event data itself goes to the global receiver and, when the loop has
    not called the target and the membership is not "invite", to the
    target through the fallback; only then is it written, flagged
    [ForceInitial] when a bootstrap is forced. When a user holding a
    receiver joins for the first time, the one call to it is on a flagged
    copy and no other recipient sees the flag; a following event of the
    room that is not a membership event reaches it once, on a copy with
    the flag unset. *)
Theorem loop_hands_out_copies_fallback_the_original :
  (∀ (w : World) (ed : nat) (v : EventData) (userIDs : list string)
     (targetUser : string) (force : bool) (membership : string),
     heap w !! ed = Some v →
     let o := notifyListeners ed userIDs targetUser force membership w in
     let called := filter (λ u, is_Some (userToReceiver w !! u)) userIDs in
     has_returned o = true ∧
     notifies (userToReceiver w) (length (heap w)) ed v userIDs targetUser
       force membership
       (fired (notifyListeners ed userIDs targetUser force membership) w) ∧
     (ed < length (heap w))%nat ∧
     length (heap (final_world o)) = (length (heap w) + length called)%nat ∧
     heap (final_world o) !! ed
     = Some (if fallback_after called targetUser membership && force
             then set_ForceInitial true v else v)) ∧
  (∀ (w : World) (roomID : string) (event : RawMessage) (nid : Z),
     let w1 := tracked roomID event w in
     let v := dispatched_value roomID event nid w1 in
     let force := (track_event roomID event (jrt w)).1 in
     let w' := OnNewEvent_world roomID event nid w in
     OnNewEvent roomID event nid w = Returned tt w' ∧
     Event v = event ∧ ForceInitial v = false ∧
     notifies (userToReceiver w) (S (length (heap w))) (length (heap w)) v
       (audience_of w1 roomID) (event_target event) force
       (event_membership event) (fired (OnNewEvent roomID event nid) w) ∧
     length (heap w')
     = (S (length (heap w)) + length (audience_of w1 roomID))%nat ∧
     heap w' !! length (heap w)
     = Some (if fallback_after (audience_of w1 roomID) (event_target event)
                   (event_membership event) && force
             then set_ForceInitial true v else v)) ∧
  (∀ (w : World) (roomID : string) (state : list RawMessage),
     ¬ (jrt_JoinedUsersForRoom roomID None (jrt w)).2 > 0 →
     let w1 := with_jrt (bulk_tracker roomID state (jrt w)) w in
     let force :=
       (jrt_UsersJoinedRoom (state_users "join" state) roomID (jrt w)).1 in
     ∃ w' blocks,
       OnNewInitialRoomState roomID state w = Returned tt w' ∧
       fired (OnNewInitialRoomState roomID state) w = concat blocks ∧
       Forall2 (λ event block,
                  ∃ ed base,
                    (ed < length (heap w) + length state ≤ base)%nat ∧
                    notifies (userToReceiver w) base ed
                      (set_JoinCount (join_count_of w1 roomID)
                         (set_InviteCount
                            (jrt_NumInvitedUsersForRoom roomID (jrt w1))
                            (NewEventData_value event roomID 0)))
                      (audience_of w1 roomID) "" force "" block)
               state blocks ∧
       NoDup (delivered_at <$> concat blocks)) ∧
  (∀ (w : World) (roomID : string) (event : RawMessage) (nid : Z)
     (U : string) (l : Receiver) (event2 : RawMessage) (nid2 : Z),
     member_target event = Some U →
     event_membership event = "join" →
     U ≠ DispatcherAllUsers →
     userToReceiver w !! U = Some l →
     membership_of (jrt w) U roomID ≠ Joined →
     member_target event2 = None →
     let w' := OnNewEvent_world roomID event nid w in
     let tr := fired (OnNewEvent roomID event nid) w in
     let tr2 := fired (OnNewEvent roomID event2 nid2) w' in
     (∃ p v, calls_to U tr = [mk_call U l (OnNewEvent_cb p (Some v))] ∧
             ForceInitial v = true ∧ Event v = event ∧
             (length (heap w) < p)%nat) ∧
     Forall (λ i, inv_user i = U ∨
                  ∃ v, delivered i = Some v ∧ ForceInitial v = false) tr ∧
     NoDup (delivered_at <$> tr) ∧
     (∃ p v, calls_to U tr2 = [mk_call U l (OnNewEvent_cb p (Some v))] ∧
             ForceInitial v = false ∧ Event v = event2 ∧
             (length (heap w') < p)%nat) ∧
     Forall (λ i, ∃ v, delivered i = Some v ∧ ForceInitial v = false) tr2 ∧
     NoDup (delivered_at <$> tr2)).
Proof.
  split_and!.
  - apply notifyListeners_copies.
  - apply OnNewEvent_copies.
  - intros w roomID state. apply initial_state_bulk_copies.
  - apply first_join_then_plain_event.
Qed.

(** On the sample dispatcher: a notification of Alice and Bob about the
    event data of Alice's join, the bulk path on the sample state block,
    and Alice's first join followed by a message. *)
Lemma loop_hands_out_copies_fallback_the_original_witness :
  let v := dispatched_value sample_room (member_event alice "join") 7
             (tracked sample_room (member_event alice "join") sample_world) in
  (heap sample_world_joined !! 0%nat = Some v ∧
   notifies (userToReceiver sample_world_joined)
     (length (heap sample_world_joined)) 0 v [alice; bob] alice true "join"
     (fired (notifyListeners 0 [alice; bob] alice true "join")
        sample_world_joined)) ∧
  (¬ (jrt_JoinedUsersForRoom sample_room None (jrt sample_world)).2 > 0 ∧
   ∃ w' blocks,
     OnNewInitialRoomState sample_room sample_initial_state sample_world
     = Returned tt w' ∧
     fired (OnNewInitialRoomState sample_room sample_initial_state)
       sample_world = concat blocks ∧
     length blocks = length sample_initial_state ∧
     NoDup (delivered_at <$> concat blocks)) ∧
  (member_target (member_event alice "join") = Some alice ∧
   event_membership (member_event alice "join") = "join" ∧
   alice ≠ DispatcherAllUsers ∧
   userToReceiver sample_world !! alice = Some sample_user ∧
   membership_of (jrt sample_world) alice sample_room ≠ Joined ∧
   member_target message_event = None ∧
   (∃ p v,
      calls_to alice
        (fired (OnNewEvent sample_room (member_event alice "join") 7)
           sample_world)
      = [mk_call alice sample_user (OnNewEvent_cb p (Some v))] ∧
      ForceInitial v = true ∧ Event v = member_event alice "join" ∧
      (length (heap sample_world) < p)%nat) ∧
   (∃ p v,
      calls_to alice
        (fired (OnNewEvent sample_room message_event 8) sample_world_joined)
      = [mk_call alice sample_user (OnNewEvent_cb p (Some v))] ∧
      ForceInitial v = false ∧ Event v = message_event ∧
      (length (heap sample_world_joined) < p)%nat)).
Proof.
  intros v.
  assert (H0 : heap sample_world_joined !! 0%nat = Some v) by reflexivity.
  assert (Hjc : ¬ (jrt_JoinedUsersForRoom sample_room None
                     (jrt sample_world)).2 > 0)
    by (vm_compute; discriminate).
  assert (H1 : member_target (member_event alice "join") = Some alice)
    by reflexivity.
  assert (H2 : event_membership (member_event alice "join") = "join")
    by reflexivity.
  assert (H3 : alice ≠ DispatcherAllUsers) by discriminate.
  assert (H4 : userToReceiver sample_world !! alice = Some sample_user)
    by reflexivity.
  assert (H5 : membership_of (jrt sample_world) alice sample_room ≠ Joined)
    by (vm_compute; discriminate).
  assert (H6 : member_target message_event = None) by reflexivity.
  split; [| split].
  - split; [assumption |].
    exact (proj1 (proj2
      (proj1 loop_hands_out_copies_fallback_the_original
         sample_world_joined 0%nat v [alice; bob] alice true "join" H0))).
  - split; [assumption |].
    destruct (proj1 (proj2 (proj2 loop_hands_out_copies_fallback_the_original))
                sample_world sample_room sample_initial_state Hjc)
      as (w' & blocks & Hrun & Hfired & Hblocks & Hnd).
    exists w', blocks. split; [exact Hrun |]. split; [exact Hfired |].
    split; [symmetry; exact (Forall2_length _ _ _ Hblocks) | exact Hnd].
  - split; [assumption |]. split; [assumption |]. split; [assumption |].
    split; [assumption |]. split; [assumption |]. split; [assumption |].
    split.
    + exact (proj1
        (proj2 (proj2 (proj2 loop_hands_out_copies_fallback_the_original))
           sample_world sample_room (member_event alice "join") 7 alice
           sample_user message_event 8 H1 H2 H3 H4 H5 H6)).
    + exact (proj1 (proj2 (proj2 (proj2
        (proj2 (proj2 (proj2 loop_hands_out_copies_fallback_the_original))
           sample_world sample_room (member_event alice "join") 7 alice
           sample_user message_event 8 H1 H2 H3 H4 H5 H6))))).
Defined.

(** Read on every call of a notification, "each per-user receiver gets a
    copy of its own, and only a copy is flagged" fails on the fallback.
    Alice, who joined through [OnNewEvent] and holds a receiver, leaves:
    her receiver is handed the very address the global receiver was
    handed. Bob, holding no
    receiver, joins for the first time: no copy is made, and the event
    data the global receiver was handed ends up flagged [ForceInitial]. *)
Lemma fallback_hands_over_the_original :
  OnNewEvent sample_room (member_event alice "join") 7 sample_world
  = Returned tt sample_world_joined ∧
  (∃ p v,
     fired (OnNewEvent sample_room (member_event alice "leave") 8)
       sample_world_joined
     = [mk_call DispatcherAllUsers sample_global (OnNewEvent_cb p (Some v));
        mk_call alice sample_user (OnNewEvent_cb p (Some v))]) ∧
  ¬ NoDup (delivered_at
           <$> fired (OnNewEvent sample_room (member_event alice "leave") 8)
                 sample_world_joined) ∧
  (∃ v,
     fired (OnNewEvent sample_room (member_event bob "join") 7) sample_world
     = [mk_call DispatcherAllUsers sample_global
          (OnNewEvent_cb 0 (Some v))] ∧
     ForceInitial v = false ∧
     heap (final_world
             (OnNewEvent sample_room (member_event bob "join") 7
                sample_world))
     = [set_ForceInitial true v]).
Proof.
  split_and!.
  - apply OnNewEvent_run.
  - eexists _, _. vm_compute. reflexivity.
  - intros Hnd. vm_compute in Hnd.
    apply NoDup_cons in Hnd as [Hnin _]. apply Hnin, list_elem_of_here.
  - eexists. split_and!; [vm_compute; reflexivity | reflexivity |].
    vm_compute. reflexivity.
Qed.

(** * Further properties of the range code *)

Local Open Scope Z_scope.

(** [Valid] accepts exactly the collections whose ranges all run from a
    non-negative start to an end that is not before it. *)
Lemma Valid_Forall (r : list (Z * Z)) :
  Valid r = true ↔ Forall (λ sr : Z * Z, 0 ≤ sr.1 ∧ sr.1 ≤ sr.2) r.
Proof.
  unfold Valid. rewrite forallb_forall, Forall_forall. split.
  - intros H sr Hin. apply list_elem_of_In, H in Hin.
    repeat case_bool_decide; try done. lia.
  - intros H sr Hin. apply list_elem_of_In, H in Hin.
    repeat case_bool_decide; try done; lia.
Qed.

(** What [SliceInto] returns for valid ranges on a non-empty Go slice. *)
Lemma SliceInto_windows {A} (r : list (Z * Z))
    (l : list A) :
  Valid r = true → l ≠ [] → Z.of_nat (length l) < 2 ^ 63 →
  Forall (λ sr : Z * Z, sr.2 < 2 ^ 63) r →
  SliceInto r l
  = Some ((λ sr : Z * Z,
             let s' := Z.min sr.1 (Z.of_nat (length l) - 1) in
             let e' := Z.min sr.2 (Z.of_nat (length l) - 1) in
             take (Z.to_nat (e' - s' + 1)) (drop (Z.to_nat s') l)) <$> r).
Proof.
  intros Hv Hne Hlen Hmax. apply Valid_Forall in Hv.
  assert (1 ≤ Z.of_nat (length l)) by (destruct l; [done | simpl; lia]).
  induction r as [|[s e] r IH]; [done |].
  apply Forall_cons in Hv as [[Hs Hse] Hv].
  apply Forall_cons in Hmax as [He Hmax]. simpl in Hs, Hse, He.
  cbn [SliceInto Len list_Subslicer].
  rewrite subslice_args_nonempty by (unfold int64_range; lia).
  cbn [Subslice list_Subslicer]. unfold go_slice.
  rewrite bool_decide_eq_true_2 by lia.
  rewrite (IH Hv Hmax). cbn [fmap list_fmap fst snd]. cbv zeta.
  do 3 f_equal. lia.
Qed.

(** X1. On a non-empty Go slice, valid ranges never make [SliceInto]
    panic: it returns one subslice per range, in order, holding the
    elements from [min start (len-1)] to [min end (len-1)] inclusive. *)
Theorem SliceInto_valid_ranges_nonempty_slice {A} (r : list (Z * Z))
    (l : list A) :
  Valid r = true → l ≠ [] → Z.of_nat (length l) < 2 ^ 63 →
  Forall (λ sr : Z * Z, sr.2 < 2 ^ 63) r →
  SliceInto r l
  = Some ((λ sr : Z * Z,
             let s' := Z.min sr.1 (Z.of_nat (length l) - 1) in
             let e' := Z.min sr.2 (Z.of_nat (length l) - 1) in
             take (Z.to_nat (e' - s' + 1)) (drop (Z.to_nat s') l)) <$> r).
Proof. apply SliceInto_windows. Qed.

Lemma SliceInto_valid_ranges_nonempty_slice_witness :
  Valid [(0, 1); (2, 9)] = true ∧ [10; 20; 30] ≠ @nil Z ∧
  Z.of_nat (length [10; 20; 30]) < 2 ^ 63 ∧
  Forall (λ sr : Z * Z, sr.2 < 2 ^ 63) [(0, 1); (2, 9)] ∧
  SliceInto [(0, 1); (2, 9)] [10; 20; 30] = Some [[10; 20]; [30]].
Proof.
  assert (H1 : Valid [(0, 1); (2, 9)] = true) by reflexivity.
  assert (H2 : [10; 20; 30] ≠ @nil Z) by discriminate.
  assert (H3 : Z.of_nat (length [10; 20; 30]) < 2 ^ 63) by (vm_compute; done).
  assert (H4 : Forall (λ sr : Z * Z, sr.2 < 2 ^ 63) [(0, 1); (2, 9)])
    by (repeat constructor).
  split_and!; try assumption.
  exact (SliceInto_valid_ranges_nonempty_slice [(0, 1); (2, 9)]
           [10; 20; 30] H1 H2 H3 H4).
Defined.

(** X2. Under the same conditions every subslice is a non-empty
    contiguous part of the sequence, and there are as many subslices as
    ranges. *)
Theorem SliceInto_pieces_nonempty {A} (r : list (Z * Z)) (l : list A) :
  Valid r = true → l ≠ [] → Z.of_nat (length l) < 2 ^ 63 →
  Forall (λ sr : Z * Z, sr.2 < 2 ^ 63) r →
  ∃ result,
    SliceInto r l = Some result ∧ length result = length r ∧
    Forall (λ sub, (1 ≤ length sub ≤ length l)%nat ∧
                   ∃ before after, l = before ++ sub ++ after) result.
Proof.
  intros Hv Hne Hlen Hmax.
  eexists. split; [by apply SliceInto_windows |].
  split; [by rewrite length_fmap |].
  apply Valid_Forall in Hv.
  assert (1 ≤ Z.of_nat (length l)) by (destruct l; [done | simpl; lia]).
  apply Forall_fmap, Forall_forall. intros [s e] Hin.
  rewrite Forall_forall in Hv. specialize (Hv _ Hin). simpl in Hv. cbn.
  split.
  - rewrite length_take, length_drop. lia.
  - exists (take (Z.to_nat (Z.min s (Z.of_nat (length l) - 1))) l),
           (drop (Z.to_nat
                    (Z.min e (Z.of_nat (length l) - 1)
                     - Z.min s (Z.of_nat (length l) - 1) + 1))
              (drop (Z.to_nat (Z.min s (Z.of_nat (length l) - 1))) l)).
    by rewrite !take_drop.
Qed.

Lemma SliceInto_pieces_nonempty_witness :
  Valid [(0, 1); (2, 9)] = true ∧ [10; 20; 30] ≠ @nil Z ∧
  Z.of_nat (length [10; 20; 30]) < 2 ^ 63 ∧
  Forall (λ sr : Z * Z, sr.2 < 2 ^ 63) [(0, 1); (2, 9)] ∧
  ∃ result,
    SliceInto [(0, 1); (2, 9)] [10; 20; 30] = Some result ∧
    length result = length [(0, 1); (2, 9)] ∧
    Forall (λ sub, (1 ≤ length sub ≤ length [10; 20; 30])%nat ∧
                   ∃ before after, [10; 20; 30] = before ++ sub ++ after)
           result.
Proof.
  assert (H1 : Valid [(0, 1); (2, 9)] = true) by reflexivity.
  assert (H2 : [10; 20; 30] ≠ @nil Z) by discriminate.
  assert (H3 : Z.of_nat (length [10; 20; 30]) < 2 ^ 63) by (vm_compute; done).
  assert (H4 : Forall (λ sr : Z * Z, sr.2 < 2 ^ 63) [(0, 1); (2, 9)])
    by (repeat constructor).
  split_and!; try assumption.
  exact (SliceInto_pieces_nonempty [(0, 1); (2, 9)] [10; 20; 30]
           H1 H2 H3 H4).
Defined.

(** X3. On an empty Go slice [SliceInto] returns only for the empty
    collection of ranges; any range at all makes it panic, because the
    start it passes on is negative. *)
Theorem SliceInto_empty_slice {A} (r : list (Z * Z)) :
  SliceInto r (@nil A) = match r with [] => Some [] | _ :: _ => None end.
Proof.
  destruct r as [|[s e] r]; [done |].
  cbn [SliceInto Len list_Subslicer length]. unfold subslice_args, cap.
  cbn [fst snd Subslice list_Subslicer]. unfold go_slice.
  rewrite bool_decide_eq_false_2; [done |].
  intros [Hi _]. destruct (bool_decide (Z.of_nat 0 ≤ s)) eqn:Hs.
  - rewrite wrap64_id in Hi by (unfold int64_range; lia). lia.
  - apply bool_decide_eq_false in Hs. lia.
Qed.

(** X4. Swapping receiver and argument swaps [added] and [removed] and
    keeps [same], as sets. *)
Theorem Delta_swap (A B : list (Z * Z)) :
  list_to_set (Delta B A).1.1 =@{gset (Z * Z)} list_to_set (Delta A B).1.2 ∧
  list_to_set (Delta B A).1.2 =@{gset (Z * Z)} list_to_set (Delta A B).1.1 ∧
  list_to_set (Delta B A).2 =@{gset (Z * Z)} list_to_set (Delta A B).2.
Proof.
  split_and!; apply set_eq; intros k; rewrite !elem_of_list_to_set;
    rewrite ?Delta_added, ?Delta_removed, ?Delta_same; tauto.
Qed.

(** X5. [Delta] reports nothing added and nothing removed exactly when
    the two collections hold the same pairs, whatever their order and
    repetitions. *)
Theorem Delta_no_change_iff_same_pairs (A B : list (Z * Z)) :
  (Delta A B).1.1 = [] ∧ (Delta A B).1.2 = [] ↔
  list_to_set A =@{gset (Z * Z)} list_to_set B.
Proof.
  split.
  - intros [Ha Hr]. apply set_eq. intros k. rewrite !elem_of_list_to_set.
    pose proof (Delta_added A B k) as Hadd.
    pose proof (Delta_removed A B k) as Hrem.
    rewrite Ha in Hadd. rewrite Hr in Hrem.
    rewrite elem_of_nil in Hadd, Hrem.
    destruct (decide (k ∈ A)), (decide (k ∈ B)); tauto.
  - intros Heq.
    assert (Hk : ∀ k, k ∈ A ↔ k ∈ B).
    { intros k. by rewrite <- !(elem_of_list_to_set (C:=gset (Z * Z))), Heq. }
    split; apply elem_of_nil_inv; intros k.
    + rewrite Delta_added, Hk. tauto.
    + rewrite Delta_removed, Hk. tauto.
Qed.

(** X6. [Delta] invents no range: every pair it returns comes from one of
    its inputs, so the three outputs of two valid collections are valid. *)
Theorem Delta_preserves_Valid (A B : list (Z * Z)) :
  Valid A = true → Valid B = true →
  Valid (Delta A B).1.1 = true ∧ Valid (Delta A B).1.2 = true ∧
  Valid (Delta A B).2 = true.
Proof.
  rewrite !Valid_Forall, !Forall_forall. intros HA HB.
  split_and!; intros k Hk.
  - apply Delta_added in Hk. apply HB. tauto.
  - apply Delta_removed in Hk. apply HA. tauto.
  - apply Delta_same in Hk. apply HA. tauto.
Qed.

Lemma Delta_preserves_Valid_witness :
  Valid [(0, 10); (20, 30)] = true ∧ Valid [(20, 30); (40, 50)] = true ∧
  (Valid (Delta [(0, 10); (20, 30)] [(20, 30); (40, 50)]).1.1 = true ∧
   Valid (Delta [(0, 10); (20, 30)] [(20, 30); (40, 50)]).1.2 = true ∧
   Valid (Delta [(0, 10); (20, 30)] [(20, 30); (40, 50)]).2 = true).
Proof.
  assert (H1 : Valid [(0, 10); (20, 30)] = true) by reflexivity.
  assert (H2 : Valid [(20, 30); (40, 50)] = true) by reflexivity.
  split; [assumption |]. split; [assumption |].
  exact (Delta_preserves_Valid [(0, 10); (20, 30)] [(20, 30); (40, 50)]
           H1 H2).
Defined.

(** * Further properties of the dispatcher *)

Lemma global_call_well_addressed (reg : gmap string Receiver) (cb : Callback) :
  Forall (well_addressed reg) (global_call reg cb).
Proof.
  unfold global_call.
  destruct (reg !! DispatcherAllUsers) eqn:Hg; [| constructor].
  by apply Forall_singleton.
Qed.

Lemma user_calls_well_addressed (reg : gmap string Receiver) (cb : Callback)
    (userIDs : list string) :
  Forall (well_addressed reg) (user_calls reg cb userIDs).
Proof.
  apply Forall_forall. intros i Hi. unfold user_calls in Hi.
  apply list_elem_of_omap in Hi as (u & _ & Hu).
  destruct (reg !! u) as [l|] eqn:Hl; [| done].
  cbn in Hu. injection Hu as <-. exact Hl.
Qed.

Lemma notify_calls_well_addressed (reg : gmap string Receiver) (ed : nat)
    (v : EventData) (base : nat) (userIDs : list string) (targetUser : string)
    (force : bool) (membership : string) :
  Forall (well_addressed reg)
    (notify_calls reg ed v base userIDs targetUser force membership).
Proof.
  unfold notify_calls. rewrite !Forall_app. split_and!.
  - apply global_call_well_addressed.
  - eapply Forall_impl; [apply copy_calls_each |]. cbn. by intros i (? & _).
  - unfold fallback_calls.
    destruct (fallback_taken _ _ _ _); [| constructor].
    destruct (reg !! targetUser) eqn:Ht; [| constructor].
    by apply Forall_singleton.
Qed.

(** Whatever holds of every call of every [notifyListeners] under the
    registry holds of every call of [OnNewInitialRoomState], on either
    path. *)
Lemma initial_state_calls_forall (P : Invocation → Prop) (roomID : string)
    (state : list RawMessage) (w : World) :
  (∀ ed v base userIDs targetUser force membership,
     Forall P (notify_calls (userToReceiver w) ed v base userIDs targetUser
                 force membership)) →
  Forall P (fired (OnNewInitialRoomState roomID state) w).
Proof.
  intros HP.
  assert (Hreplay : ∀ st w0,
    userToReceiver w0 = userToReceiver w →
    ∃ w' tr, for_each st (λ s, OnNewEvent roomID s 0) w0 = Returned tt w' ∧
             calls w' = calls w0 ++ tr ∧ Forall P tr).
  { induction st as [|x xs IH]; intros w0 Hreg.
    - exists w0, []. by rewrite app_nil_r.
    - cbn [for_each]. unfold bind at 1. rewrite OnNewEvent_run.
      destruct (IH (OnNewEvent_world roomID x 0 w0) Hreg)
        as (w' & tr & Hrun & Hc & Htr).
      exists w', (OnNewEvent_calls roomID x 0 w0 ++ tr).
      split_and!; [done | |].
      + rewrite Hc. cbn [OnNewEvent_world calls]. by rewrite app_assoc.
      + apply Forall_app. split; [| done].
        unfold OnNewEvent_calls. cbv zeta. rewrite Hreg. apply HP. }
  unfold fired.
  destruct (decide ((jrt_JoinedUsersForRoom roomID None (jrt w)).2 > 0))
    as [Hjc|Hjc].
  - rewrite initial_state_degraded by done.
    destruct (Hreplay state
                (with_logs
                   (logs w ++ [degrade_log roomID
                      (jrt_JoinedUsersForRoom roomID None (jrt w)).2 state])
                   w) eq_refl)
      as (w' & tr & -> & Hc & Htr).
    cbn [final_world]. rewrite Hc. cbn [calls with_logs].
    by rewrite drop_app_length.
  - destruct (initial_state_bulk roomID state w Hjc)
      as (w' & -> & _ & _ & blocks & Hc & Hb).
    cbn [final_world]. rewrite Hc, drop_app_length.
    apply Forall_concat, Forall_forall. intros block Hin.
    apply list_elem_of_lookup in Hin as [k Hk].
    destruct (Forall2_lookup_r _ _ _ _ _ Hb Hk) as (ev & _ & ed & base & ->).
    apply HP.
Qed.

(** The calls of the four dispatch operations are well addressed. *)
Lemma all_dispatch_well_addressed
    (w : World) (roomID : string) (event : RawMessage) (nid : Z)
    (state : list RawMessage) (ephEvent : RawMessage) (receipt : Receipt) :
  Forall (well_addressed (userToReceiver w))
    (fired (OnNewEvent roomID event nid) w) ∧
  Forall (well_addressed (userToReceiver w))
    (fired (OnNewInitialRoomState roomID state) w) ∧
  Forall (well_addressed (userToReceiver w))
    (fired (OnEphemeralEvent roomID ephEvent) w) ∧
  Forall (well_addressed (userToReceiver w)) (fired (OnReceipt receipt) w).
Proof.
  split_and!.
  - rewrite fired_OnNewEvent. apply notify_calls_well_addressed.
  - apply initial_state_calls_forall. intros.
    apply notify_calls_well_addressed.
  - unfold fired. rewrite OnEphemeralEvent_eq.
    cbn [final_world calls with_calls]. rewrite drop_app_length.
    apply Forall_app. split;
      [apply global_call_well_addressed | apply user_calls_well_addressed].
  - unfold fired. rewrite OnReceipt_eq.
    cbn [final_world calls with_calls]. rewrite drop_app_length.
    apply Forall_app. split;
      [apply global_call_well_addressed | apply user_calls_well_addressed].
Qed.

(** X7. No dispatch operation ever calls a receiver other than the one
    registered under the key it dispatches to: every call of
    [OnNewEvent], [OnNewInitialRoomState], [OnEphemeralEvent] and
    [OnReceipt] is well addressed. *)
Theorem dispatch_calls_only_registered_receivers
    (w : World) (roomID : string) (event : RawMessage) (nid : Z)
    (state : list RawMessage) (ephEvent : RawMessage) (receipt : Receipt) :
  Forall (well_addressed (userToReceiver w))
    (fired (OnNewEvent roomID event nid) w) ∧
  Forall (well_addressed (userToReceiver w))
    (fired (OnNewInitialRoomState roomID state) w) ∧
  Forall (well_addressed (userToReceiver w))
    (fired (OnEphemeralEvent roomID ephEvent) w) ∧
  Forall (well_addressed (userToReceiver w)) (fired (OnReceipt receipt) w).
Proof. apply all_dispatch_well_addressed. Qed.

Lemma unregistered_gets_no_call (reg : gmap string Receiver) (u : string)
    (tr : list Invocation) :
  reg !! u = None → Forall (well_addressed reg) tr → calls_to u tr = [].
Proof.
  intros Hu Hall. apply filter_none. eapply Forall_impl; [exact Hall |].
  cbn. unfold well_addressed. intros i Hi Heq. rewrite Heq in Hi. congruence.
Qed.

(** X8. After [Unregister], every dispatch operation skips the user: no
    call is made under that key, be it a user or the global sentinel. *)
Theorem Unregister_then_dispatch_skips_user
    (w : World) (u roomID : string) (event : RawMessage) (nid : Z)
    (state : list RawMessage) (ephEvent : RawMessage) (receipt : Receipt) :
  let w' := final_world (Unregister u w) in
  Unregister u w = Returned tt w' ∧
  userToReceiver w' !! u = None ∧
  jrt w' = jrt w ∧ calls w' = calls w ∧
  calls_to u (fired (OnNewEvent roomID event nid) w') = [] ∧
  calls_to u (fired (OnNewInitialRoomState roomID state) w') = [] ∧
  calls_to u (fired (OnEphemeralEvent roomID ephEvent) w') = [] ∧
  calls_to u (fired (OnReceipt receipt) w') = [].
Proof.
  intros w'.
  assert (Hu : userToReceiver w' !! u = None) by apply lookup_delete_eq.
  destruct (all_dispatch_well_addressed w' roomID event nid
              state ephEvent receipt) as (H1 & H2 & H3 & H4).
  split_and!; try done; by apply (unregistered_gets_no_call _ _ _ Hu).
Qed.

Lemma Register_calls_nothing_but_the_hook (w : World) (u : string) (r : Receiver) :
  ∃ w', Register u r w = Returned (recv_OnRegistered r) w' ∧ jrt w' = jrt w.
Proof.
  unfold Register. rewrite run_ReceiverForUser.
  destruct (userToReceiver w !! u).
  - rewrite run_log, run_modify, run_invoke. by eexists.
  - rewrite run_ret, run_modify, run_invoke. by eexists.
Qed.

(** X9. The registry is written by [Register] and [Unregister] only: the
    four dispatch operations leave it exactly as it was, and [Register]
    and [Unregister] in turn never touch the membership tracker. *)
Theorem registry_and_tracker_are_written_separately
    (w : World) (u roomID : string) (r : Receiver) (event : RawMessage)
    (nid : Z) (state : list RawMessage) (ephEvent : RawMessage)
    (receipt : Receipt) :
  userToReceiver (final_world (OnNewEvent roomID event nid w))
  = userToReceiver w ∧
  userToReceiver (final_world (OnNewInitialRoomState roomID state w))
  = userToReceiver w ∧
  userToReceiver (final_world (OnEphemeralEvent roomID ephEvent w))
  = userToReceiver w ∧
  userToReceiver (final_world (OnReceipt receipt w)) = userToReceiver w ∧
  jrt (final_world (Register u r w)) = jrt w ∧
  jrt (final_world (Unregister u w)) = jrt w.
Proof.
  split_and!.
  - by rewrite OnNewEvent_run.
  - destruct (decide ((jrt_JoinedUsersForRoom roomID None (jrt w)).2 > 0))
      as [Hjc|Hjc].
    + rewrite initial_state_degraded by done.
      destruct (replay_loop roomID state
                  (with_logs
                     (logs w ++ [degrade_log roomID
                        (jrt_JoinedUsersForRoom roomID None (jrt w)).2 state])
                     w))
        as (w' & -> & Hr & _).
      exact Hr.
    + destruct (initial_state_bulk roomID state w Hjc)
        as (w' & -> & _ & Hr & _).
      exact Hr.
  - by rewrite OnEphemeralEvent_eq.
  - by rewrite OnReceipt_eq.
  - destruct (Register_calls_nothing_but_the_hook w u r) as (w' & -> & Hj).
    exact Hj.
  - done.
Qed.

Lemma calls_to_fallback_calls (u : string) (reg : gmap string Receiver)
    (ed : nat) (v : EventData) (userIDs : list string) (targetUser : string)
    (force : bool) (membership : string) :
  (length (calls_to u (fallback_calls reg ed v userIDs targetUser force
                         membership)) ≤ 1)%nat ∧
  (u ∈ userIDs → is_Some (reg !! u) →
   calls_to u (fallback_calls reg ed v userIDs targetUser force membership)
   = []).
Proof.
  unfold fallback_calls, calls_to.
  destruct (fallback_taken reg userIDs targetUser membership) eqn:Hf;
    [| split; [simpl; lia | done]].
  destruct (reg !! targetUser) as [l|] eqn:Hl;
    [| split; [simpl; lia | done]].
  split.
  - rewrite filter_cons, filter_nil. case_decide; simpl; lia.
  - intros Hin Hreg. apply filter_none, Forall_singleton. cbn. intros <-.
    unfold fallback_taken in Hf.
    assert (Hn : notified_in reg targetUser userIDs = true)
      by (by apply notified_in_true).
    rewrite Hn in Hf. by rewrite andb_false_r in Hf.
Qed.

(** X10. One [OnNewEvent] calls each user's receiver at most once: a
    member of the audience is reached by the loop and then never again
    by the fallback, and anyone else can only be reached by the
    fallback. The global sentinel is the one key left out here. *)
Theorem OnNewEvent_calls_each_user_at_most_once
    (w : World) (roomID : string) (event : RawMessage) (nid : Z) (u : string) :
  u ≠ DispatcherAllUsers →
  (length (calls_to u (fired (OnNewEvent roomID event nid) w)) ≤ 1)%nat.
Proof.
  intros Hne. rewrite fired_OnNewEvent. unfold OnNewEvent_calls, notify_calls.
  cbv zeta. rewrite !calls_to_app, calls_to_global_call by done.
  cbn [app]. rewrite length_app.
  set (users := audience_of (tracked roomID event w) roomID).
  destruct (calls_to_fallback_calls u (userToReceiver w) (length (heap w))
              (dispatched_value roomID event nid (tracked roomID event w))
              users (event_target event)
              (track_event roomID event (jrt w)).1 (event_membership event))
    as [Hle Hnone].
  destruct (decide (u ∈ users)) as [Hin|Hnin].
  - assert (Hreg : is_Some (userToReceiver w !! u)).
    { subst users. apply audience_of_elem in Hin. tauto. }
    destruct Hreg as [l Hl].
    destruct (calls_to_copy_calls_present u l (userToReceiver w)
                (dispatched_value roomID event nid (tracked roomID event w))
                (event_target event) (track_event roomID event (jrt w)).1
                (S (length (heap w))) users)
      as (p & _ & ->); [apply audience_of_NoDup | done | done |].
    rewrite Hnone by (done || by eexists). simpl. lia.
  - rewrite calls_to_copy_calls_absent by done. simpl. lia.
Qed.

Lemma OnNewEvent_calls_each_user_at_most_once_witness :
  alice ≠ DispatcherAllUsers ∧
  (length (calls_to alice
             (fired (OnNewEvent sample_room (member_event alice "join") 7)
                sample_world)) ≤ 1)%nat.
Proof.
  assert (H1 : alice ≠ DispatcherAllUsers) by discriminate.
  split; [assumption |].
  exact (OnNewEvent_calls_each_user_at_most_once sample_world sample_room
           (member_event alice "join") 7 alice H1).
Defined.

(** X11. An event that is not a membership event (no state key, or
    another type) is handed on as it is: the tracker stays as it was, the
    recipients are the global receiver, if any, followed by the audience,
    and all of them see the same event data, with the join count filled
    in and [ForceInitial] unset. *)
Theorem OnNewEvent_plain_event_is_delivered_unchanged
    (w : World) (roomID : string) (event : RawMessage) (nid : Z) :
  member_target event = None →
  let v := set_JoinCount (join_count_of w roomID)
             (NewEventData_value event roomID nid) in
  jrt (final_world (OnNewEvent roomID event nid w)) = jrt w ∧
  inv_user <$> fired (OnNewEvent roomID event nid) w
  = match userToReceiver w !! DispatcherAllUsers with
    | Some _ => [DispatcherAllUsers]
    | None => []
    end ++ audience_of w roomID ∧
  Forall (λ i, delivered i = Some v) (fired (OnNewEvent roomID event nid) w).
Proof.
  intros Ht v.
  destruct (track_event_plain roomID event (jrt w) Ht) as (Htr & Htg & Hmb).
  assert (Hw : tracked roomID event w = with_jrt (jrt w) w)
    by (unfold tracked; by rewrite Htr).
  assert (Hv : dispatched_value roomID event nid (tracked roomID event w) = v).
  { unfold dispatched_value. by rewrite Ht, Hw. }
  assert (Hfired : fired (OnNewEvent roomID event nid) w
                   = global_call (userToReceiver w)
                       (OnNewEvent_cb (length (heap w)) (Some v))
                     ++ copy_calls (userToReceiver w) v "" false
                          (S (length (heap w))) (audience_of w roomID)).
  { rewrite fired_OnNewEvent. unfold OnNewEvent_calls. cbv zeta.
    rewrite Hv, Htg, Hmb, Htr, Hw. cbn [fst].
    by rewrite notify_calls_no_target. }
  split_and!.
  - rewrite OnNewEvent_run. cbn [final_world OnNewEvent_world jrt].
    by rewrite Hw.
  - rewrite Hfired, fmap_app, copy_calls_users.
    rewrite (audience_all_registered w) by done. f_equal.
    unfold global_call. by destruct (userToReceiver w !! DispatcherAllUsers).
  - rewrite Hfired. apply Forall_app. split.
    + unfold global_call. destruct (userToReceiver w !! DispatcherAllUsers);
        [| constructor].
      by apply Forall_singleton.
    + eapply Forall_impl; [apply copy_calls_each |]. cbn.
      intros i (_ & _ & ->). unfold copy_for. by rewrite andb_false_r.
Qed.

Lemma OnNewEvent_plain_event_is_delivered_unchanged_witness :
  member_target message_event = None ∧
  jrt (final_world (OnNewEvent sample_room message_event 8
                      sample_world_joined))
  = jrt sample_world_joined ∧
  inv_user <$> fired (OnNewEvent sample_room message_event 8)
                 sample_world_joined
  = match userToReceiver sample_world_joined !! DispatcherAllUsers with
    | Some _ => [DispatcherAllUsers]
    | None => []
    end ++ audience_of sample_world_joined sample_room.
Proof.
  assert (H1 : member_target message_event = None) by reflexivity.
  split; [assumption |].
  split.
  - exact (proj1 (OnNewEvent_plain_event_is_delivered_unchanged
                    sample_world_joined sample_room message_event 8 H1)).
  - exact (proj1 (proj2 (OnNewEvent_plain_event_is_delivered_unchanged
                           sample_world_joined sample_room message_event 8
                           H1))).
Defined.

(** X12. [OnNewEvent] changes the tracker for four membership values
    only: with any other value (or for an event that is not a membership
    event) the tracker is left as it was. *)
Theorem OnNewEvent_other_membership_keeps_tracker
    (w : World) (roomID : string) (event : RawMessage) (nid : Z) :
  event_membership event ≠ "invite" → event_membership event ≠ "join" →
  event_membership event ≠ "ban" → event_membership event ≠ "leave" →
  jrt (final_world (OnNewEvent roomID event nid w)) = jrt w.
Proof.
  intros Hi Hj Hb Hl. rewrite OnNewEvent_run.
  cbn [final_world OnNewEvent_world jrt]. unfold tracked, track_event.
  destruct (member_target event); [| done]. cbv zeta.
  by rewrite !bool_decide_eq_false_2 by done.
Qed.

Lemma OnNewEvent_other_membership_keeps_tracker_witness :
  event_membership (member_event alice "knock") ≠ "invite" ∧
  event_membership (member_event alice "knock") ≠ "join" ∧
  event_membership (member_event alice "knock") ≠ "ban" ∧
  event_membership (member_event alice "knock") ≠ "leave" ∧
  jrt (final_world (OnNewEvent sample_room (member_event alice "knock") 9
                      sample_world_joined))
  = jrt sample_world_joined.
Proof.
  assert (H1 : event_membership (member_event alice "knock") ≠ "invite")
    by (vm_compute; discriminate).
  assert (H2 : event_membership (member_event alice "knock") ≠ "join")
    by (vm_compute; discriminate).
  assert (H3 : event_membership (member_event alice "knock") ≠ "ban")
    by (vm_compute; discriminate).
  assert (H4 : event_membership (member_event alice "knock") ≠ "leave")
    by (vm_compute; discriminate).
  split_and!; try assumption.
  exact (OnNewEvent_other_membership_keeps_tracker sample_world_joined
           sample_room (member_event alice "knock") 9 H1 H2 H3 H4).
Defined.

(** ** Invalidation, beyond the missing receiver *)

(** X13. [OnInvalidateRoom] also panics, before doing anything, when the
    receiver registered under the global sentinel is not a global cache:
    the unchecked type assertion fails on its dynamic type. *)
Theorem OnInvalidateRoom_wrong_global_type_panics
    (w : World) (roomID : string) (joins : gmap string nat)
    (invites : gmap string (list RawMessage))
    (leaves : gmap string RawMessage) (r : Receiver) :
  userToReceiver w !! DispatcherAllUsers = Some r →
  recv_type r ≠ GlobalCachePtr →
  OnInvalidateRoom roomID joins invites leaves w
  = Panicked "interface conversion: interface holds another type" w.
Proof.
  intros Hr Hty. unfold OnInvalidateRoom.
  rewrite run_ReceiverForUser, Hr. unfold type_assert.
  by rewrite decide_False.
Qed.

Lemma OnInvalidateRoom_wrong_global_type_panics_witness :
  userToReceiver sample_world_misregistered !! DispatcherAllUsers
  = Some sample_user ∧
  recv_type sample_user ≠ GlobalCachePtr ∧
  OnInvalidateRoom sample_room ∅ ∅ ∅ sample_world_misregistered
  = Panicked "interface conversion: interface holds another type"
      sample_world_misregistered.
Proof.
  assert (H1 : userToReceiver sample_world_misregistered !! DispatcherAllUsers
               = Some sample_user) by reflexivity.
  assert (H2 : recv_type sample_user ≠ GlobalCachePtr) by discriminate.
  split_and!; try assumption.
  exact (OnInvalidateRoom_wrong_global_type_panics sample_world_misregistered
           sample_room ∅ ∅ ∅ sample_user H1 H2).
Defined.







(** The loop over [leaves] or [invites] panics at the first receiver that
    is not a user cache; until then it has only added calls, all of them
    with the callback of the loop. *)
Lemma usercache_loop_panics {X} (cb : X → Callback)
    (entries : list (string * X)) (w : World) :
  Exists (λ e : string * X,
            ∃ r, userToReceiver w !! e.1 = Some r ∧
                 recv_type r ≠ UserCachePtr) entries →
  ∃ tr,
    for_each entries (λ '(userID, x),
      let* receiver := ReceiverForUser userID in
      match receiver with
      | None => ret tt
      | Some _ =>
          let* uc := type_assert UserCachePtr receiver in
          match recv_ptr uc with
          | Some _ => invoke userID uc (cb x)
          | None => ret tt
          end
      end) w
    = Panicked "interface conversion: interface holds another type"
        (with_calls (calls w ++ tr) w) ∧
    Forall (λ i, ∃ x, inv_callback i = cb x) tr.
Proof.
  intros Hex. revert w Hex.
  induction entries as [|[u x] es IH]; intros w Hex.
  - by apply Exists_nil in Hex.
  - cbn [for_each]. rewrite run_assoc, run_ReceiverForUser.
    destruct (userToReceiver w !! u) as [r|] eqn:Hr.
    + unfold type_assert at 1.
      destruct (decide (recv_type r = UserCachePtr)) as [Hty|Hty].
      * assert (Hes : Exists (λ e : string * X,
                         ∃ r, userToReceiver w !! e.1 = Some r ∧
                              recv_type r ≠ UserCachePtr) es).
        { apply Exists_cons in Hex as [(r0 & Hr0 & Hty0) | Hes]; [| done].
          cbn in Hr0. congruence. }
        rewrite run_assoc, run_ret.
        destruct (recv_ptr r).
        -- rewrite run_invoke.
           destruct (IH (with_calls (calls w ++ [mk_call u r (cb x)]) w) Hes)
             as (tr & -> & Htr).
           exists (mk_call u r (cb x) :: tr). proj. split.
           ++ by rewrite <- app_assoc.
           ++ constructor; [by eexists | done].
        -- rewrite run_ret. by apply IH.
      * rewrite run_assoc, run_panic. exists [].
        by rewrite app_nil_r, with_calls_same.
    + rewrite run_ret. apply IH.
      apply Exists_cons in Hex as [(r0 & Hr0 & _) | Hes]; [| done].
      cbn in Hr0. congruence.
Qed.

(** X15. When the receiver registered for a user named in [leaves] is not
    a user cache (the global sentinel with its global cache is such a
    user), [OnInvalidateRoom] panics in the middle: the global cache has
    been invalidated and the tracker reloaded by then, some leaves may
    have been notified, and none of the invites and joins is. *)
Theorem OnInvalidateRoom_panics_after_reload
    (w : World) (roomID : string) (joins : gmap string nat)
    (invites : gmap string (list RawMessage))
    (leaves : gmap string RawMessage) (gc : Receiver)
    (u : string) (r : Receiver) :
  userToReceiver w !! DispatcherAllUsers = Some gc →
  recv_type gc = GlobalCachePtr → is_Some (recv_ptr gc) →
  is_Some (leaves !! u) →
  userToReceiver w !! u = Some r → recv_type r ≠ UserCachePtr →
  ∃ w1 left_calls,
    OnInvalidateRoom roomID joins invites leaves w
    = Panicked "interface conversion: interface holds another type" w1 ∧
    jrt w1 = jrt_ReloadMembershipsForRoom roomID (Keys joins) (Keys invites)
               (jrt w) ∧
    calls w1 = calls w
               ++ mk_call DispatcherAllUsers gc (OnInvalidateRoom_cb roomID)
                  :: left_calls ∧
    Forall (λ i, ∃ ev, inv_callback i = OnLeftRoom_cb roomID ev) left_calls.
Proof.
  intros Hgc Hty [p Hp] [ev Hev] Hr Hbad.
  unfold OnInvalidateRoom. rewrite run_ReceiverForUser, Hgc.
  unfold type_assert at 1. rewrite decide_True by done.
  rewrite run_ret, Hp, run_invoke, run_jrt_write.
  unfold bind at 1.
  set (w0 := with_jrt _ _).
  destruct (usercache_loop_panics (OnLeftRoom_cb roomID)
              (map_to_list leaves) w0) as (tr & Hrun & Htr).
  { apply Exists_exists. exists (u, ev).
    split; [by apply elem_of_map_to_list |]. by exists r. }
  rewrite Hrun. eexists _, tr. split; [reflexivity |].
  subst w0. proj. split_and!; [done | by rewrite <- app_assoc | done].
Qed.

Lemma OnInvalidateRoom_panics_after_reload_witness :
  userToReceiver sample_world !! DispatcherAllUsers = Some sample_global ∧
  recv_type sample_global = GlobalCachePtr ∧
  is_Some (recv_ptr sample_global) ∧
  is_Some (sentinel_leaves !! DispatcherAllUsers) ∧
  recv_type sample_global ≠ UserCachePtr ∧
  ∃ w1 left_calls,
    OnInvalidateRoom sample_room ∅ ∅ sentinel_leaves sample_world
    = Panicked "interface conversion: interface holds another type" w1 ∧
    jrt w1 = jrt_ReloadMembershipsForRoom sample_room
               (Keys (∅ : gmap string nat))
               (Keys (∅ : gmap string (list RawMessage)))
               (jrt sample_world) ∧
    calls w1 = calls sample_world
               ++ mk_call DispatcherAllUsers sample_global
                    (OnInvalidateRoom_cb sample_room) :: left_calls ∧
    Forall (λ i, ∃ ev, inv_callback i = OnLeftRoom_cb sample_room ev)
           left_calls.
Proof.
  assert (H1 : userToReceiver sample_world !! DispatcherAllUsers
               = Some sample_global) by reflexivity.
  assert (H2 : recv_type sample_global = GlobalCachePtr) by reflexivity.
  assert (H3 : is_Some (recv_ptr sample_global)) by (by eexists).
  assert (H4 : is_Some (sentinel_leaves !! DispatcherAllUsers))
    by (by eexists).
  assert (H5 : recv_type sample_global ≠ UserCachePtr) by discriminate.
  split_and!; try assumption.
  exact (OnInvalidateRoom_panics_after_reload sample_world sample_room
           ∅ ∅ sentinel_leaves sample_global DispatcherAllUsers sample_global
           H1 H2 H3 H4 H1 H5).
Defined.

(** ** The initial state block, continued *)

(** X16. On the bulk path no recipient is told to bootstrap: the flag the
    tracker returns for newly joined users is passed to
    [notifyListeners] with an empty target, so every event data handed
    out has [ForceInitial] unset, a receiver registered under the empty
    user ID being the only possible exception. *)
Theorem OnNewInitialRoomState_bulk_never_forces_initial
    (w : World) (roomID : string) (state : list RawMessage) :
  ¬ (jrt_JoinedUsersForRoom roomID None (jrt w)).2 > 0 →
  Forall (λ i, inv_user i = "" ∨
               ∃ v, delivered i = Some v ∧ ForceInitial v = false)
         (fired (OnNewInitialRoomState roomID state) w).
Proof.
  intros Hjc.
  destruct (initial_state_bulk roomID state w Hjc)
    as (w1 & Hrun & _ & _ & blocks & Hc & Hb).
  unfold fired. rewrite Hrun. cbn [final_world].
  rewrite Hc, drop_app_length.
  apply Forall_concat, Forall_forall. intros block Hin.
  apply list_elem_of_lookup in Hin as [k Hk].
  destruct (Forall2_lookup_r _ _ _ _ _ Hb Hk) as (ev & _ & ed & base & ->).
  rewrite notify_calls_no_target. apply Forall_app. split.
  - unfold global_call. destruct (userToReceiver w !! DispatcherAllUsers);
      [| constructor].
    apply Forall_singleton. right. by eexists.
  - eapply Forall_impl; [apply copy_calls_each |]. cbn.
    intros i (_ & _ & Hd).
    destruct (decide (inv_user i = "")) as [|Hne]; [by left |].
    right. eexists. split; [exact Hd |].
    unfold copy_for. rewrite bool_decide_eq_false_2 by congruence. done.
Qed.

Lemma OnNewInitialRoomState_bulk_never_forces_initial_witness :
  ¬ (jrt_JoinedUsersForRoom sample_room None (jrt sample_world)).2 > 0 ∧
  Forall (λ i, inv_user i = "" ∨
               ∃ v, delivered i = Some v ∧ ForceInitial v = false)
         (fired (OnNewInitialRoomState sample_room sample_initial_state)
            sample_world).
Proof.
  assert (H1 : ¬ (jrt_JoinedUsersForRoom sample_room None
                    (jrt sample_world)).2 > 0)
    by (vm_compute; discriminate).
  split; [assumption |].
  exact (OnNewInitialRoomState_bulk_never_forces_initial sample_world
           sample_room sample_initial_state H1).
Defined.

(** X17. An empty state block dispatches nothing and leaves the tracker
    as it was, on either path; the call returns. *)
Theorem OnNewInitialRoomState_empty_state (w : World) (roomID : string) :
  has_returned (OnNewInitialRoomState roomID [] w) = true ∧
  fired (OnNewInitialRoomState roomID []) w = [] ∧
  jrt (final_world (OnNewInitialRoomState roomID [] w)) = jrt w ∧
  heap (final_world (OnNewInitialRoomState roomID [] w)) = heap w.
Proof.
  unfold fired.
  destruct (decide ((jrt_JoinedUsersForRoom roomID None (jrt w)).2 > 0))
    as [Hjc|Hjc].
  - rewrite initial_state_degraded by done. cbn.
    by rewrite drop_all.
  - unfold OnNewInitialRoomState. rewrite run_jrt_read.
    destruct (jrt_JoinedUsersForRoom roomID None (jrt w)) as [us jc0].
    cbn [snd] in Hjc. rewrite bool_decide_eq_false_2 by done.
    cbn [fold_each]. rewrite run_ret. step. cbn [for_each].
    unfold ret, jrt_UsersInvitedToRoom, jrt_UsersJoinedRoom.
    cbn [has_returned final_world foldl snd]. proj.
    by rewrite drop_all.
Qed.

(** ** Registration, continued *)

(** X18. Registering and then unregistering a user that had no receiver
    restores the registry; in between the user's receiver is the one
    registered, and whatever a dispatch operation then calls under that
    key is that receiver. *)
Theorem Register_then_Unregister_round_trip
    (w : World) (u : string) (r : Receiver) (roomID : string)
    (event : RawMessage) (nid : Z) (ephEvent : RawMessage) :
  userToReceiver w !! u = None →
  let w1 := final_world (Register u r w) in
  let w2 := final_world (Unregister u w1) in
  ReceiverForUser u w1 = Returned (Some r) w1 ∧
  Forall (λ i, inv_receiver i = r)
    (calls_to u (fired (OnNewEvent roomID event nid) w1)) ∧
  Forall (λ i, inv_receiver i = r)
    (calls_to u (fired (OnEphemeralEvent roomID ephEvent) w1)) ∧
  ReceiverForUser u w2 = Returned None w2 ∧
  userToReceiver w2 = userToReceiver w ∧ jrt w2 = jrt w.
Proof.
  intros Hnone w1 w2.
  assert (Hw1 : userToReceiver w1 = <[u := r]> (userToReceiver w)).
  { subst w1. unfold Register. rewrite run_ReceiverForUser, Hnone.
    by rewrite run_ret, run_modify, run_invoke. }
  assert (Hj1 : jrt w1 = jrt w).
  { subst w1. unfold Register. rewrite run_ReceiverForUser, Hnone.
    by rewrite run_ret, run_modify, run_invoke. }
  assert (Hl1 : userToReceiver w1 !! u = Some r)
    by (by rewrite Hw1, lookup_insert_eq).
  assert (Hto : ∀ tr, Forall (well_addressed (userToReceiver w1)) tr →
                      Forall (λ i, inv_receiver i = r) (calls_to u tr)).
  { intros tr Htr. apply Forall_forall. intros i Hi.
    apply list_elem_of_filter in Hi as [Hu Hi].
    rewrite Forall_forall in Htr. specialize (Htr i Hi).
    unfold well_addressed in Htr. rewrite Hu, Hl1 in Htr. congruence. }
  destruct (all_dispatch_well_addressed w1 roomID event nid [] ephEvent
              sample_receipt) as (H1 & _ & H2 & _).
  split_and!.
  - unfold ReceiverForUser, gets. by rewrite Hl1.
  - by apply Hto.
  - by apply Hto.
  - unfold ReceiverForUser, gets. subst w2. cbn.
    by rewrite lookup_delete_eq.
  - subst w2. cbn. rewrite Hw1. by apply delete_insert_id.
  - subst w2. cbn. exact Hj1.
Qed.

Lemma Register_then_Unregister_round_trip_witness :
  userToReceiver sample_world !! "@bob:example.org" = None ∧
  userToReceiver
    (final_world
       (Unregister "@bob:example.org"
          (final_world (Register "@bob:example.org" sample_user
                          sample_world))))
  = userToReceiver sample_world.
Proof.
  assert (H1 : userToReceiver sample_world !! "@bob:example.org" = None)
    by reflexivity.
  split; [assumption |].
  exact (proj1 (proj2 (proj2 (proj2 (proj2
    (Register_then_Unregister_round_trip sample_world "@bob:example.org"
       sample_user sample_room message_event 1 message_event H1)))))).
Defined.
